(** * react-bg-hooks: the search state engine (useSearch) and the column
      format pipeline (useTable), embedded in Rocq.

    The development follows the two source files:
    - [useSearch] (query/pagination state, codec, storage adapters);
    - [useTable]  (format factory registry, [formatGenerate]).

    JavaScript values are a first-order data type; objects are property
    lists in enumeration order; the built-ins of the platform (JSON, URI
    coding, base64, qs, number parsing, the toolkit helpers) are the fields
    of a [Platform] record, so that the repository's functions are written
    once, over any platform, and evaluated on a reference platform. *)

From Stdlib Require Import ZArith Lia List String Ascii Bool.
From stdpp Require Import base tactics option list strings gmap pretty.

Set Warnings "-register-all".
Open Scope string_scope.
Open Scope Z_scope.

(** ** JavaScript values *)

(** Numbers: the values the engine and the formatters distinguish.  Finite
    numbers are modelled by the integers (pages, sizes, identifiers). *)
Inductive JsNumber : Type :=
| NaN
| Infinity (negative : bool)
| Fin (z : Z).

(** [JEnum tag] is a host object (an enum class of the domain), opaque but
    truthy; it only occurs as the [origin] option of the [constant] format. *)
Inductive JsValue : Type :=
| JUndefined
| JNull
| JBool (b : bool)
| JNum (n : JsNumber)
| JStr (s : string)
| JArr (elems : list JsValue)
| JObj (props : list (string * JsValue))
| JEnum (tag : string).

(** A plain object: its own enumerable properties, in enumeration order. *)
Abbreviation payload := (list (string * JsValue)).

Definition JInt (z : Z) : JsValue := JNum (Fin z).

(** [ToBoolean]. *)
Definition truthy (v : JsValue) : bool :=
  match v with
  | JUndefined | JNull => false
  | JBool b => b
  | JNum NaN => false
  | JNum (Fin z) => negb (z =? 0)
  | JNum (Infinity _) => true
  | JStr s => negb (String.eqb s "")
  | JArr _ | JObj _ | JEnum _ => true
  end.

(** [a ?? b]. *)
Definition nullish_or (a b : JsValue) : JsValue :=
  match a with
  | JUndefined | JNull => b
  | _ => a
  end.

(** ** Objects as property lists *)

(** [obj_get k o] is the own property [k] of [o], if any. *)
Fixpoint obj_get (k : string) (o : payload) : option JsValue :=
  match o with
  | [] => None
  | (k', v) :: o' => if String.eqb k k' then Some v else obj_get k o'
  end.

(** [o.k] / [o[k]]: a missing property reads as [undefined]. *)
Definition prop (k : string) (o : payload) : JsValue :=
  default JUndefined (obj_get k o).

(** [o[k] = v]: an existing property keeps its position, a new one is
    appended. *)
Fixpoint obj_set (k : string) (v : JsValue) (o : payload) : payload :=
  match o with
  | [] => [(k, v)]
  | (k', v') :: o' =>
      if String.eqb k k' then (k', v) :: o' else (k', v') :: obj_set k v o'
  end.

Definition Object_keys (o : payload) : list string := map fst o.

(** [{...target, ...src}] continued on an object under construction:
    every own property of [src] is defined on [target], in order. *)
Definition spread (target src : payload) : payload :=
  fold_left (fun acc kv => obj_set (fst kv) (snd kv) acc) src target.

(** The characters of a string, as one-character strings. *)
Fixpoint chars (s : string) : list string :=
  match s with
  | EmptyString => []
  | String c s' => String c EmptyString :: chars s'
  end.

Definition indexed (l : list JsValue) : payload :=
  imap (fun i v => (pretty (N.of_nat i), v)) l.

(** The own enumerable properties that [{...v}] copies from any value:
    those of an object, the indices of an array or of a string, none for
    the other primitives ([null] and [undefined] included). *)
Definition own_props (v : JsValue) : payload :=
  match v with
  | JObj o => o
  | JArr l => indexed l
  | JStr s => indexed (map JStr (chars s))
  | _ => []
  end.

(** A well-formed object has no two properties of the same name. *)
Definition wf_obj (o : payload) : Prop := NoDup (Object_keys o).

(** ** Exceptions *)

Inductive JsError : Type :=
| SyntaxError | URIError | InvalidCharacterError | RangeError | TypeError.

Inductive outcome (A : Type) : Type :=
| Ret (a : A)
| Throw (e : JsError).
Arguments Ret {A} a.
Arguments Throw {A} e.

#[global] Instance outcome_ret : MRet outcome := fun A a => Ret a.

(** Sequencing: the first exception aborts the rest. *)
#[global] Instance outcome_bind : MBind outcome := fun A B f m =>
  match m with
  | Ret a => f a
  | Throw e => Throw e
  end.

(** [try { body } catch (e) { handler(e) }]. *)
Definition try_catch {A} (body : outcome A) (handler : JsError -> outcome A)
  : outcome A :=
  match body with
  | Ret a => Ret a
  | Throw e => handler e
  end.

(** ** useSearch: configuration and state *)

Inductive SupportedFormat : Type := query | base64.

Inductive SyncMode : Type := SyncOff | SyncUrl | SyncCopy.

(** [cache?: boolean | string]. *)
Inductive CacheMode : Type :=
| CacheBool (b : bool)
| CacheKey (prefix : string).

Definition sync_on (s : SyncMode) : bool :=
  match s with SyncOff => false | _ => true end.

(** Truthiness of the [cache] option: the empty string is falsy. *)
Definition cache_on (c : CacheMode) : bool :=
  match c with
  | CacheBool b => b
  | CacheKey k => negb (String.eqb k "")
  end.

(** Modelled from the spec: the class [PageQuery] (service/public) is not
    part of the sources; the spec gives it the two fields [page] and
    [pageSize], positive integers. *)
Record PageQuery : Type := mkPageQuery { page : Z; pageSize : Z }.

Definition PageQuery_props (p : PageQuery) : payload :=
  [("page", JInt (page p)); ("pageSize", JInt (pageSize p))].

Record SearchOptions : Type := mkSearchOptions {
  initialSearchData : option payload;
  initialPagination : option PageQuery;
  staticSearchData : option payload;
  initRequest : bool;
  sync : SyncMode;
  cache : CacheMode;
  storageFormat : SupportedFormat
}.

(** The cells the hook keeps across renders: the [loading] and [pageData]
    states and the refs [searchDataRef], [paginationRef], [storageRef]. *)
Record Engine : Type := mkEngine {
  loading : bool;
  pageData : JsValue;
  searchDataRef : payload;
  paginationRef : PageQuery;
  storageRef : string
}.

Definition staticParams (opts : SearchOptions) : payload :=
  default [] (staticSearchData opts).

(** The synchronous part of [searchRef.current(searchData, pagination)]:
    the state it leaves and the argument it passes to the fetch function. *)
Definition searchRef_begin (opts : SearchOptions) (st : Engine)
    (searchData : option payload) (pagination : option PageQuery)
  : Engine * payload :=
  let loading1 := true in
  let pagination1 :=
    match pagination with
    | Some p =>
        {| page := if pageSize (paginationRef st) =? pageSize p
                   then page p else 1;
           pageSize := pageSize p |}
    | None => paginationRef st
    end in
  let '(search2, pagination2) :=
    match searchData with
    | Some sd => (sd, {| page := 1; pageSize := pageSize pagination1 |})
    | None => (searchDataRef st, pagination1)
    end in
  ({| loading := loading1;
      pageData := pageData st;
      searchDataRef := search2;
      paginationRef := pagination2;
      storageRef := storageRef st |},
   spread (spread (spread [] search2) (PageQuery_props pagination2))
          (staticParams opts)).

(** ** The platform *)

(** What the two files import or find in the global scope.  The encoders
    are total on the modelled values (no cyclic object, no BigInt, no lone
    surrogate); the decoders may throw.
    - [toFixed n digits] is [n.toFixed(digits)], [moment_format v pattern]
      is [moment(v).format(pattern)], [enum_valueOf_name tag v] is
      [origin.valueOf(v).name] for the enum class [tag];
    - [isEmpty] and [renderPrice] belong to the repository's toolkit module
      and [newPageQuery] is [new PageQuery()]: these are not part of the
      sources and are taken as parameters. *)
Record Platform : Type := mkPlatform {
  JSON_stringify : JsValue -> string;
  JSON_parse : string -> outcome JsValue;
  encodeURIComponent : string -> string;
  decodeURIComponent : string -> outcome string;
  btoa : string -> string;
  atob : string -> outcome string;
  qs_stringify : payload -> string;
  qs_parse : string -> JsValue;
  parseFloat : JsValue -> JsNumber;
  parseInt : JsValue -> JsValue -> JsNumber;
  toFixed : JsNumber -> JsValue -> outcome string;
  moment_format : JsValue -> JsValue -> JsValue;
  enum_valueOf_name : string -> JsValue -> outcome JsValue;
  isEmpty : JsValue -> bool;
  renderPrice : JsValue -> outcome JsValue;
  newPageQuery : PageQuery
}.

(** ** The codec *)

Definition isUsefulValue (v : JsValue) : bool :=
  match v with
  | JArr l => negb (Nat.eqb (length l) 0)
  | JUndefined | JNull => false
  | JStr s => negb (String.eqb s "")
  | _ => true
  end.

(** What [console.error] receives. [IncompleteQuery] is the message of
    [decodeQueryData]: the query parameters are incomplete, take care when
    copying the link. *)
Inductive ConsoleMsg : Type := IncompleteQuery.

(** A computation that may log and may throw. *)
Definition logged (A : Type) : Type := (list ConsoleMsg * outcome A)%type.

Definition silent {A} (m : outcome A) : logged A := ([], m).

Definition lbind {A B} (m : logged A) (f : A -> logged B) : logged B :=
  match m with
  | (log, Ret a) => let '(log', r) := f a in ((log ++ log')%list, r)
  | (log, Throw e) => (log, Throw e)
  end.

Section Search.

Variable P : Platform.

(** The keys of [queryData] whose value is useful. *)
Definition useful_keys (queryData : payload) : list string :=
  List.filter (fun k => isUsefulValue (prop k queryData))
              (Object_keys queryData).

(** [o[k] = v] on an object made by [{}]: the key [__proto__] reaches the
    setter that the object inherits, which defines no own property; every
    other key is defined on the object. *)
Definition assign (k : string) (v : JsValue) (o : payload) : payload :=
  if String.eqb k "__proto__" then o else obj_set k v o.

(** The object [_query] that the [forEach] fills. *)
Definition filtered_query (queryData : payload) : payload :=
  fold_left (fun _query k => assign k (prop k queryData) _query)
            (useful_keys queryData) [].

Definition encodeQueryData (queryData : option payload)
    (format : SupportedFormat) : string :=
  match queryData with
  | Some qd =>
      if negb (Nat.eqb (length (useful_keys qd)) 0) then
        let _query := filtered_query qd in
        match format with
        | base64 =>
            btoa P (encodeURIComponent P (JSON_stringify P (JObj _query)))
        | query => qs_stringify P qd
        end
      else ""
  | None => ""
  end.

(** The expression of the [try] block:
    [JSON.parse(decodeURIComponent(atob(decodeURIComponent(data))))]. *)
Definition parse_base64 (data : string) : outcome JsValue :=
  d1 ← decodeURIComponent P data;
  s ← atob P d1;
  u ← decodeURIComponent P s;
  JSON_parse P u.

(** [data] is [None] for [null] (what [searchParams.get] and
    [sessionStorage.getItem] answer for a missing entry). *)
Definition decodeQueryData (data : option string) (format : SupportedFormat)
  : logged JsValue :=
  match data with
  | Some d =>
      if negb (String.eqb d "") then
        match format with
        | base64 =>
            match parse_base64 d with
            | Ret v => ([], Ret v)
            | Throw _ => ([IncompleteQuery], Ret (JObj []))
            end
        | query =>
            silent (s ← decodeURIComponent P d; Ret (qs_parse P s))
        end
      else silent (Ret (JObj []))
  | None => silent (Ret (JObj []))
  end.

(** ** Storage adapters *)

Definition SEARCH_QUERY_KEY : string := "_q".
Definition SEARCH_CACHE_KEY : string := "list_search_query".

(** The part of the browser the hook touches: [document.location.pathname],
    the value of the search parameter [_q] of the current link, and the
    session store. *)
Record Browser : Type := mkBrowser {
  pathname : string;
  search_q : option string;
  sessionStorage : gmap string string
}.

(** The parameter [_q] of the link that [generateNewUrl data] builds. *)
Definition generateNewUrl (data : string) (br : Browser) : option string :=
  let q1 :=
    match search_q br with
    | Some v => if negb (String.eqb v "") then None else Some v
    | None => None
    end in
  if negb (String.eqb data "") then Some (encodeURIComponent P data) else q1.

(** [Router.replace] moves the current link, in place. *)
Definition setToUrl (data : string) (br : Browser) : Browser :=
  {| pathname := pathname br;
     search_q := generateNewUrl data br;
     sessionStorage := sessionStorage br |}.

Definition getFromUrl (format : SupportedFormat) (br : Browser)
  : logged JsValue :=
  decodeQueryData (search_q br) format.

(** The template literal prints the prefix [true] as ["true"]. *)
Definition prefix_string (prefix : CacheMode) : string :=
  match prefix with
  | CacheBool true => "true"
  | CacheBool false => "false"
  | CacheKey k => k
  end.

Definition cache_key (prefix : CacheMode) (br : Browser) : string :=
  pathname br +:+ "_" +:+ prefix_string prefix +:+ "_" +:+ SEARCH_CACHE_KEY.

Definition setCache (prefix : CacheMode) (data : string) (br : Browser)
  : Browser :=
  {| pathname := pathname br;
     search_q := search_q br;
     sessionStorage := <[cache_key prefix br := data]> (sessionStorage br) |}.

Definition getFromCache (prefix : CacheMode) (format : SupportedFormat)
    (br : Browser) : logged JsValue :=
  decodeQueryData (sessionStorage br !! cache_key prefix br) format.

(** ** The hook *)

(** [_initialSearchData]: the three spreads, in source order. *)
Definition initial_search_data (opts : SearchOptions) (br : Browser)
  : logged payload :=
  lbind (if cache_on (cache opts)
         then getFromCache (cache opts) (storageFormat opts) br
         else silent (Ret (JObj [])))
    (fun cached =>
  lbind (if sync_on (sync opts)
         then getFromUrl (storageFormat opts) br
         else silent (Ret (JObj [])))
    (fun linked =>
  silent (Ret (spread (spread (spread [] (default [] (initialSearchData opts)))
                              (own_props cached))
                      (own_props linked))))).

(** The cells after the first render of [useSearch]. *)
Definition useSearch_init (opts : SearchOptions) (br : Browser)
    (initialPageData : JsValue) : logged Engine :=
  lbind (initial_search_data opts br) (fun _initialSearchData =>
  silent (Ret {| loading := initRequest opts;
                 pageData := initialPageData;
                 searchDataRef := _initialSearchData;
                 paginationRef :=
                   default (newPageQuery P) (initialPagination opts);
                 storageRef := "" |})).

Definition storageFunc (opts : SearchOptions) (formData : payload)
    (w : Engine * Browser) : Engine * Browser :=
  let '(st, br) := w in
  let storage1 :=
    if sync_on (sync opts) || cache_on (cache opts)
    then encodeQueryData (Some formData) (storageFormat opts)
    else storageRef st in
  let br1 :=
    match sync opts with
    | SyncUrl => setToUrl storage1 br
    | _ => br
    end in
  let br2 :=
    if cache_on (cache opts) then setCache (cache opts) storage1 br1
    else br1 in
  ({| loading := loading st;
      pageData := pageData st;
      searchDataRef := searchDataRef st;
      paginationRef := paginationRef st;
      storageRef := storage1 |}, br2).

(** How the promise of the fetch function settles, and how the promise that
    [searchRef.current] returns settles. *)
Inductive Settlement : Type :=
| Fulfilled (result : JsValue)
| Rejected (reason : JsValue).

Definition setPageData (result : JsValue) (st : Engine) : Engine :=
  {| loading := loading st;
     pageData := result;
     searchDataRef := searchDataRef st;
     paginationRef := paginationRef st;
     storageRef := storageRef st |}.

Definition setLoading (b : bool) (st : Engine) : Engine :=
  {| loading := b;
     pageData := pageData st;
     searchDataRef := searchDataRef st;
     paginationRef := paginationRef st;
     storageRef := storageRef st |}.

(** The reactions [.then(result => setPageData(result))] and
    [.finally(...)], run on the cells as they are when the fetch settles. *)
Definition searchRef_settle (opts : SearchOptions) (s : Settlement)
    (w : Engine * Browser) : (Engine * Browser) * Settlement :=
  let '(w1, s1) :=
    match s with
    | Fulfilled result =>
        ((setPageData result (fst w), snd w), Fulfilled JUndefined)
    | Rejected reason => (w, Rejected reason)
    end in
  let w2 := storageFunc opts (searchDataRef (fst w1)) w1 in
  ((setLoading false (fst w2), snd w2), s1).

(** One whole call of the trigger whose fetch settles as [fetch] says on the
    argument it is given, with no other call in between. *)
Definition searchRef (opts : SearchOptions) (fetch : payload -> Settlement)
    (searchData : option payload) (pagination : option PageQuery)
    (w : Engine * Browser) : (Engine * Browser) * Settlement :=
  let '(st1, arg) := searchRef_begin opts (fst w) searchData pagination in
  searchRef_settle opts (fetch arg) (st1, snd w).

End Search.

(** ** What the codec needs of the platform *)

(** The values that a JSON text holds exactly: no [undefined], no host
    object, no [NaN] and no infinity at any depth, objects without repeated
    keys. *)
Fixpoint json_safe (v : JsValue) : bool :=
  match v with
  | JUndefined | JEnum _ => false
  | JNull | JBool _ | JStr _ => true
  | JNum (Fin _) => true
  | JNum _ => false
  | JArr l => forallb json_safe l
  | JObj o =>
      bool_decide (NoDup (map fst o))
      && forallb (fun kv => match kv with (_, x) => json_safe x end) o
  end.

(** The laws of the built-ins that the round trip of the codec rests on:
    each decoder undoes its encoder, a base64 text holds no escape, and no
    encoder maps a text that is not empty to the empty text. *)
Record CodecLaws (P : Platform) : Prop := mkCodecLaws {
  JSON_parse_stringify : forall o,
    json_safe (JObj o) = true ->
    JSON_parse P (JSON_stringify P (JObj o)) = Ret (JObj o);
  JSON_stringify_nonempty : forall o, JSON_stringify P (JObj o) <> "";
  decodeURIComponent_encode : forall s,
    decodeURIComponent P (encodeURIComponent P s) = Ret s;
  encodeURIComponent_nonempty : forall s,
    s <> "" -> encodeURIComponent P s <> "";
  atob_btoa : forall s, atob P (btoa P s) = Ret s;
  btoa_nonempty : forall s, s <> "" -> btoa P s <> "";
  decodeURIComponent_btoa : forall s,
    decodeURIComponent P (btoa P s) = Ret (btoa P s)
}.

(** ** useTable: conversions *)

Definition Number_toString (n : JsNumber) : string :=
  match n with
  | NaN => "NaN"
  | Infinity true => "-Infinity"
  | Infinity false => "Infinity"
  | Fin z => pretty z
  end.

(** [ToString], with [Array.prototype.join] for arrays: [null] and
    [undefined] elements print as the empty string. *)
Fixpoint ToString (v : JsValue) : string :=
  match v with
  | JUndefined => "undefined"
  | JNull => "null"
  | JBool true => "true"
  | JBool false => "false"
  | JNum n => Number_toString n
  | JStr s => s
  | JArr l =>
      (fix join_comma (l : list JsValue) : string :=
         match l with
         | [] => ""
         | x :: l' =>
             let sx := match x with
                       | JUndefined | JNull => ""
                       | _ => ToString x
                       end in
             match l' with
             | [] => sx
             | _ => sx +:+ "," +:+ join_comma l'
             end
         end) l
  | JObj _ | JEnum _ => "[object Object]"
  end.

Definition join_elem (v : JsValue) : string :=
  match v with
  | JUndefined | JNull => ""
  | _ => ToString v
  end.

(** [values.join(sep)]: a missing separator is a comma. *)
Fixpoint Array_join (sep : string) (l : list JsValue) : string :=
  match l with
  | [] => ""
  | x :: l' =>
      match l' with
      | [] => join_elem x
      | _ => join_elem x +:+ sep +:+ Array_join sep l'
      end
  end.

Definition join_separator (sep : JsValue) : string :=
  match sep with
  | JUndefined => ","
  | _ => ToString sep
  end.

(** [record[key]]: reading a property of [null] or [undefined] throws. *)
Definition get_member (record key : JsValue) : outcome JsValue :=
  match record with
  | JUndefined | JNull => Throw TypeError
  | _ => Ret (prop (ToString key) (own_props record))
  end.

(** ** useTable: the format registry *)

Inductive ReadFormatType : Type :=
| date | datetime | number | int | money | constant | join.

Definition format_name (t : ReadFormatType) : string :=
  match t with
  | date => "date"
  | datetime => "datetime"
  | number => "number"
  | int => "int"
  | money => "money"
  | constant => "constant"
  | join => "join"
  end.

(** The own entry of the registry under a property key, if any. *)
Definition format_of_name (key : string) : option ReadFormatType :=
  List.find (fun t => String.eqb key (format_name t))
            [date; datetime; number; int; money; constant; join].

Definition DEFAULT_EMPTY_VALUE : string := "-".

Definition DEFAULT_FORMAT_OPTIONS (t : ReadFormatType) : payload :=
  match t with
  | date => [("pattern", JStr "YYYY-MM-DD")]
  | datetime => [("pattern", JStr "YYYY-MM-DD HH:mm:ss")]
  | number => [("digits", JInt 0)]
  | int => [("radix", JInt 10)]
  | money => [("symbol", JStr "")]
  | constant => [("origin", JNull)]
  | join => [("with", JStr ""); ("sep", JStr "-"); ("format", JUndefined)]
  end.

(** A render function: [(value, record) => display]. *)
Definition render : Type := JsValue -> JsValue -> outcome JsValue.

(** [{ ...defaults, ...opt }]. *)
Definition with_defaults (defaults : payload) (opt : JsValue) : payload :=
  spread (spread [] defaults) (own_props opt).

(** ** useTable: the registries are plain objects *)

(** The two registries are object literals, read as [registry[name]] with a
    name that comes from the options of a column.  The name is first made a
    property key; a key that is not an own key of the registry reaches
    [Object.prototype]. *)

(** An object with an own [toString], which cannot be a function here, has
    no primitive value, neither has an array that holds one. *)
Fixpoint has_no_text (v : JsValue) : bool :=
  match v with
  | JObj o => bool_decide (is_Some (obj_get "toString" o))
  | JArr l => existsb has_no_text l
  | _ => false
  end.

(** [ToPropertyKey]. *)
Definition ToPropertyKey (v : JsValue) : outcome string :=
  if has_no_text v then Throw TypeError else Ret (ToString v).

(** What sits where a function is expected: a function, or a value that is
    not one.  Of such a value the code only tests the truthiness, and
    calling it is a [TypeError]. *)
Inductive Held (F : Type) : Type :=
| Callable (f : F)
| NotCallable (truthy_value : bool).
Arguments Callable {F} f.
Arguments NotCallable {F} truthy_value.

Definition held_truthy {F} (h : Held F) : bool :=
  match h with
  | Callable _ => true
  | NotCallable b => b
  end.

Definition not_callable : render := fun _ _ => Throw TypeError.

(** A held render, as the code that calls it when it is truthy sees it. *)
Definition as_render (h : Held render) : option render :=
  match h with
  | Callable f => Some f
  | NotCallable true => Some not_callable
  | NotCallable false => None
  end.

(** The members of [Object.prototype]. *)
Inductive ObjectMember : Type :=
| m_constructor | m_hasOwnProperty | m_isPrototypeOf | m_propertyIsEnumerable
| m_toLocaleString | m_toString | m_valueOf
| m_defineGetter | m_defineSetter | m_lookupGetter | m_lookupSetter
| m_proto.

Definition member_name (m : ObjectMember) : string :=
  match m with
  | m_constructor => "constructor"
  | m_hasOwnProperty => "hasOwnProperty"
  | m_isPrototypeOf => "isPrototypeOf"
  | m_propertyIsEnumerable => "propertyIsEnumerable"
  | m_toLocaleString => "toLocaleString"
  | m_toString => "toString"
  | m_valueOf => "valueOf"
  | m_defineGetter => "__defineGetter__"
  | m_defineSetter => "__defineSetter__"
  | m_lookupGetter => "__lookupGetter__"
  | m_lookupSetter => "__lookupSetter__"
  | m_proto => "__proto__"
  end.

Definition Object_prototype_member (key : string) : option ObjectMember :=
  List.find (fun m => String.eqb key (member_name m))
            [m_constructor; m_hasOwnProperty; m_isPrototypeOf;
             m_propertyIsEnumerable; m_toLocaleString; m_toString; m_valueOf;
             m_defineGetter; m_defineSetter; m_lookupGetter; m_lookupSetter;
             m_proto].

(** The getter and the setter of the accessor [__proto__], called as plain
    functions: they have no object to work on. *)
Definition proto_accessor : render := fun _ _ => Throw TypeError.

(** An accessor property that [__defineGetter__] or [__defineSetter__] has
    put on a registry: the functions are renders of columns. *)
Record Accessor : Type := mkAccessor {
  acc_get : option render;
  acc_set : option render
}.

(** The entries of a registry that were redefined since the module declared
    it: none, at first. *)
Abbreviation Redefined := (gmap string Accessor).

Section Registry.

Context {F : Type}.

(** The own entries that the module declares: each takes the params and,
    in the truncation registry, the previous render. *)
Variable declared : string -> option (JsValue -> Held render -> F).
(** A render of a column where the registry answers with one. *)
Variable of_render : render -> F.

(** Reading an own accessor calls its getter, with no argument. *)
Definition read_accessor (a : Accessor) : outcome JsValue :=
  match acc_get a with
  | Some g => g JUndefined JUndefined
  | None => Ret JUndefined
  end.

(** [registry.member(arg, second)] for a member of [Object.prototype]; the
    format registry is called with one argument, [second] is then
    [undefined]. *)
Definition inherited_call (acc : Redefined) (m : ObjectMember)
    (arg : JsValue) (second : Held render) : outcome (Held F) * Redefined :=
  match m with
  | m_constructor | m_toString | m_valueOf => (Ret (NotCallable true), acc)
  | m_toLocaleString =>
      (match acc !! "toString" with
       | Some a => _ ← read_accessor a; Throw TypeError
       | None => Ret (NotCallable true)
       end, acc)
  | m_isPrototypeOf => (Ret (NotCallable false), acc)
  | m_hasOwnProperty | m_propertyIsEnumerable =>
      (key ← ToPropertyKey arg;
       Ret (NotCallable (bool_decide (is_Some (acc !! key))
                         || bool_decide (is_Some (declared key)))), acc)
  | m_lookupGetter =>
      (key ← ToPropertyKey arg;
       Ret match acc !! key with
           | Some a => match acc_get a with
                       | Some g => Callable (of_render g)
                       | None => NotCallable false
                       end
           | None =>
               if negb (bool_decide (is_Some (declared key)))
                  && String.eqb key "__proto__"
               then Callable (of_render proto_accessor)
               else NotCallable false
           end, acc)
  | m_lookupSetter =>
      (key ← ToPropertyKey arg;
       Ret match acc !! key with
           | Some a => match acc_set a with
                       | Some s => Callable (of_render s)
                       | None => NotCallable false
                       end
           | None =>
               if negb (bool_decide (is_Some (declared key)))
                  && String.eqb key "__proto__"
               then Callable (of_render proto_accessor)
               else NotCallable false
           end, acc)
  | m_defineGetter =>
      match second with
      | Callable g =>
          match ToPropertyKey arg with
          | Ret key =>
              (Ret (NotCallable false),
               <[key := {| acc_get := Some g;
                           acc_set := acc !! key ≫= acc_set |}]> acc)
          | Throw e => (Throw e, acc)
          end
      | NotCallable _ => (Throw TypeError, acc)
      end
  | m_defineSetter =>
      match second with
      | Callable s =>
          match ToPropertyKey arg with
          | Ret key =>
              (Ret (NotCallable false),
               <[key := {| acc_get := acc !! key ≫= acc_get;
                           acc_set := Some s |}]> acc)
          | Throw e => (Throw e, acc)
          end
      | NotCallable _ => (Throw TypeError, acc)
      end
  | m_proto => (Throw TypeError, acc)
  end.

(** [registry[name](arg, second)]: the answer, and the redefined entries
    after the call.  What an own accessor gives is a value of a render,
    never a function; neither is [undefined], for a key that is nowhere. *)
Definition registry_call (acc : Redefined) (name arg : JsValue)
    (second : Held render) : outcome (Held F) * Redefined :=
  match ToPropertyKey name with
  | Throw e => (Throw e, acc)
  | Ret key =>
      match acc !! key with
      | Some a => (_ ← read_accessor a; Throw TypeError, acc)
      | None =>
          match declared key with
          | Some factory => (Ret (Callable (factory arg second)), acc)
          | None =>
              match Object_prototype_member key with
              | Some m => inherited_call acc m arg second
              | None => (Throw TypeError, acc)
              end
          end
      end
  end.

End Registry.

Section Table.

Variable P : Platform.

Definition date_factory (opt : JsValue) : render :=
  let _opt := with_defaults (DEFAULT_FORMAT_OPTIONS date) opt in
  fun value _ =>
    if truthy value then Ret (moment_format P value (prop "pattern" _opt))
    else Ret (prop "default" _opt).

Definition datetime_factory (opt : JsValue) : render :=
  let _opt := with_defaults (DEFAULT_FORMAT_OPTIONS datetime) opt in
  fun value _ =>
    if truthy value then Ret (moment_format P value (prop "pattern" _opt))
    else Ret (prop "default" _opt).

Definition number_factory (opt : JsValue) : render :=
  let _opt := with_defaults (DEFAULT_FORMAT_OPTIONS number) opt in
  fun value _ =>
    try_catch
      (if isEmpty P value then Ret (prop "default" _opt)
       else s ← toFixed P (parseFloat P value) (prop "digits" _opt);
            Ret (JStr s))
      (fun _ => Ret value).

(** The source merges over the defaults of [number] here, not of [int]. *)
Definition int_factory (opt : JsValue) : render :=
  let _opt := with_defaults (DEFAULT_FORMAT_OPTIONS number) opt in
  fun value _ =>
    try_catch
      (if isEmpty P value then Ret (prop "default" _opt)
       else Ret (JNum (parseInt P value (prop "radix" _opt))))
      (fun _ => Ret value).

Definition money_factory (opt : JsValue) : render :=
  let _opt := with_defaults (DEFAULT_FORMAT_OPTIONS money) opt in
  fun value _ =>
    try_catch
      (if isEmpty P value then Ret (prop "default" _opt)
       else renderPrice P value)
      (fun _ => Ret value).

(** [_opt.origin.valueOf(value).name]: an enum class answers through the
    platform; any other truthy origin is its own [valueOf()]. *)
Definition constant_factory (opt : JsValue) : render :=
  let _opt := with_defaults (DEFAULT_FORMAT_OPTIONS constant) opt in
  fun value _ =>
    let origin := prop "origin" _opt in
    if truthy origin then
      match origin with
      | JEnum tag => enum_valueOf_name P tag value
      | JObj o => Ret (prop "name" o)
      | _ => Ret JUndefined
      end
    else Ret value.

(** [keys.map(...)] on the normalised [with] option. *)
Definition join_keys (_with : JsValue) : outcome (list JsValue) :=
  let keys := if truthy _with then _with else JArr [] in
  match keys with
  | JStr s => Ret [JStr s]
  | JArr l => Ret l
  | _ => Throw TypeError
  end.

Fixpoint map_outcome {A B} (f : A -> outcome B) (l : list A)
  : outcome (list B) :=
  match l with
  | [] => Ret []
  | x :: l' => y ← f x; ys ← map_outcome f l'; Ret (y :: ys)
  end.

(** The [join] factory, given the function that builds the sub-format. *)
Definition join_factory_with
    (sub : JsValue -> JsValue -> outcome (Held render)) (opt : JsValue)
  : render :=
  let _opt := with_defaults (DEFAULT_FORMAT_OPTIONS join) opt in
  let format := prop "format" _opt in
  let sep := prop "sep" _opt in
  let _with := prop "with" _opt in
  fun value record =>
    keys ← join_keys _with;
    others ← map_outcome
               (fun key => v ← get_member record key;
                           Ret (nullish_or v (JStr ""))) keys;
    let values := value :: others in
    if negb (truthy format) then
      Ret (JStr (Array_join (join_separator sep) values))
    else
      formatter ← sub format opt;
      match as_render formatter with
      | Some f =>
          shown ← map_outcome (fun el => f el JUndefined) values;
          Ret (JStr (Array_join (join_separator sep) shown))
      | None => Throw TypeError
      end.

(** [_format]: a bare name is paired with [null]. *)
Definition format_pair (info : JsValue) : JsValue * JsValue :=
  match info with
  | JStr _ => (info, JNull)
  | _ => (prop "0" (own_props info), prop "1" (own_props info))
  end.

(** The registry, given its [join] entry. *)
Definition DEFAULT_FORMAT_RENDER_FACTORY (join_entry : JsValue -> render)
    (t : ReadFormatType) : JsValue -> render :=
  match t with
  | date => date_factory
  | datetime => datetime_factory
  | number => number_factory
  | int => int_factory
  | money => money_factory
  | constant => constant_factory
  | join => join_entry
  end.

(** [formatGenerate], given the [join] entry of the registry: what the call
    [DEFAULT_FORMAT_RENDER_FACTORY[_format[0]](...)] answers.  No call with
    one argument redefines an entry of the registry. *)
Definition formatGenerate_with (join_entry : JsValue -> render)
    (info : JsValue) (options : JsValue) : outcome (Held render) :=
  if negb (truthy info) then Ret (NotCallable false)
  else
    let '(name, params) := format_pair info in
    let arg :=
      if truthy params
      then JObj (spread [("default", prop "default" (own_props options))]
                        (own_props params))
      else JNull in
    fst (registry_call
           (fun key =>
              option_map
                (fun t arg _ => DEFAULT_FORMAT_RENDER_FACTORY join_entry t arg)
                (format_of_name key))
           (fun g => g) ∅ name arg (NotCallable false)).

(** The sub-format of [join] is declared as the bare name of another entry.
    A sub-format naming [join] again is followed once; a third level is
    outside the declared types and is not followed. *)
Definition nested_join_factory : JsValue -> render :=
  join_factory_with (fun _ _ => Throw TypeError).

Definition join_factory : JsValue -> render :=
  join_factory_with (formatGenerate_with nested_join_factory).

Definition formatGenerate (info : JsValue) (options : payload)
  : outcome (Held render) :=
  formatGenerate_with join_factory info (JObj options).

(** ** useTable: the value render of a column *)

(** [_options]: a copy of the declared options whose [default] is set. *)
Definition column_options (options : payload) : payload :=
  let _options := spread [] options in
  obj_set "default"
    (nullish_or (prop "default" _options) (JStr DEFAULT_EMPTY_VALUE))
    _options.

(** [_render] of [useColumns] before the truncation wrapper: what
    [formatGenerate] answers, replaced by the empty-value substitute when it
    is falsy and [amend] is set. *)
Definition column_render (options : payload) : outcome (Held render) :=
  let _options := column_options options in
  _render ← formatGenerate (prop "format" _options) _options;
  if negb (held_truthy _render) && truthy (prop "amend" _options) then
    Ret (Callable (fun value _ =>
                     Ret (if isEmpty P value then prop "default" _options
                          else value)))
  else Ret _render.

(** What the column shows for [value], when the table calls the render of
    the column if it is truthy: a column with no render shows the raw
    value. *)
Definition render_value (options : payload) (value record : JsValue)
  : outcome JsValue :=
  _render ← column_render options;
  match as_render _render with
  | Some f => f value record
  | None => Ret value
  end.

(** What counts as an empty input for a format: a falsy value for the two
    date formats, a value that [isEmpty] accepts for the numeric ones. *)
Definition empty_input (t : ReadFormatType) (value : JsValue) : bool :=
  match t with
  | date | datetime => negb (truthy value)
  | _ => isEmpty P value
  end.

End Table.

(** ** useSearch: the mount effect *)

Section Mount.

Variable P : Platform.

(** The effect that runs once after the first render: one call of the
    trigger without arguments when [initRequest] is set.  The promise of the
    call is dropped. *)
Definition useSearch_mount (opts : SearchOptions)
    (fetch : payload -> Settlement) (w : Engine * Browser)
  : Engine * Browser :=
  if initRequest opts then fst (searchRef P opts fetch None None w) else w.

End Mount.

(** ** useTable: text splitting *)

(** The segments of [s] between the occurrences of a separator that is not
    empty, found from the left; [skip] characters of a separator just found
    are still to be passed. *)
Fixpoint split_go (sep : string) (skip : nat) (s : string) : list string :=
  match s with
  | EmptyString => [EmptyString]
  | String c r =>
      match skip with
      | S k => split_go sep k r
      | O =>
          if String.prefix sep s
          then EmptyString :: split_go sep (String.length sep - 1) r
          else match split_go sep 0 r with
               | w :: ws => String c w :: ws
               | [] => [String c EmptyString]
               end
      end
  end.

(** [s.split(sep)] for a text [sep]: the empty separator cuts between all
    characters. *)
Definition split_by (sep s : string) : list string :=
  if String.eqb sep "" then chars s else split_go sep 0 s.

(** [value.split(by)]: only a string has the method; a separator that is
    [undefined] does not cut, any other is used as its text, if it has
    one. *)
Definition String_split (value by_ : JsValue) : outcome (list JsValue) :=
  match value with
  | JStr s =>
      match by_ with
      | JUndefined => Ret [JStr s]
      | _ => if has_no_text by_ then Throw TypeError
             else Ret (map JStr (split_by (ToString by_) s))
      end
  | _ => Throw TypeError
  end.

(** [values[i]] for a number [i]. *)
Definition index_number (i : JsNumber) (values : list JsValue) : JsValue :=
  match i with
  | Fin z => if z <? 0 then JUndefined
             else nth (Z.to_nat z) values JUndefined
  | _ => JUndefined
  end.

(** ** useTable: the truncation registry *)

(** What a cell shows: a value, or a tooltip around a value. *)
Inductive Node : Type :=
| NValue (v : JsValue)
| NTooltip (title child : JsValue).

(** The render of a column: [(value, record, index) => node]. *)
Definition cell_render : Type := JsValue -> JsValue -> Z -> outcome Node.

Definition plain_cell (r : render) : cell_render :=
  fun value record _ => v ← r value record; Ret (NValue v).

Definition DEFAULT_ELLIPSIS_OPTIONS_split : payload :=
  [("by", JStr "/"); ("showIndex", JStr "end")].

(** [prevRender ? prevRender(value, record, index) : value]. *)
Definition previous_output (prevRender : option render)
    (value record : JsValue) : outcome JsValue :=
  match prevRender with
  | Some f => f value record
  | None => Ret value
  end.

Definition ellipsis_default_factory (opt : JsValue)
    (prevRender : option render) : cell_render :=
  fun value record index =>
    _d ← previous_output prevRender value record;
    Ret (NTooltip _d _d).

(** [_d] after the three tests on [showIndex]. *)
Definition split_shown (showIndex : JsValue) (values : list JsValue)
  : JsValue :=
  let d0 := JUndefined in
  let d1 := match showIndex with
            | JStr s => if String.eqb s "start"
                        then nth 0 values JUndefined else d0
            | _ => d0
            end in
  let d2 := match showIndex with
            | JStr s => if String.eqb s "end"
                        then nth (length values - 1) values JUndefined else d1
            | _ => d1
            end in
  match showIndex with
  | JNum i => index_number i values
  | _ => d2
  end.

(** The [split] entry cuts the raw [value], not the output of the previous
    render, and returns nothing when that output is not a string. *)
Definition ellipsis_split_factory (opt : JsValue)
    (prevRender : option render) : cell_render :=
  let _opt := with_defaults DEFAULT_ELLIPSIS_OPTIONS_split opt in
  fun value record index =>
    _v ← previous_output prevRender value record;
    match _v with
    | JStr _ =>
        values ← String_split value (prop "by" _opt);
        Ret (NTooltip value (split_shown (prop "showIndex" _opt) values))
    | _ => Ret (NValue JUndefined)
    end.

(** The own entries of the truncation registry, as the module declares
    them, under a property key. *)
Definition DEFAULT_ELLIPSIS_RENDER_FACTORY (key : string)
  : option (JsValue -> Held render -> cell_render) :=
  if String.eqb key "default"
  then Some (fun opt prevRender =>
               ellipsis_default_factory opt (as_render prevRender))
  else if String.eqb key "split"
  then Some (fun opt prevRender =>
               ellipsis_split_factory opt (as_render prevRender))
  else None.

(** [_type], and the options of the column as [ellipsisRender] leaves them:
    it replaces [ellipsis: true] by [{showTitle: false}]. *)
Definition ellipsis_type (options : payload)
  : (JsValue * JsValue) * payload :=
  let e := prop "ellipsis" options in
  match e with
  | JBool true =>
      ((JStr "default", JNull),
       obj_set "ellipsis" (JObj [("showTitle", JBool false)]) options)
  | JStr _ => ((e, JNull), options)
  | _ => ((prop "0" (own_props e), prop "1" (own_props e)), options)
  end.

(** [ellipsisRender] on a registry with the redefined entries [acc]: the
    options of the column as the function leaves them, what the call
    [DEFAULT_ELLIPSIS_RENDER_FACTORY[_type[0]](_type[1], prevRender)]
    answers, and the redefined entries after it. *)
Definition ellipsisRender_in (acc : Redefined) (options : payload)
    (prevRender : Held render)
  : outcome (payload * Held cell_render) * Redefined :=
  let '(_type, options') := ellipsis_type options in
  let '(answer, acc') :=
    registry_call DEFAULT_ELLIPSIS_RENDER_FACTORY plain_cell acc
      (fst _type) (snd _type) prevRender in
  (r ← answer; Ret (options', r), acc').

(** [ellipsisRender] on the registry as the module declares it. *)
Definition ellipsisRender (options : payload) (prevRender : Held render)
  : outcome (payload * Held cell_render) :=
  fst (ellipsisRender_in ∅ options prevRender).

(** ** useTable: the columns *)

(** A column descriptor: its properties that are values, and its [render]
    property when it is truthy.  A render that is not a function is kept as
    what calling it does. *)
Record ColumnDesc : Type := mkColumnDesc {
  col_props : payload;
  col_render : option cell_render
}.

Definition RESET_LOCAL_OPTIONS : payload :=
  [("format", JUndefined); ("amend", JUndefined); ("default", JUndefined);
   ("group", JUndefined)].

(** [groupCheck]; the active group is [None] when [useColumns] is given
    none.  A setting of another kind falls through the function, which then
    answers [undefined]. *)
Definition groupCheck (setting : JsValue) (target : option string) : bool :=
  if negb (truthy setting) then true
  else
    match setting with
    | JStr s =>
        match target with
        | Some t => String.eqb s t
        | None => false
        end
    | JArr l =>
        existsb (fun x => match x, target with
                          | JStr s, Some t => String.eqb s t
                          | JUndefined, None => true
                          | _, _ => false
                          end) l
    | _ => false
    end.

(** What the decorator [Column(title, options)] records for the field
    [key]: [{ title, dataIndex: key, ...options }]. *)
Definition Column (title : string) (options : option payload) (key : string)
    (metadata : gmap string payload) : gmap string payload :=
  <[key := spread [("title", JStr title); ("dataIndex", JStr key)]
                  (default [] options)]> metadata.

(** A declared class, as [useColumns] sees it: the own keys of an instance,
    in order, and the metadata of its fields. *)
Record DeclaredClass : Type := mkDeclaredClass {
  class_keys : list string;
  class_metadata : gmap string payload
}.

Section Columns.

Variable P : Platform.

(** The title of the index column and the label of the total are texts
    outside the characters of the model; they are parameters. *)
Variable INDEX_TITLE : JsValue.
Variable showTotal_label : JsValue -> JsValue.

(** The [render] property of a descriptor. *)
Definition held_cell (h : Held cell_render) : option cell_render :=
  match h with
  | Callable f => Some f
  | NotCallable true => Some (fun _ _ _ => Throw TypeError)
  | NotCallable false => None
  end.

(** The body of the loop of [useColumns] for a field that passed the group
    check, on a truncation registry with the redefined entries [acc]: the
    descriptors it pushes, and the redefined entries after it. *)
Definition resolve_field_in (acc : Redefined) (options : payload)
    (extend_k mount_k : option ColumnDesc)
  : outcome (list ColumnDesc) * Redefined :=
  let _options := column_options options in
  match column_render P options with
  | Throw e => (Throw e, acc)
  | Ret _render =>
      let '(wrapped, acc') :=
        if truthy (prop "ellipsis" _options)
        then let '(answer, acc') := ellipsisRender_in acc _options _render in
             ('(o, r) ← answer; Ret (o, held_cell r), acc')
        else (Ret (_options, option_map plain_cell (as_render _render)), acc)
      in
      ('(_options', render') ← wrapped;
       let resolved := spread (spread [] _options') RESET_LOCAL_OPTIONS in
       let column :=
         match extend_k with
         | Some e =>
             {| col_props := spread resolved (col_props e);
                col_render := match col_render e with
                              | Some f => Some f
                              | None => render'
                              end |}
         | None => {| col_props := resolved; col_render := render' |}
         end in
       Ret (column :: match mount_k with
                      | Some m => [m]
                      | None => []
                      end), acc')
  end.

(** The same on the registry as the module declares it. *)
Definition resolve_field (options : payload)
    (extend_k mount_k : option ColumnDesc) : outcome (list ColumnDesc) :=
  fst (resolve_field_in ∅ options extend_k mount_k).

(** The loop over the keys of the instance, pushing to [result]; an
    exception ends it. *)
Fixpoint resolve_fields (acc : Redefined) (metadata : gmap string payload)
    (extend mount : gmap string ColumnDesc) (group : option string)
    (keys : list string) (result : list ColumnDesc)
  : outcome (list ColumnDesc) * Redefined :=
  match keys with
  | [] => (Ret result, acc)
  | k :: keys' =>
      match metadata !! k with
      | Some options =>
          if groupCheck (prop "group" options) group then
            match resolve_field_in acc options (extend !! k) (mount !! k) with
            | (Ret pushed, acc') =>
                resolve_fields acc' metadata extend mount group keys'
                  (result ++ pushed)%list
            | (Throw e, acc') => (Throw e, acc')
            end
          else resolve_fields acc metadata extend mount group keys' result
      | None => resolve_fields acc metadata extend mount group keys' result
      end
  end.

Definition index_column : ColumnDesc :=
  {| col_props := [("title", INDEX_TITLE); ("key", JStr "index");
                   ("width", JInt 50)];
     col_render :=
       Some (fun value record index => Ret (NValue (JInt (index + 1)))) |}.

(** [useColumns] on a truncation registry with the redefined entries
    [acc]. *)
Definition useColumns_from (acc : Redefined) (Clz : option DeclaredClass)
    (additional : option (list ColumnDesc))
    (extend : gmap string ColumnDesc) (group : option string)
    (mount : gmap string ColumnDesc) (withIndex : bool)
  : outcome (list ColumnDesc) * Redefined :=
  let '(resolved, acc') :=
    match Clz with
    | Some c =>
        resolve_fields acc (class_metadata c) extend mount group
          (class_keys c) []
    | None => (Ret [], acc)
    end in
  (result ← resolved;
   let result1 := if withIndex then index_column :: result else result in
   Ret (result1 ++ default [] additional)%list, acc').

(** [useColumns] on the registry as the module declares it. *)
Definition useColumns (Clz : option DeclaredClass)
    (additional : option (list ColumnDesc))
    (extend : gmap string ColumnDesc) (group : option string)
    (mount : gmap string ColumnDesc) (withIndex : bool)
  : outcome (list ColumnDesc) :=
  fst (useColumns_from ∅ Clz additional extend group mount withIndex).

(** The [pagination] property of the table. *)
Record PaginationProps : Type := mkPaginationProps {
  showSizeChanger : bool;
  current : JsValue;
  total : JsValue;
  pagePageSize : JsValue;
  pageSizeOptions : list string;
  showTotal : JsValue -> JsValue;
  onChange : Z -> Z -> (Engine * Browser) -> (Engine * Browser) * Settlement
}.

Record TableProps : Type := mkTableProps {
  resizable : bool;
  dataSource : JsValue;
  columns : list ColumnDesc;
  rowKey : JsValue;
  table_loading : JsValue;
  pagination : option PaginationProps
}.

(** [useTable]; [search] is the trigger of [useSearch], when one is given:
    a change of page or of size calls it with [null] for the query payload. *)
Definition useTable (pageData : payload)
    (columns : option (list ColumnDesc)) (Clz : option DeclaredClass)
    (extend : gmap string ColumnDesc) (rowKey loading : JsValue)
    (search : option (option payload -> option PageQuery ->
                      (Engine * Browser) -> (Engine * Browser) * Settlement))
    (group : option string) (mount : gmap string ColumnDesc)
    (withIndex : bool) : outcome TableProps :=
  columnsOptions ← useColumns Clz columns extend group mount withIndex;
  Ret {| resizable := true;
         dataSource := prop "list" pageData;
         columns := columnsOptions;
         rowKey := rowKey;
         table_loading := loading;
         pagination :=
           match search with
           | Some trigger =>
               Some {| showSizeChanger := true;
                       current := prop "page" pageData;
                       total := prop "total" pageData;
                       pagePageSize := prop "pageSize" pageData;
                       pageSizeOptions := ["30"; "50"; "100"];
                       showTotal := showTotal_label;
                       onChange := fun page size =>
                         trigger None
                           (Some {| page := page; pageSize := size |}) |}
           | None => None
           end |}.

End Columns.

(** * A reference platform

    Executable models of the built-ins, on the values of the model: strings
    whose characters are single code units below 256, integer numbers.
    Where a built-in would leave these values it is noted at its
    definition. *)

Module Ecma.

Definition code (c : ascii) : N := N_of_ascii c.
Definition char (n : N) : ascii := ascii_of_N n.

Definition in_range (lo hi : ascii) (c : ascii) : bool :=
  ((code lo <=? code c) && (code c <=? code hi))%N.

Definition is_digit (c : ascii) : bool := in_range "0" "9" c.
Definition is_upper (c : ascii) : bool := in_range "A" "Z" c.
Definition is_lower (c : ascii) : bool := in_range "a" "z" c.

(** ** Base64: [btoa] and [atob] *)

(** The character of a sextet. *)
Definition b64_char (n : N) : ascii :=
  if (n <? 26)%N then char (n + 65)
  else if (n <? 52)%N then char (n + 71)
  else if (n <? 62)%N then char (n - 4)
  else if (n =? 62)%N then "+"%char
  else "/"%char.

(** The sextet of a character of the alphabet. *)
Definition b64_val (c : ascii) : option N :=
  if is_upper c then Some (code c - 65)%N
  else if is_lower c then Some (code c - 71)%N
  else if is_digit c then Some (code c + 4)%N
  else if Ascii.eqb c "+" then Some 62%N
  else if Ascii.eqb c "/" then Some 63%N
  else None.

(** Three bytes are four sextets; a last group of two bytes is three
    sextets and of one byte is two, the missing bits being zero. *)
Fixpoint b64_sextets (s : string) : list N :=
  match s with
  | String a (String b (String c rest)) =>
      let n := (code a * 65536 + code b * 256 + code c)%N in
      (n / 262144 :: (n / 4096) mod 64 :: (n / 64) mod 64 :: n mod 64
         :: b64_sextets rest)%N
  | String a (String b EmptyString) =>
      let n := (code a * 65536 + code b * 256)%N in
      [n / 262144; (n / 4096) mod 64; (n / 64) mod 64]%N
  | String a EmptyString =>
      let n := (code a * 65536)%N in
      [n / 262144; (n / 4096) mod 64]%N
  | EmptyString => []
  end.

Definition b64_padding (s : string) : string :=
  match (String.length s mod 3)%nat with
  | 1%nat => "=="
  | 2%nat => "="
  | _ => ""
  end.

Definition btoa (s : string) : string :=
  string_of_list_ascii (map b64_char (b64_sextets s)) +:+ b64_padding s.

Definition is_ascii_whitespace (c : ascii) : bool :=
  (code c =? 9)%N || (code c =? 10)%N || (code c =? 12)%N
  || (code c =? 13)%N || (code c =? 32)%N.

(** At most two trailing [=] of a string whose length is a multiple of 4
    are dropped. *)
Definition strip_padding (l : list ascii) : list ascii :=
  if Nat.eqb (length l mod 4) 0 then
    match rev l with
    | c1 :: l1 =>
        if Ascii.eqb c1 "=" then
          match l1 with
          | c2 :: l2 => if Ascii.eqb c2 "=" then rev l2 else rev l1
          | [] => rev l1
          end
        else l
    | [] => l
    end
  else l.

Fixpoint b64_bytes (l : list N) : option (list ascii) :=
  match l with
  | s1 :: s2 :: s3 :: s4 :: rest =>
      let n := (s1 * 262144 + s2 * 4096 + s3 * 64 + s4)%N in
      tl ← b64_bytes rest;
      Some (char (n / 65536) :: char ((n / 256) mod 256) :: char (n mod 256)
              :: tl)
  | [s1; s2; s3] =>
      let n := (s1 * 262144 + s2 * 4096 + s3 * 64)%N in
      Some [char (n / 65536); char ((n / 256) mod 256)]
  | [s1; s2] =>
      let n := (s1 * 262144 + s2 * 4096)%N in
      Some [char (n / 65536)]
  | [_] => None
  | [] => Some []
  end.

(** The forgiving base64 decoding of the HTML standard. *)
Definition atob (s : string) : outcome string :=
  let l := List.filter (fun c => negb (is_ascii_whitespace c))
                       (list_ascii_of_string s) in
  let l := strip_padding l in
  match mapM b64_val l ≫= b64_bytes with
  | Some bytes => Ret (string_of_list_ascii bytes)
  | None => Throw InvalidCharacterError
  end.

(** ** URI coding *)

Definition hex_digit (n : N) : ascii :=
  if (n <? 10)%N then char (n + 48) else char (n + 55).

Definition hex_val (c : ascii) : option N :=
  if is_digit c then Some (code c - 48)%N
  else if in_range "A" "F" c then Some (code c - 55)%N
  else if in_range "a" "f" c then Some (code c - 87)%N
  else None.

Definition percent (n : N) (rest : string) : string :=
  String "%" (String (hex_digit (n / 16)) (String (hex_digit (n mod 16)) rest)).

(** The characters [encodeURIComponent] leaves as they are. *)
Definition uri_unreserved (c : ascii) : bool :=
  is_upper c || is_lower c || is_digit c
  || existsb (Ascii.eqb c) (list_ascii_of_string "-_.!~*'()").

(** Every other character is written as the escaped bytes of its UTF-8
    form: one byte below 128, two bytes from 128 to 255. *)
Fixpoint encodeURIComponent (s : string) : string :=
  match s with
  | EmptyString => EmptyString
  | String c rest =>
      let n := code c in
      if uri_unreserved c then String c (encodeURIComponent rest)
      else if (n <? 128)%N then percent n (encodeURIComponent rest)
      else percent (192 + n / 64) (percent (128 + n mod 64)
                                            (encodeURIComponent rest))
  end.

(** An escape [%XX]; a byte of 128 or more starts a UTF-8 sequence whose
    continuation bytes must follow, escaped.  Sequences for characters
    above 255 have no value in the model and are refused like the
    malformed ones. *)
Fixpoint decodeURIComponent (s : string) : outcome string :=
  match s with
  | EmptyString => Ret EmptyString
  | String c rest =>
      if Ascii.eqb c "%" then
        match rest with
        | String h1 (String h2 rest2) =>
            match hex_val h1, hex_val h2 with
            | Some a, Some b =>
                let n := (a * 16 + b)%N in
                if (n <? 128)%N then
                  tl ← decodeURIComponent rest2; Ret (String (char n) tl)
                else if ((194 <=? n) && (n <=? 195))%N then
                  match rest2 with
                  | String p (String h3 (String h4 rest4)) =>
                      match hex_val h3, hex_val h4 with
                      | Some a', Some b' =>
                          let m := (a' * 16 + b')%N in
                          if Ascii.eqb p "%" && (128 <=? m)%N && (m <? 192)%N
                          then
                            tl ← decodeURIComponent rest4;
                            Ret (String (char ((n - 192) * 64 + (m - 128))) tl)
                          else Throw URIError
                      | _, _ => Throw URIError
                      end
                  | _ => Throw URIError
                  end
                else Throw URIError
            | _, _ => Throw URIError
            end
        | _ => Throw URIError
        end
      else tl ← decodeURIComponent rest; Ret (String c tl)
  end.

(** ** JSON *)

(** The quotation mark, code 34. *)
Definition dquote : ascii :=
  Ascii false true false false false true false false.

Definition json_escape (c : ascii) (rest : string) : string :=
  let n := code c in
  if Ascii.eqb c dquote then String "\" (String dquote rest)
  else if Ascii.eqb c "\" then String "\" (String "\" rest)
  else if (n =? 8)%N then String "\" (String "b" rest)
  else if (n =? 9)%N then String "\" (String "t" rest)
  else if (n =? 10)%N then String "\" (String "n" rest)
  else if (n =? 12)%N then String "\" (String "f" rest)
  else if (n =? 13)%N then String "\" (String "r" rest)
  else if (n <? 32)%N then
    String "\" (String "u" (String "0" (String "0"
      (String (if (n <? 16)%N then "0" else "1")%char
         (String (if (n mod 16 <? 10)%N then char (n mod 16 + 48)
                  else char (n mod 16 + 87)) rest)))))
  else String c rest.

Fixpoint json_quote_body (s : string) : string :=
  match s with
  | EmptyString => EmptyString
  | String c rest => json_escape c (json_quote_body rest)
  end.

Definition json_quote (s : string) : string :=
  String dquote (json_quote_body s +:+ String dquote EmptyString).

(** Values that have no JSON text: a property holding one is left out, an
    array element holding one is written [null]. *)
Definition json_omitted (v : JsValue) : bool :=
  match v with
  | JUndefined | JEnum _ => true
  | _ => false
  end.

Fixpoint json_value (v : JsValue) : string :=
  match v with
  | JUndefined | JEnum _ | JNull => "null"
  | JBool true => "true"
  | JBool false => "false"
  | JNum (Fin z) => pretty z
  | JNum _ => "null"
  | JStr s => json_quote s
  | JArr l =>
      "[" +:+
      (fix elements (l : list JsValue) : string :=
         match l with
         | [] => ""
         | x :: l' =>
             json_value x +:+
             match l' with
             | [] => ""
             | _ => "," +:+ elements l'
             end
         end) l +:+ "]"
  | JObj o =>
      "{" +:+
      (fix members (first : bool) (o : payload) : string :=
         match o with
         | [] => ""
         | (k, x) :: o' =>
             if json_omitted x then members first o'
             else (if first then "" else ",") +:+ json_quote k +:+ ":"
                  +:+ json_value x +:+ members false o'
         end) true o +:+ "}"
  end.

(** [JSON.stringify(v)]; for a value without JSON text the answer is
    [undefined], which the callers of the model would print as such. *)
Definition JSON_stringify (v : JsValue) : string :=
  if json_omitted v then "undefined" else json_value v.

Definition is_json_ws (c : ascii) : bool :=
  (code c =? 32)%N || (code c =? 9)%N || (code c =? 10)%N || (code c =? 13)%N.

Fixpoint skip_ws (s : string) : string :=
  match s with
  | String c rest => if is_json_ws c then skip_ws rest else s
  | EmptyString => EmptyString
  end.

Fixpoint strip_prefix (p s : string) : option string :=
  match p with
  | EmptyString => Some s
  | String a p' =>
      match s with
      | String b s' => if Ascii.eqb a b then strip_prefix p' s' else None
      | EmptyString => None
      end
  end.

Fixpoint parse_digits (acc : N) (s : string) : N * string :=
  match s with
  | String c rest =>
      if is_digit c then parse_digits (acc * 10 + (code c - 48))%N rest
      else (acc, s)
  | EmptyString => (acc, EmptyString)
  end.

Definition starts_with (p : ascii -> bool) (s : string) : bool :=
  match s with
  | String c _ => p c
  | EmptyString => false
  end.

Definition signed (neg : bool) (n : N) : Z :=
  if neg then - Z.of_N n else Z.of_N n.

(** The digits of a JSON number.  A numeral with a fraction or an exponent
    has no value among the integers of the model and is refused. *)
Definition parse_unsigned (neg : bool) (s : string)
  : option (JsNumber * string) :=
  match s with
  | String c rest =>
      if is_digit c then
        let '(n, rest') :=
          if Ascii.eqb c "0" then (0%N, rest) else parse_digits 0 s in
        if starts_with (fun d => is_digit d || Ascii.eqb d "." || Ascii.eqb d "e"
                                 || Ascii.eqb d "E") rest'
        then None
        else Some (Fin (signed neg n), rest')
      else None
  | EmptyString => None
  end.

Definition parse_number (s : string) : option (JsNumber * string) :=
  match s with
  | String c rest =>
      if Ascii.eqb c "-" then parse_unsigned true rest
      else parse_unsigned false s
  | EmptyString => None
  end.

Definition simple_escape (e : ascii) : option ascii :=
  if Ascii.eqb e dquote then Some dquote
  else if Ascii.eqb e "\" then Some "\"%char
  else if Ascii.eqb e "/" then Some "/"%char
  else if Ascii.eqb e "b" then Some (char 8)
  else if Ascii.eqb e "f" then Some (char 12)
  else if Ascii.eqb e "n" then Some (char 10)
  else if Ascii.eqb e "r" then Some (char 13)
  else if Ascii.eqb e "t" then Some (char 9)
  else None.

(** The rest of a string literal after its opening quotation mark.  An
    escape [\uXXXX] above 255 has no value in the model and is refused. *)
Fixpoint parse_string_body (s : string) : option (string * string) :=
  match s with
  | EmptyString => None
  | String c r =>
      if Ascii.eqb c dquote then Some (EmptyString, r)
      else if Ascii.eqb c "\" then
        match r with
        | String e r' =>
            if Ascii.eqb e "u" then
              match r' with
              | String h1 (String h2 (String h3 (String h4 r''))) =>
                  match hex_val h1, hex_val h2, hex_val h3, hex_val h4 with
                  | Some a, Some b, Some c', Some d =>
                      let n := (a * 4096 + b * 256 + c' * 16 + d)%N in
                      if (n <? 256)%N then
                        '(t, rest) ← parse_string_body r'';
                        Some (String (char n) t, rest)
                      else None
                  | _, _, _, _ => None
                  end
              | _ => None
              end
            else
              ch ← simple_escape e;
              '(t, rest) ← parse_string_body r';
              Some (String ch t, rest)
        | EmptyString => None
        end
      else if (code c <? 32)%N then None
      else '(t, rest) ← parse_string_body r; Some (String c t, rest)
  end.

(** The next character after white space must be [c]. *)
Definition expect (c : ascii) (s : string) : option string :=
  match skip_ws s with
  | String c' rest => if Ascii.eqb c' c then Some rest else None
  | EmptyString => None
  end.

(** Recursive descent; [fuel] bounds the number of nested calls.  A member
    whose name is already defined replaces the value in place. *)
Fixpoint parse_value (fuel : nat) (s : string) : option (JsValue * string) :=
  match fuel with
  | O => None
  | S fuel' =>
      match skip_ws s with
      | EmptyString => None
      | String c r =>
          if Ascii.eqb c "{" then
            match expect "}" r with
            | Some rest => Some (JObj [], rest)
            | None => '(o, rest) ← parse_members fuel' [] r; Some (JObj o, rest)
            end
          else if Ascii.eqb c "[" then
            match expect "]" r with
            | Some rest => Some (JArr [], rest)
            | None => '(l, rest) ← parse_elements fuel' r; Some (JArr l, rest)
            end
          else if Ascii.eqb c dquote then
            '(t, rest) ← parse_string_body r; Some (JStr t, rest)
          else if Ascii.eqb c "t" then
            rest ← strip_prefix "rue" r; Some (JBool true, rest)
          else if Ascii.eqb c "f" then
            rest ← strip_prefix "alse" r; Some (JBool false, rest)
          else if Ascii.eqb c "n" then
            rest ← strip_prefix "ull" r; Some (JNull, rest)
          else '(n, rest) ← parse_number (String c r); Some (JNum n, rest)
      end
  end
with parse_elements (fuel : nat) (s : string)
  : option (list JsValue * string) :=
  match fuel with
  | O => None
  | S fuel' =>
      '(v, rest) ← parse_value fuel' s;
      match expect "," rest with
      | Some rest' =>
          '(l, rest'') ← parse_elements fuel' rest'; Some (v :: l, rest'')
      | None => rest' ← expect "]" rest; Some ([v], rest')
      end
  end
with parse_members (fuel : nat) (acc : payload) (s : string)
  : option (payload * string) :=
  match fuel with
  | O => None
  | S fuel' =>
      r ← expect dquote s;
      '(k, rest) ← parse_string_body r;
      rest1 ← expect ":" rest;
      '(v, rest2) ← parse_value fuel' rest1;
      let acc' := obj_set k v acc in
      match expect "," rest2 with
      | Some rest3 => parse_members fuel' acc' rest3
      | None => rest3 ← expect "}" rest2; Some (acc', rest3)
      end
  end.

Definition JSON_parse (s : string) : outcome JsValue :=
  match parse_value (S (String.length s)) s with
  | Some (v, rest) =>
      match skip_ws rest with
      | EmptyString => Ret v
      | _ => Throw SyntaxError
      end
  | None => Throw SyntaxError
  end.

(** ** qs *)

(** The [key=value] pairs that [qs] writes for a value under a key, with
    the options of the source ([encode: false], indices for arrays):
    [undefined] writes nothing, [null] an empty value. *)
Fixpoint qs_pairs (prefix : string) (v : JsValue) : list string :=
  match v with
  | JUndefined | JEnum _ => []
  | JNull => [prefix +:+ "="]
  | JBool _ | JNum _ | JStr _ => [prefix +:+ "=" +:+ ToString v]
  | JArr l =>
      (fix items (i : nat) (l : list JsValue) : list string :=
         match l with
         | [] => []
         | x :: l' =>
             (qs_pairs (prefix +:+ "[" +:+ pretty i +:+ "]") x
                ++ items (S i) l')%list
         end) O l
  | JObj o =>
      (fix fields (o : payload) : list string :=
         match o with
         | [] => []
         | (k, x) :: o' =>
             (qs_pairs (prefix +:+ "[" +:+ k +:+ "]") x ++ fields o')%list
         end) o
  end.

Definition qs_stringify (o : payload) : string :=
  String.concat "&" (flat_map (fun kv => qs_pairs (fst kv) (snd kv)) o).

(** [s] cut at every [sep]. *)
Fixpoint split_on (sep : ascii) (s : string) : list string :=
  match s with
  | EmptyString => [EmptyString]
  | String c rest =>
      if Ascii.eqb c sep then EmptyString :: split_on sep rest
      else match split_on sep rest with
           | [] => [String c EmptyString]
           | w :: ws => String c w :: ws
           end
  end.

(** [s] cut at its first [sep], if it has one. *)
Fixpoint cut_at (sep : ascii) (s : string) : option (string * string) :=
  match s with
  | EmptyString => None
  | String c rest =>
      if Ascii.eqb c sep then Some (EmptyString, rest)
      else '(a, b) ← cut_at sep rest; Some (String c a, b)
  end.

Fixpoint plus_to_space (s : string) : string :=
  match s with
  | EmptyString => EmptyString
  | String c rest =>
      String (if Ascii.eqb c "+" then " "%char else c) (plus_to_space rest)
  end.

(** The decoder of [qs]: a text that does not decode is kept. *)
Definition qs_decode (s : string) : string :=
  let s' := plus_to_space s in
  match decodeURIComponent s' with
  | Ret t => t
  | Throw _ => s'
  end.

(** A repeated key collects its values in an array. *)
Definition qs_combine (old new : JsValue) : JsValue :=
  match old with
  | JArr l => JArr (l ++ [new])
  | _ => JArr [old; new]
  end.

(** [qs.parse] on flat keys; a bracketed key, which [qs] would unfold into
    nested objects, is kept as it is written. *)
Definition qs_parse (s : string) : JsValue :=
  JObj (fold_left
          (fun obj part =>
             if String.eqb part "" then obj
             else
               let '(k, v) :=
                 match cut_at "=" part with
                 | Some (a, b) => (qs_decode a, JStr (qs_decode b))
                 | None => (qs_decode part, JStr "")
                 end in
               match obj_get k obj with
               | Some old => obj_set k (qs_combine old v) obj
               | None => obj_set k v obj
               end)
          (split_on "&" s) []).

(** ** Numbers *)

(** The white space that the number parsers skip. *)
Definition is_str_ws (c : ascii) : bool :=
  let n := code c in
  ((9 <=? n) && (n <=? 13))%N || (n =? 32)%N || (n =? 160)%N.

Fixpoint trim_start (s : string) : string :=
  match s with
  | String c rest => if is_str_ws c then trim_start rest else s
  | EmptyString => EmptyString
  end.

Definition take_sign (s : string) : bool * string :=
  match s with
  | String "-" rest => (true, rest)
  | String "+" rest => (false, rest)
  | _ => (false, s)
  end.

(** [parseFloat]: the longest numeral at the start of the text, [NaN] when
    there is none.  Only the integer part of a numeral has a value in the
    model. *)
Definition parseFloat (v : JsValue) : JsNumber :=
  let '(neg, s) := take_sign (trim_start (ToString v)) in
  match strip_prefix "Infinity" s with
  | Some _ => Infinity neg
  | None =>
      if starts_with is_digit s then Fin (signed neg (fst (parse_digits 0 s)))
      else NaN
  end.

(** [ToNumber], text being read as a decimal integer. *)
Definition ToNumber (v : JsValue) : JsNumber :=
  match v with
  | JUndefined => NaN
  | JNull => Fin 0
  | JBool b => Fin (if b then 1 else 0)
  | JNum n => n
  | _ =>
      let '(neg, s) := take_sign (trim_start (ToString v)) in
      match s with
      | EmptyString => Fin 0
      | _ =>
          match parse_digits 0 s with
          | (n, EmptyString) =>
              if starts_with is_digit s then Fin (signed neg n) else NaN
          | _ => NaN
          end
      end
  end.

Definition ToInt32 (n : JsNumber) : Z :=
  match n with
  | Fin z => (z + 2147483648) mod 4294967296 - 2147483648
  | _ => 0
  end.

(** The value of a digit in a radix up to 36. *)
Definition digit_val (c : ascii) : option N :=
  if is_digit c then Some (code c - 48)%N
  else if is_upper c then Some (code c - 55)%N
  else if is_lower c then Some (code c - 87)%N
  else None.

Fixpoint parse_radix (radix : N) (acc : option N) (s : string) : option N :=
  match s with
  | String c rest =>
      match digit_val c with
      | Some d =>
          if (d <? radix)%N
          then parse_radix radix (Some (default 0 acc * radix + d))%N rest
          else acc
      | None => acc
      end
  | EmptyString => acc
  end.

Definition parseInt (v radix : JsValue) : JsNumber :=
  let '(neg, s) := take_sign (trim_start (ToString v)) in
  let r := ToInt32 (ToNumber radix) in
  if negb (r =? 0) && ((r <? 2) || (36 <? r)) then NaN
  else
    let hex := match s with
               | String "0" (String x rest) =>
                   if Ascii.eqb x "x" || Ascii.eqb x "X" then Some rest
                   else None
               | _ => None
               end in
    let '(r', s') :=
      match hex with
      | Some rest => if (r =? 0) || (r =? 16) then (16, rest) else (r, s)
      | None => (if r =? 0 then 10 else r, s)
      end in
    match parse_radix (Z.to_N r') None s' with
    | Some n => Fin (signed neg n)
    | None => NaN
    end.

(** [n.toFixed(digits)]. *)
Definition toFixed (n : JsNumber) (digits : JsValue) : outcome string :=
  match (match ToNumber digits with NaN => Some 0 | Fin f => Some f
                                  | Infinity _ => None end) with
  | Some f =>
      if (f <? 0) || (100 <? f) then Throw RangeError
      else
        match n with
        | Fin z =>
            Ret (pretty z +:+
                 (if f =? 0 then ""
                  else String "." (string_of_list_ascii
                                     (repeat "0"%char (Z.to_nat f)))))
        | _ => Ret (Number_toString n)
        end
  | None => Throw RangeError
  end.

(** ** The toolkit and the other imports *)

(** Modelled from the spec: [isEmpty] of the toolkit is not part of the
    sources; the spec calls the values it accepts the non-useful ones. *)
Definition isEmpty (v : JsValue) : bool := negb (isUsefulValue v).

(** The digits of a number, in groups of three. *)
Fixpoint group3 (digits : list ascii) : list ascii :=
  match digits with
  | a :: b :: c :: ((_ :: _) as rest) => a :: b :: c :: ","%char :: group3 rest
  | _ => digits
  end.

(** Modelled from the spec: [renderPrice] of the toolkit is not part of the
    sources; the spec describes a thousands-grouped text with two decimals
    and counts a value that is not a number as a parse failure. *)
Definition renderPrice (v : JsValue) : outcome JsValue :=
  match ToNumber v with
  | Fin z =>
      Ret (JStr ((if z <? 0 then "-" else "") +:+
                 string_of_list_ascii
                   (rev (group3 (rev (list_ascii_of_string
                                        (pretty (Z.abs z))))))
                 +:+ ".00"))
  | _ => Throw TypeError
  end.

(** Dates and enum classes are not modelled: what [moment] and an enum
    answer is kept as a term over the arguments. *)
Definition moment_format (v pattern : JsValue) : JsValue :=
  JStr ("moment(" +:+ ToString v +:+ ").format(" +:+ ToString pattern +:+ ")").

Definition enum_valueOf_name (tag : string) (v : JsValue) : outcome JsValue :=
  Ret (JStr (tag +:+ ".valueOf(" +:+ ToString v +:+ ").name")).

(** ** Notions for the round trips *)

(** The alphabet of base64. *)
Definition b64_alphabet (c : ascii) : bool :=
  is_upper c || is_lower c || is_digit c || Ascii.eqb c "+" || Ascii.eqb c "/".

(** What may follow a number: not a digit, and none of the characters that
    would continue the numeral. *)
Definition number_end (rest : string) : bool :=
  negb (starts_with (fun d => is_digit d || Ascii.eqb d "." || Ascii.eqb d "e"
                              || Ascii.eqb d "E") rest).

(** The two loops of [json_value], by name. *)
Fixpoint json_elements (l : list JsValue) : string :=
  match l with
  | [] => ""
  | x :: l' =>
      json_value x +:+
      match l' with
      | [] => ""
      | _ => "," +:+ json_elements l'
      end
  end.

Fixpoint json_members (first : bool) (o : payload) : string :=
  match o with
  | [] => ""
  | (k, x) :: o' =>
      if json_omitted x then json_members first o'
      else (if first then "" else ",") +:+ json_quote k +:+ ":"
           +:+ json_value x +:+ json_members false o'
  end.

(** The characters a JSON text may start with. *)
Definition value_start (c : ascii) : bool :=
  Ascii.eqb c "{" || Ascii.eqb c "[" || Ascii.eqb c dquote || Ascii.eqb c "t"
  || Ascii.eqb c "f" || Ascii.eqb c "n" || Ascii.eqb c "-" || is_digit c.

(** The parser reads the text of [v] back to [v] and stops after it, given
    fuel for the length of the text. *)
Definition parse_ok (v : JsValue) : Prop :=
  json_safe v = true ->
  forall fuel rest,
    (String.length (json_value v) <= fuel)%nat ->
    number_end rest = true ->
    parse_value fuel (json_value v +:+ rest) = Some (v, rest).

End Ecma.

(** The reference platform.  [new PageQuery()] is taken to be the first
    page of thirty rows. *)
Definition ecma : Platform :=
  {| JSON_stringify := Ecma.JSON_stringify;
     JSON_parse := Ecma.JSON_parse;
     encodeURIComponent := Ecma.encodeURIComponent;
     decodeURIComponent := Ecma.decodeURIComponent;
     btoa := Ecma.btoa;
     atob := Ecma.atob;
     qs_stringify := Ecma.qs_stringify;
     qs_parse := Ecma.qs_parse;
     parseFloat := Ecma.parseFloat;
     parseInt := Ecma.parseInt;
     toFixed := Ecma.toFixed;
     moment_format := Ecma.moment_format;
     enum_valueOf_name := Ecma.enum_valueOf_name;
     isEmpty := Ecma.isEmpty;
     renderPrice := Ecma.renderPrice;
     newPageQuery := {| page := 1; pageSize := 30 |} |}.

(** ** Example inputs *)

(** A page whose declared initial payload, cache entry and link parameter
    disagree on the three keys. *)
Definition demo_declared : payload :=
  [("a", JStr "declared"); ("b", JStr "declared"); ("c", JStr "declared")].
Definition demo_cached : payload :=
  [("b", JStr "cached"); ("c", JStr "cached")].
Definition demo_linked : payload := [("c", JStr "linked")].

Definition demo_options : SearchOptions :=
  {| initialSearchData := Some demo_declared;
     initialPagination := None;
     staticSearchData := None;
     initRequest := true;
     sync := SyncUrl;
     cache := CacheBool true;
     storageFormat := base64 |}.

Definition demo_browser : Browser :=
  setCache (CacheBool true) (encodeQueryData ecma (Some demo_cached) base64)
    (setToUrl ecma (encodeQueryData ecma (Some demo_linked) base64)
       {| pathname := "/list"; search_q := None; sessionStorage := ∅ |}).

(** A query with text, numbers, a list and a nested object. *)
Definition demo_query : payload :=
  [("name", JStr "a b/c");
   ("ids", JArr [JInt 1; JInt (-20)]);
   ("range", JObj [("from", JInt 0); ("open", JBool false)]);
   ("tag", JArr [JNull])].

(** A form with two blank fields, and an engine that holds it. *)
Definition demo_form : payload :=
  [("name", JStr "a b/c"); ("code", JStr ""); ("ids", JArr [JInt 1; JInt 2]);
   ("owner", JNull)].

(** A form as a link can give it: one entry is named [__proto__]. *)
Definition demo_proto_form : payload :=
  [("name", JStr "a b/c"); ("__proto__", JObj [("admin", JBool true)]);
   ("code", JStr "")].

Definition demo_engine : Engine :=
  {| loading := false;
     pageData := JNull;
     searchDataRef := demo_form;
     paginationRef := {| page := 2; pageSize := 30 |};
     storageRef := "" |}.

(** Options with a static payload that names the page, and no storage. *)
Definition demo_static_options : SearchOptions :=
  {| initialSearchData := None;
     initialPagination := None;
     staticSearchData := Some [("page", JInt 7)];
     initRequest := true;
     sync := SyncOff;
     cache := CacheBool false;
     storageFormat := base64 |}.

(** Options that store as the example options do, and differ elsewhere. *)
Definition demo_other_options : SearchOptions :=
  {| initialSearchData := None;
     initialPagination := None;
     staticSearchData := Some [("tenant", JInt 3)];
     initRequest := false;
     sync := SyncUrl;
     cache := CacheBool true;
     storageFormat := base64 |}.

(** Options in the [query] format, and a page whose link parameter is not
    an escape. *)
Definition demo_query_options : SearchOptions :=
  {| initialSearchData := None;
     initialPagination := None;
     staticSearchData := None;
     initRequest := true;
     sync := SyncUrl;
     cache := CacheBool false;
     storageFormat := query |}.

(** Options in the [query] format that cache the query, and a query with a
    percent sign. *)
Definition demo_cached_query_options : SearchOptions :=
  {| initialSearchData := None;
     initialPagination := None;
     staticSearchData := None;
     initRequest := true;
     sync := SyncOff;
     cache := CacheBool true;
     storageFormat := query |}.

Definition demo_percent : payload := [("kw", JStr "100%")].

Definition demo_broken_link : Browser :=
  {| pathname := "/list"; search_q := Some "%"; sessionStorage := ∅ |}.

(** The engine after the first render of the example page. *)
Definition demo_first_engine : Engine :=
  {| loading := true;
     pageData := JNull;
     searchDataRef := [("a", JStr "declared"); ("b", JStr "cached");
                       ("c", JStr "linked")];
     paginationRef := {| page := 1; pageSize := 30 |};
     storageRef := "" |}.

(** A fetch that answers with the argument it is given. *)
Definition demo_fetch (arg : payload) : Settlement := Fulfilled (JObj arg).

(** A class with four declared fields, one of them in the group [admin]. *)
Definition demo_class : DeclaredClass :=
  {| class_keys := ["name"; "price"; "path"; "secret"];
     class_metadata :=
       Column "Name" None "name"
         (Column "Price"
            (Some [("format", JArr [JStr "money"; JObj []]);
                   ("ellipsis", JBool true)]) "price"
            (Column "Path" (Some [("ellipsis", JStr "split")]) "path"
               (Column "Secret" (Some [("group", JStr "admin");
                                       ("format", JStr "nothing")]) "secret"
                  ∅))) |}.

Definition demo_action : ColumnDesc :=
  {| col_props := [("title", JStr "Action"); ("width", JInt 80)];
     col_render := Some (fun _ _ _ => Ret (NValue (JStr "edit"))) |}.

(** The declared options of the fields [price] and [secret]. *)
Definition demo_price_options : payload :=
  [("title", JStr "Price"); ("dataIndex", JStr "price");
   ("format", JArr [JStr "money"; JObj []]); ("ellipsis", JBool true)].

Definition demo_secret_options : payload :=
  [("title", JStr "Secret"); ("dataIndex", JStr "secret");
   ("group", JStr "admin"); ("format", JStr "nothing")].

(** A class whose fields have no format: two fields for everyone, the
    second one truncated, and one field of the group [admin]. *)
Definition demo_code_options : payload :=
  [("title", JStr "Code"); ("dataIndex", JStr "code");
   ("ellipsis", JBool true)].

Definition demo_plain_class : DeclaredClass :=
  {| class_keys := ["name"; "code"; "owner"];
     class_metadata :=
       Column "Name" None "name"
         (Column "Code" (Some [("ellipsis", JBool true)]) "code"
            (Column "Owner" (Some [("group", JStr "admin")]) "owner" ∅)) |}.

(** The column of [code], and the columns of the class with an index, an
    action mounted after [name] and an action at the end. *)
Definition demo_code_column : ColumnDesc :=
  match resolve_field ecma demo_code_options None None with
  | Ret (col :: _) => col
  | _ => demo_action
  end.

Definition demo_columns : list ColumnDesc :=
  match useColumns ecma (JStr "No.") (Some demo_plain_class)
          (Some [demo_action]) ∅ None (<["name" := demo_action]> ∅) true with
  | Ret cols => cols
  | Throw _ => []
  end.

(** * Properties *)

(** ** Objects *)

Section Objects.

Implicit Types (k : string) (v : JsValue) (o s t : payload).

Lemma obj_get_set k k' v o :
  obj_get k (obj_set k' v o) = if String.eqb k k' then Some v else obj_get k o.
Proof.
  induction o as [|[k0 v0] o IH]; simpl.
  - destruct (String.eqb k k'); reflexivity.
  - destruct (String.eqb_spec k' k0) as [->|Hne]; simpl.
    + destruct (String.eqb k k0); reflexivity.
    + rewrite IH. destruct (String.eqb_spec k k0) as [->|Hne']; [|done].
      destruct (String.eqb_spec k0 k'); congruence.
Qed.

Lemma obj_get_None k o : obj_get k o = None <-> k ∉ Object_keys o.
Proof.
  induction o as [|[k0 v0] o IH]; simpl.
  - split; [intros _; apply not_elem_of_nil | done].
  - rewrite not_elem_of_cons.
    destruct (String.eqb_spec k k0) as [->|Hne]; [split; [done | tauto] | tauto].
Qed.

Lemma obj_get_app k o1 o2 :
  obj_get k (o1 ++ o2)%list
  = match obj_get k o1 with Some v => Some v | None => obj_get k o2 end.
Proof.
  induction o1 as [|[k0 v0] o1 IH]; simpl; [done|].
  destruct (String.eqb k k0); done.
Qed.

(** The last definition of a key in a spread source wins. *)
Lemma obj_get_spread k t s :
  obj_get k (spread t s)
  = match obj_get k (rev s) with Some v => Some v | None => obj_get k t end.
Proof.
  unfold spread. revert t. induction s as [|[k0 v0] s IH]; intros t; simpl.
  - reflexivity.
  - rewrite IH, obj_get_app, obj_get_set. simpl.
    destruct (obj_get k (rev s)); [done|].
    destruct (String.eqb k k0); done.
Qed.

Lemma obj_get_rev k o : wf_obj o -> obj_get k (rev o) = obj_get k o.
Proof.
  unfold wf_obj. induction o as [|[k0 v0] o IH]; simpl; [done|].
  intros Hnd. apply NoDup_cons in Hnd as [Hk0 Hnd].
  rewrite obj_get_app, (IH Hnd). simpl.
  destruct (String.eqb_spec k k0) as [->|Hne].
  - apply obj_get_None in Hk0. rewrite Hk0. done.
  - destruct (obj_get k o); done.
Qed.

(** On objects, a spread overrides key by key. *)
Lemma obj_get_spread_wf k t s :
  wf_obj s ->
  obj_get k (spread t s)
  = match obj_get k s with Some v => Some v | None => obj_get k t end.
Proof. intros Hs. rewrite obj_get_spread, obj_get_rev; done. Qed.

Lemma Object_keys_set k v o :
  Object_keys (obj_set k v o)
  = if decide (k ∈ Object_keys o) then Object_keys o
    else (Object_keys o ++ [k])%list.
Proof.
  unfold Object_keys. induction o as [|[k0 v0] o IH]; simpl.
  - destruct (decide (k ∈ [])) as [Hin|_]; [|done].
    by apply not_elem_of_nil in Hin.
  - destruct (String.eqb_spec k k0) as [->|Hne]; simpl.
    + destruct (decide (k0 ∈ k0 :: map fst o)) as [_|Hin]; [done|].
      destruct Hin. apply list_elem_of_here.
    + rewrite IH.
      destruct (decide (k ∈ map fst o)) as [Hin|Hin];
        destruct (decide (k ∈ k0 :: map fst o)) as [Hin'|Hin']; try done.
      * destruct Hin'. by apply list_elem_of_further.
      * apply elem_of_cons in Hin' as [?|?]; done.
Qed.

Lemma wf_obj_set k v o : wf_obj o -> wf_obj (obj_set k v o).
Proof.
  unfold wf_obj. intros Hnd. rewrite Object_keys_set.
  destruct (decide (k ∈ Object_keys o)) as [Hin|Hin]; [done|].
  apply NoDup_app. split_and!; [done | | apply NoDup_singleton].
  intros x Hx Hx'. apply list_elem_of_singleton in Hx'. congruence.
Qed.

Lemma wf_obj_spread t s : wf_obj t -> wf_obj (spread t s).
Proof.
  unfold spread. revert t. induction s as [|[k0 v0] s IH]; intros t Ht; simpl.
  - done.
  - apply IH, wf_obj_set, Ht.
Qed.

Lemma wf_obj_nil : wf_obj [].
Proof. apply NoDup_nil_2. Qed.

(** Setting a fresh key appends it. *)
Lemma obj_set_fresh k v o :
  k ∉ Object_keys o -> obj_set k v o = (o ++ [(k, v)])%list.
Proof.
  induction o as [|[k0 v0] o IH]; simpl; [done|].
  rewrite not_elem_of_cons. intros [Hne Hin].
  destruct (String.eqb_spec k k0); [done|]. by rewrite IH.
Qed.

(** Copying an object gives the same object. *)
Lemma spread_copy_gen t o :
  wf_obj (t ++ o)%list -> spread t o = (t ++ o)%list.
Proof.
  unfold spread, wf_obj, Object_keys. revert t.
  induction o as [|[k0 v0] o IH]; intros t Hnd; simpl.
  - by rewrite app_nil_r.
  - rewrite obj_set_fresh.
    + rewrite IH; rewrite <- app_assoc; done.
    + rewrite map_app in Hnd. apply NoDup_app in Hnd as (_ & Hd & _).
      intros Hin. apply (Hd k0 Hin). simpl. apply list_elem_of_here.
Qed.

Lemma spread_copy o : wf_obj o -> spread [] o = o.
Proof. intros Ho. by rewrite spread_copy_gen. Qed.

End Objects.

(** ** The trigger *)

Section Trigger.

Variable P : Platform.
Variable opts : SearchOptions.

Implicit Types (st : Engine) (br : Browser) (w : Engine * Browser).

(** The reactions to the settlement leave the two refs of the query alone. *)
Lemma searchRef_settle_refs s w :
  searchDataRef (fst (fst (searchRef_settle P opts s w))) = searchDataRef (fst w)
  /\ paginationRef (fst (fst (searchRef_settle P opts s w)))
     = paginationRef (fst w).
Proof.
  destruct w as [st br], s as [result|reason];
    unfold searchRef_settle, storageFunc; cbn [fst snd setPageData];
    split; reflexivity.
Qed.

Lemma searchRef_refs fetch searchData pagination w :
  searchDataRef (fst (fst (searchRef P opts fetch searchData pagination w)))
  = searchDataRef (fst (searchRef_begin opts (fst w) searchData pagination))
  /\ paginationRef (fst (fst (searchRef P opts fetch searchData pagination w)))
     = paginationRef (fst (searchRef_begin opts (fst w) searchData pagination)).
Proof.
  unfold searchRef.
  destruct (searchRef_begin opts (fst w) searchData pagination) as [st1 arg].
  apply (searchRef_settle_refs (fetch arg) (st1, snd w)).
Qed.

(** C2. A call of the trigger with a query payload leaves the stored page at
    1, whatever pagination argument comes with it and however the fetch
    settles; the stored state is the one of the same call without the query
    payload (the pagination decision), with the payload stored and the page
    reset on top of it. *)
Theorem trigger_query_resets_page fetch sd pagination w :
  let st' := fst (fst (searchRef P opts fetch (Some sd) pagination w)) in
  let paged := fst (searchRef_begin opts (fst w) None pagination) in
  page (paginationRef st') = 1
  /\ searchDataRef st' = sd
  /\ paginationRef st'
     = {| page := 1; pageSize := pageSize (paginationRef paged) |}
  /\ pageSize (paginationRef st')
     = match pagination with
       | Some p => pageSize p
       | None => pageSize (paginationRef (fst w))
       end.
Proof.
  intros st' paged. subst st' paged.
  destruct (searchRef_refs fetch (Some sd) pagination w) as [-> ->].
  destruct pagination as [p|]; simpl; repeat split; reflexivity.
Qed.

(** C3. A call of the trigger with a pagination argument only adopts the
    page size of the argument; it adopts the page of the argument when that
    page size is the stored one, and goes back to page 1 when it is not.  The
    query payload is untouched. *)
Theorem trigger_pagination_only fetch p w :
  let st' := fst (fst (searchRef P opts fetch None (Some p) w)) in
  pageSize (paginationRef st') = pageSize p
  /\ page (paginationRef st')
     = (if pageSize (paginationRef (fst w)) =? pageSize p then page p else 1)
  /\ searchDataRef st' = searchDataRef (fst w).
Proof.
  intros st'. subst st'.
  destruct (searchRef_refs fetch None (Some p) w) as [-> ->].
  simpl. repeat split; reflexivity.
Qed.

Lemma wf_PageQuery_props p : wf_obj (PageQuery_props p).
Proof.
  unfold wf_obj. simpl. apply NoDup_cons. split; [|apply NoDup_singleton].
  rewrite list_elem_of_singleton. discriminate.
Qed.

(** X1. The argument of the fetch, key by key: the static payload first,
    then the pagination, then the query payload. *)
Lemma fetch_argument_lookup st searchData pagination k :
  wf_obj (staticParams opts) ->
  wf_obj (searchDataRef (fst (searchRef_begin opts st searchData pagination))) ->
  let '(st', arg) := searchRef_begin opts st searchData pagination in
  obj_get k arg
  = match obj_get k (staticParams opts) with
    | Some v => Some v
    | None =>
        match obj_get k (PageQuery_props (paginationRef st')) with
        | Some v => Some v
        | None => obj_get k (searchDataRef st')
        end
    end.
Proof.
  pose proof wf_PageQuery_props as Hp. unfold searchRef_begin.
  destruct searchData as [sd|]; cbv beta iota zeta;
    cbn [fst searchDataRef paginationRef]; intros Hs Hq;
    rewrite !obj_get_spread_wf by auto; cbn [obj_get];
    repeat match goal with
           | |- context [match ?x with Some _ => _ | None => _ end] =>
               destruct x
           end; reflexivity.
Qed.

(** C10. A call of the trigger without arguments leaves the stored query
    payload and the stored pagination as they were, and calls the fetch with
    the stored query payload, then the stored page and page size, then the
    static payload, spread in this order into one object: the rows after the
    call and the settlement of its promise are those that the answer of the
    fetch to this object decides, and a fetch that answers with its argument
    puts this very object in the rows.  Key by key the object holds the
    static value, else the stored page or page size, else the stored query
    value. *)
Theorem trigger_no_arguments fetch w :
  let st := fst w in
  let arg := spread (spread (spread [] (searchDataRef st))
                            [("page", JInt (page (paginationRef st)));
                             ("pageSize", JInt (pageSize (paginationRef st)))])
                    (default [] (staticSearchData opts)) in
  let st' := fst (fst (searchRef P opts fetch None None w)) in
  searchDataRef st' = searchDataRef st
  /\ paginationRef st' = paginationRef st
  /\ pageData st'
     = match fetch arg with
       | Fulfilled result => result
       | Rejected _ => pageData st
       end
  /\ snd (searchRef P opts fetch None None w)
     = match fetch arg with
       | Fulfilled _ => Fulfilled JUndefined
       | Rejected reason => Rejected reason
       end
  /\ pageData
       (fst (fst (searchRef P opts (fun a => Fulfilled (JObj a)) None None w)))
     = JObj arg
  /\ (wf_obj (searchDataRef st) ->
      wf_obj (default [] (staticSearchData opts)) ->
      forall k,
        obj_get k arg
        = match obj_get k (default [] (staticSearchData opts)) with
          | Some v => Some v
          | None =>
              if String.eqb k "page"
              then Some (JInt (page (paginationRef st)))
              else if String.eqb k "pageSize"
              then Some (JInt (pageSize (paginationRef st)))
              else obj_get k (searchDataRef st)
          end).
Proof.
  intros st arg st'. subst st'.
  destruct (searchRef_refs fetch None None w) as [-> ->].
  assert (Hcall : forall f,
            searchRef P opts f None None w
            = searchRef_settle P opts (f arg)
                ({| loading := true; pageData := pageData st;
                    searchDataRef := searchDataRef st;
                    paginationRef := paginationRef st;
                    storageRef := storageRef st |}, snd w)).
  { intros f. unfold searchRef, searchRef_begin. reflexivity. }
  rewrite !Hcall. split_and!; try reflexivity.
  - destruct (fetch arg); reflexivity.
  - destruct (fetch arg); reflexivity.
  - intros Hq Hs k. subst arg.
    pose proof (wf_PageQuery_props (paginationRef st)) as Hp.
    unfold PageQuery_props in Hp.
    rewrite !obj_get_spread_wf by (done || apply wf_obj_nil).
    cbn [obj_get].
    destruct (obj_get k (default [] (staticSearchData opts))); [done|].
    destruct (String.eqb k "page"); [done|].
    destruct (String.eqb k "pageSize"); [done|].
    by destruct (obj_get k (searchDataRef st)).
Qed.

(** C4. For every call of the trigger, with or without arguments, and
    however the fetch answers the argument it is given: once the promise of
    the call has settled the loading flag is down; the query payload that
    the call stored is encoded in the configured format and kept in
    [storageRef] when sync or cache is on, written to the link when sync is
    [url], written to the session store under the cache key when cache is
    on; the rows are the result of a fulfilled fetch and stay for a rejected
    one; and a rejection is the settlement of the promise that the trigger
    returned, with the same reason.  The reactions do the same on whatever
    the cells hold when the fetch settles. *)
Theorem settlement_persists_and_clears fetch searchData pagination s w0 w :
  let settled :=
    fetch (snd (searchRef_begin opts (fst w) searchData pagination)) in
  let r := searchRef P opts fetch searchData pagination w in
  let st' := fst (fst r) in
  let br' := snd (fst r) in
  let current := match searchData with
                 | Some sd => sd
                 | None => searchDataRef (fst w)
                 end in
  let persisted (payload_ : payload) (before : Engine * Browser)
        (after : Engine * Browser) : Prop :=
    loading (fst after) = false
    /\ searchDataRef (fst after) = payload_
    /\ storageRef (fst after)
       = (if sync_on (sync opts) || cache_on (cache opts)
          then encodeQueryData P (Some payload_) (storageFormat opts)
          else storageRef (fst before))
    /\ search_q (snd after)
       = match sync opts with
         | SyncUrl => generateNewUrl P (storageRef (fst after)) (snd before)
         | _ => search_q (snd before)
         end
    /\ sessionStorage (snd after)
       = (if cache_on (cache opts)
          then <[cache_key (cache opts) (snd before)
                 := storageRef (fst after)]> (sessionStorage (snd before))
          else sessionStorage (snd before)) in
  let outcome_of (s1 : Settlement) (before after : Engine * Browser)
        (s2 : Settlement) : Prop :=
    pageData (fst after)
    = match s1 with
      | Fulfilled result => result
      | Rejected _ => pageData (fst before)
      end
    /\ s2 = match s1 with
            | Fulfilled _ => Fulfilled JUndefined
            | Rejected reason => Rejected reason
            end in
  persisted current w (st', br')
  /\ outcome_of settled w (st', br') (snd r)
  /\ persisted (searchDataRef (fst w0)) w0 (fst (searchRef_settle P opts s w0))
  /\ outcome_of s w0 (fst (searchRef_settle P opts s w0))
       (snd (searchRef_settle P opts s w0)).
Proof.
  assert (Hsettle : forall s1 w1,
    (loading (fst (fst (searchRef_settle P opts s1 w1))) = false
     /\ searchDataRef (fst (fst (searchRef_settle P opts s1 w1)))
        = searchDataRef (fst w1)
     /\ storageRef (fst (fst (searchRef_settle P opts s1 w1)))
        = (if sync_on (sync opts) || cache_on (cache opts)
           then encodeQueryData P (Some (searchDataRef (fst w1)))
                  (storageFormat opts)
           else storageRef (fst w1))
     /\ search_q (snd (fst (searchRef_settle P opts s1 w1)))
        = match sync opts with
          | SyncUrl =>
              generateNewUrl P
                (storageRef (fst (fst (searchRef_settle P opts s1 w1))))
                (snd w1)
          | _ => search_q (snd w1)
          end
     /\ sessionStorage (snd (fst (searchRef_settle P opts s1 w1)))
        = (if cache_on (cache opts)
           then <[cache_key (cache opts) (snd w1)
                  := storageRef (fst (fst (searchRef_settle P opts s1 w1)))]>
                  (sessionStorage (snd w1))
           else sessionStorage (snd w1)))
    /\ pageData (fst (fst (searchRef_settle P opts s1 w1)))
       = match s1 with
         | Fulfilled result => result
         | Rejected _ => pageData (fst w1)
         end
    /\ snd (searchRef_settle P opts s1 w1)
       = match s1 with
         | Fulfilled _ => Fulfilled JUndefined
         | Rejected reason => Rejected reason
         end).
  { intros s1 [st1 br1]. destruct s1 as [result|reason];
      unfold searchRef_settle, storageFunc; cbn [fst snd setPageData];
      cbn [searchDataRef storageRef loading pageData paginationRef];
      destruct (sync opts), (cache_on (cache opts));
      cbn [sync_on orb setLoading setToUrl setCache fst snd];
      cbn [searchDataRef storageRef loading pageData search_q sessionStorage
           pathname];
      repeat split; reflexivity. }
  intros settled r st' br' current persisted outcome_of.
  subst persisted outcome_of. cbv beta.
  destruct (Hsettle s w0) as (Hp0 & Hd0 & Hs0).
  split_and!; try (apply Hp0 || apply Hd0 || apply Hs0).
  all: subst st' br' r settled current; unfold searchRef;
    destruct (searchRef_begin opts (fst w) searchData pagination)
      as [st1 arg] eqn:Hb; cbn [fst snd];
    destruct (Hsettle (fetch arg) (st1, snd w))
      as ((Hl & Hq & Ht & Hu & Hc) & Hd & Hs); cbn [fst snd] in *;
    assert (H1 : searchDataRef st1
                 = match searchData with
                   | Some sd => sd
                   | None => searchDataRef (fst w)
                   end
                 /\ storageRef st1 = storageRef (fst w)
                 /\ pageData st1 = pageData (fst w))
      by (unfold searchRef_begin in Hb; destruct searchData;
          injection Hb as <- _; repeat split; reflexivity);
    destruct H1 as (Hq1 & Ht1 & Hd1).
  - exact Hl.
  - by rewrite Hq.
  - by rewrite Ht, Hq1, Ht1.
  - exact Hu.
  - exact Hc.
  - by rewrite Hd, Hd1.
  - exact Hs.
Qed.

(** The whole call: the loading flag is raised before the fetch and is down
    again once the promise has settled, fulfilled or rejected. *)
Lemma trigger_loading fetch searchData pagination w :
  loading (fst (searchRef_begin opts (fst w) searchData pagination)) = true
  /\ loading (fst (fst (searchRef P opts fetch searchData pagination w)))
     = false.
Proof.
  split.
  - unfold searchRef_begin. destruct searchData; reflexivity.
  - unfold searchRef.
    destruct (searchRef_begin opts (fst w) searchData pagination) as [st1 arg].
    destruct (fetch arg); reflexivity.
Qed.

End Trigger.

(** ** The codec and the initial payload *)

Section Codec.

Variable P : Platform.

Lemma lbind_silent_ret {A B} (a : A) (f : A -> logged B) :
  lbind (silent (Ret a)) f = f a.
Proof. unfold lbind, silent. destruct (f a). reflexivity. Qed.

(** An absent or empty text decodes to the empty payload, in both formats,
    without a warning. *)
Lemma decode_nothing data format :
  data = None \/ data = Some "" ->
  decodeQueryData P data format = ([], Ret (JObj [])).
Proof. intros [-> | ->]; reflexivity. Qed.

(** The part of C8 that holds.  In the [base64] format [decodeQueryData]
    returns for every input: the empty payload without a warning for an
    absent or empty text; the parsed value when the four steps of the [try]
    block succeed; the empty payload and the warning when one of them
    throws.  In the [query] format an absent or empty text gives the empty
    payload as well. *)
Lemma decode_base64_never_throws (data : option string) :
  exists log v,
    decodeQueryData P data base64 = (log, Ret v)
    /\ ((data = None \/ data = Some "") -> log = [] /\ v = JObj [])
    /\ (forall d e, data = Some d -> d <> "" -> parse_base64 P d = Throw e ->
          log = [IncompleteQuery] /\ v = JObj [])
    /\ (forall d v', data = Some d -> d <> "" -> parse_base64 P d = Ret v' ->
          log = [] /\ v = v')
    /\ ((data = None \/ data = Some "") ->
          decodeQueryData P data query = ([], Ret (JObj []))).
Proof.
  destruct data as [d|]; [destruct (String.eqb_spec d "") as [->|Hne]|].
  - exists [], (JObj []). split; [reflexivity|]. split_and!; try done.
    all: intros; congruence.
  - unfold decodeQueryData. apply String.eqb_neq in Hne as Hb. rewrite Hb.
    simpl. destruct (parse_base64 P d) as [v|e] eqn:Hp.
    + exists [], v. split; [reflexivity|]. split_and!.
      * intros [?|?]; congruence.
      * intros d' e' [= <-] _ ?. congruence.
      * intros d' v' [= <-] _ ?. split; congruence.
      * intros [?|?]; congruence.
    + exists [IncompleteQuery], (JObj []). split; [reflexivity|]. split_and!.
      * intros [?|?]; congruence.
      * done.
      * intros d' v' [= <-] _ ?. congruence.
      * intros [?|?]; congruence.
  - exists [], (JObj []). split; [reflexivity|]. split_and!; try done.
    all: intros; congruence.
Qed.

(** In the [query] format the text is decoded outside of any [try]: what
    [decodeURIComponent] throws reaches the caller. *)
Lemma decode_query_throws d e :
  d <> "" -> decodeURIComponent P d = Throw e ->
  decodeQueryData P (Some d) query = ([], Throw e).
Proof.
  intros Hne He. unfold decodeQueryData.
  apply String.eqb_neq in Hne. rewrite Hne. simpl.
  unfold silent. rewrite He. reflexivity.
Qed.

(** C8, where it fails.  A text that is not empty and that
    [decodeURIComponent] rejects is caught in the [base64] format, which
    logs the warning and answers the empty payload, and is not caught in the
    [query] format: there [decodeQueryData] throws to its caller what
    [decodeURIComponent] throws. *)
Theorem decode_query_unguarded d e :
  d <> "" -> decodeURIComponent P d = Throw e ->
  decodeQueryData P (Some d) query = ([], Throw e)
  /\ decodeQueryData P (Some d) base64 = ([IncompleteQuery], Ret (JObj [])).
Proof.
  intros Hne He. unfold decodeQueryData, parse_base64, silent.
  apply String.eqb_neq in Hne. rewrite Hne, He. split; reflexivity.
Qed.

(** C1. With cache and sync both on, when the cache entry decodes to
    [cached] and the link parameter to [linked], the first render stores as
    query payload the declared initial payload overridden key by key by
    [cached], itself overridden key by key by [linked]. *)
Theorem initial_payload_precedence opts br initialPageData
    cached linked log1 log2 :
  cache_on (cache opts) = true ->
  sync_on (sync opts) = true ->
  getFromCache P (cache opts) (storageFormat opts) br = (log1, Ret cached) ->
  getFromUrl P (storageFormat opts) br = (log2, Ret linked) ->
  wf_obj (default [] (initialSearchData opts)) ->
  wf_obj (own_props cached) ->
  wf_obj (own_props linked) ->
  exists st,
    useSearch_init P opts br initialPageData = ((log1 ++ log2)%list, Ret st)
    /\ wf_obj (searchDataRef st)
    /\ forall k,
         obj_get k (searchDataRef st)
         = match obj_get k (own_props linked) with
           | Some v => Some v
           | None =>
               match obj_get k (own_props cached) with
               | Some v => Some v
               | None => obj_get k (default [] (initialSearchData opts))
               end
           end.
Proof.
  intros Hc Hs Hcache Hlink Hd Hwc Hwl.
  unfold useSearch_init, initial_search_data.
  rewrite Hc, Hs, Hcache, Hlink. unfold lbind, silent. simpl.
  eexists. split; [rewrite !app_nil_r; reflexivity|]. simpl. split.
  - apply wf_obj_spread, wf_obj_spread, wf_obj_spread, wf_obj_nil.
  - intros k. rewrite !obj_get_spread_wf by done. simpl.
    repeat match goal with
           | |- context [match ?x with Some _ => _ | None => _ end] =>
               destruct x
           end; reflexivity.
Qed.

(** The object [_query] holds the useful entries of the payload, each once,
    in the order of the payload, but for an entry named [__proto__]. *)
Lemma filtered_query_spec qd :
  wf_obj qd ->
  filtered_query qd
  = List.filter (fun kv => isUsefulValue (snd kv)
                           && negb (String.eqb (fst kv) "__proto__")) qd.
Proof.
  intros Hwf. unfold filtered_query, useful_keys.
  enough (H : forall sub pre acc,
            qd = (pre ++ sub)%list ->
            (forall k, k ∈ Object_keys acc -> k ∈ Object_keys pre) ->
            fold_left (fun _query k => assign k (prop k qd) _query)
              (List.filter (fun k => isUsefulValue (prop k qd))
                           (Object_keys sub)) acc
            = (acc ++ List.filter
                        (fun kv => isUsefulValue (snd kv)
                                   && negb (String.eqb (fst kv) "__proto__"))
                        sub)%list).
  { apply (H qd [] []); [reflexivity|]. intros k Hk. exact Hk. }
  induction sub as [|[k v] sub IH]; intros pre acc Hpre Hacc; simpl.
  - by rewrite app_nil_r.
  - assert (Hfresh : k ∉ Object_keys pre).
    { unfold wf_obj, Object_keys in Hwf. rewrite Hpre, map_app in Hwf.
      apply NoDup_app in Hwf as (_ & Hdis & _).
      intros Hin. apply (Hdis k Hin). simpl. apply list_elem_of_here. }
    assert (Hk : prop k qd = v).
    { unfold prop. rewrite Hpre, obj_get_app.
      apply obj_get_None in Hfresh. rewrite Hfresh. simpl.
      rewrite String.eqb_refl. reflexivity. }
    assert (Hstep : qd = ((pre ++ [(k, v)]) ++ sub)%list).
    { by rewrite <- app_assoc. }
    assert (Hkeep : forall k', k' ∈ Object_keys acc ->
                      k' ∈ Object_keys (pre ++ [(k, v)])%list).
    { intros k' Hin. unfold Object_keys. rewrite map_app, elem_of_app.
      left. apply Hacc, Hin. }
    rewrite Hk. destruct (isUsefulValue v) eqn:Hu; simpl; rewrite ?Hk.
    + unfold assign at 2. destruct (String.eqb k "__proto__"); simpl.
      * by apply (IH (pre ++ [(k, v)])%list).
      * rewrite obj_set_fresh by (intros Hin; apply Hfresh, Hacc, Hin).
        rewrite (IH (pre ++ [(k, v)])%list);
          [rewrite <- app_assoc; reflexivity | done |].
        intros k'. unfold Object_keys. rewrite !map_app, !elem_of_app.
        intros [Hin|Hin]; [left; apply Hacc, Hin | right; exact Hin].
    + by apply (IH (pre ++ [(k, v)])%list).
Qed.

Lemma useful_keys_spec qd :
  wf_obj qd ->
  useful_keys qd
  = Object_keys (List.filter (fun kv => isUsefulValue (snd kv)) qd).
Proof.
  intros Hwf. unfold useful_keys.
  enough (H : forall sub pre,
            qd = (pre ++ sub)%list ->
            List.filter (fun k => isUsefulValue (prop k qd)) (Object_keys sub)
            = Object_keys
                (List.filter (fun kv => isUsefulValue (snd kv)) sub)).
  { apply (H qd []). reflexivity. }
  induction sub as [|[k v] sub IH]; intros pre Hpre; simpl; [done|].
  assert (Hk : prop k qd = v).
  { unfold prop. rewrite Hpre, obj_get_app.
    unfold wf_obj, Object_keys in Hwf. rewrite Hpre, map_app in Hwf.
    apply NoDup_app in Hwf as (_ & Hdis & _).
    destruct (obj_get k pre) eqn:Hg.
    - exfalso. apply (Hdis k).
      + destruct (decide (k ∈ map fst pre)) as [|Hn]; [done|].
        apply obj_get_None in Hn. congruence.
      + simpl. apply list_elem_of_here.
    - simpl. rewrite String.eqb_refl. reflexivity. }
  rewrite Hk, (IH (pre ++ [(k, v)])%list) by (by rewrite <- app_assoc).
  destruct (isUsefulValue v); reflexivity.
Qed.

Lemma wf_obj_filter (f : string * JsValue -> bool) qd :
  wf_obj qd -> wf_obj (List.filter f qd).
Proof.
  unfold wf_obj, Object_keys. induction qd as [|kv qd IH]; simpl; [done|].
  intros Hnd. apply NoDup_cons in Hnd as [Hk Hnd].
  destruct (f kv); simpl; [|by apply IH].
  apply NoDup_cons. split; [|by apply IH].
  intros Hin. apply Hk. apply list_elem_of_fmap in Hin as (kv' & -> & Hin).
  apply list_elem_of_fmap. exists kv'. split; [done|].
  apply list_elem_of_In, filter_In in Hin as [Hin _].
  by apply list_elem_of_In.
Qed.

Lemma filter_filter_same {A} (f : A -> bool) (l : list A) :
  List.filter f (List.filter f l) = List.filter f l.
Proof.
  induction l as [|x l IH]; simpl; [done|].
  destruct (f x) eqn:Hx; simpl; rewrite ?Hx, ?IH; reflexivity.
Qed.

Lemma filter_stored_useful (g : string * JsValue -> bool) (l : payload) :
  List.filter (fun kv => isUsefulValue (snd kv) && g kv)
    (List.filter (fun kv => isUsefulValue (snd kv)) l)
  = List.filter (fun kv => isUsefulValue (snd kv) && g kv) l.
Proof.
  induction l as [|x l IH]; simpl; [done|].
  destruct (isUsefulValue (snd x)) eqn:Hx; simpl; rewrite ?Hx, ?IH;
    reflexivity.
Qed.

(** X2. In the [base64] format the encoded text is the one of the payload
    without its non-useful entries. *)
Lemma encode_base64_drops_useless qd :
  wf_obj qd ->
  encodeQueryData P (Some qd) base64
  = encodeQueryData P
      (Some (List.filter (fun kv => isUsefulValue (snd kv)) qd)) base64.
Proof.
  intros Hwf. unfold encodeQueryData.
  rewrite !filtered_query_spec, !useful_keys_spec
    by (try apply wf_obj_filter; done).
  rewrite filter_filter_same, filter_stored_useful. reflexivity.
Qed.

(** X3. With no useful entry the encoded text is empty, in both formats. *)
Lemma encode_nothing_useful qd format :
  wf_obj qd ->
  List.filter (fun kv => isUsefulValue (snd kv)) qd = [] ->
  encodeQueryData P (Some qd) format = "".
Proof.
  intros Hwf Hnone. unfold encodeQueryData.
  rewrite useful_keys_spec, Hnone by done. reflexivity.
Qed.

(** In the [query] format the text is computed from the payload as it came,
    not from [_query]. *)
Lemma encode_query_unfiltered qd :
  useful_keys qd <> [] ->
  encodeQueryData P (Some qd) query = qs_stringify P qd.
Proof.
  intros Hsome. unfold encodeQueryData.
  destruct (useful_keys qd); [done | reflexivity].
Qed.

End Codec.

(** In the [query] format the lone percent sign is not an escape:
    [decodeURIComponent] throws and nothing catches it. *)
Lemma decode_query_percent_throws :
  decodeQueryData ecma (Some "%") query = ([], Throw URIError)
  /\ decodeQueryData ecma (Some "%") base64
     = ([IncompleteQuery], Ret (JObj [])).
Proof. split; vm_compute; reflexivity. Qed.

(** C7 at the failing input.  In the [query] format the entry of the empty
    string stays in the encoded text, which is not the text of the payload
    without it; in the [base64] format the two texts are the same. *)
Theorem encode_query_keeps_useless_entry :
  let qd := [("a", JStr "x"); ("b", JStr "")] in
  let useful := [("a", JStr "x")] in
  List.filter (fun kv => isUsefulValue (snd kv)) qd = useful
  /\ encodeQueryData ecma (Some qd) query = "a=x&b="
  /\ encodeQueryData ecma (Some useful) query = "a=x"
  /\ encodeQueryData ecma (Some qd) base64
     = encodeQueryData ecma (Some useful) base64.
Proof. repeat split; vm_compute; reflexivity. Qed.

(** ** The format registry *)

Section Formats.

Variable P : Platform.

Lemma obj_get_rev_None k (o : payload) :
  obj_get k o = None -> obj_get k (rev o) = None.
Proof.
  rewrite !obj_get_None. unfold Object_keys. rewrite map_rev.
  intros Hnot Hin. apply Hnot, list_elem_of_In, in_rev.
  by apply list_elem_of_In.
Qed.

(** The [default] option that a factory reads when the params of the format
    spec are an object without a [default] of their own: the one of the
    column options. *)
Lemma factory_default_option defaults options params :
  obj_get "default" params = None ->
  prop "default"
    (with_defaults defaults
       (JObj (spread [("default", prop "default" options)] params)))
  = prop "default" options.
Proof.
  intros Hnone. unfold with_defaults, prop. simpl own_props.
  rewrite obj_get_spread_wf.
  - rewrite obj_get_spread, (obj_get_rev_None _ _ Hnone). reflexivity.
  - apply wf_obj_spread. unfold wf_obj. simpl. apply NoDup_singleton.
Qed.

(** The options of the column after [useColumns] has set its default. *)
Lemma column_options_default options :
  wf_obj options ->
  prop "default" (column_options options)
  = nullish_or (prop "default" options) (JStr DEFAULT_EMPTY_VALUE).
Proof.
  intros Hwf. unfold column_options. rewrite spread_copy by done.
  unfold prop at 1. rewrite obj_get_set. reflexivity.
Qed.

Lemma column_options_format options :
  wf_obj options ->
  prop "format" (column_options options) = prop "format" options.
Proof.
  intros Hwf. unfold column_options. rewrite spread_copy by done.
  unfold prop at 1. rewrite obj_get_set. reflexivity.
Qed.

Lemma format_of_format_name t : format_of_name (format_name t) = Some t.
Proof. destruct t; reflexivity. Qed.

(** A call of an own entry that no column has redefined. *)
Lemma registry_call_declared {F}
    (declared : string -> option (JsValue -> Held render -> F)) of_render
    name key arg second factory :
  ToPropertyKey name = Ret key ->
  declared key = Some factory ->
  registry_call declared of_render ∅ name arg second
  = (Ret (Callable (factory arg second)), ∅).
Proof.
  intros Hkey Hown. unfold registry_call.
  by rewrite Hkey, lookup_empty, Hown.
Qed.

(** [formatGenerate] for the name of an entry of the registry. *)
Lemma formatGenerate_declared join_entry info options t params :
  truthy info = true ->
  format_pair info = (JStr (format_name t), params) ->
  formatGenerate_with P join_entry info options
  = Ret (Callable
           (DEFAULT_FORMAT_RENDER_FACTORY P join_entry t
              (if truthy params
               then JObj (spread [("default",
                                   prop "default" (own_props options))]
                                 (own_props params))
               else JNull))).
Proof.
  intros Hinfo Hpair. unfold formatGenerate_with.
  rewrite Hinfo, Hpair. cbn [negb].
  rewrite (registry_call_declared _ _ _ (format_name t) _ _
             (fun arg _ => DEFAULT_FORMAT_RENDER_FACTORY P join_entry t arg));
    [reflexivity | reflexivity |].
  by rewrite format_of_format_name.
Qed.

(** C9, as the code has it.  For a column whose format spec is a pair of one
    of the names [date], [datetime], [number], [int], [money] and an object
    of params without a [default] of its own, an empty input value renders
    as the default of the column, which is the placeholder ["-"] when the
    column declares none. *)
Theorem format_default_falls_back options t params value record :
  wf_obj options ->
  In t [date; datetime; number; int; money] ->
  prop "format" options = JArr [JStr (format_name t); JObj params] ->
  obj_get "default" params = None ->
  empty_input P t value = true ->
  render_value P options value record
  = Ret (nullish_or (prop "default" options) (JStr DEFAULT_EMPTY_VALUE)).
Proof.
  intros Hwf Ht Hfmt Hnone Hempty.
  unfold render_value, column_render, formatGenerate.
  rewrite column_options_format, Hfmt by done.
  rewrite (formatGenerate_declared _ _ _ t (JObj params)) by reflexivity.
  cbn [truthy own_props mbind outcome_bind held_truthy negb andb as_render].
  pose proof (column_options_default options Hwf) as Hd.
  simpl in Ht.
  destruct Ht as [<-|[<-|[<-|[<-|[<-|[]]]]]];
    cbn [DEFAULT_FORMAT_RENDER_FACTORY];
    unfold date_factory, datetime_factory, number_factory, int_factory,
      money_factory, empty_input in *;
    rewrite factory_default_option by done; rewrite Hd.
  - apply negb_true_iff in Hempty. rewrite Hempty. reflexivity.
  - apply negb_true_iff in Hempty. rewrite Hempty. reflexivity.
  - rewrite Hempty. reflexivity.
  - rewrite Hempty. reflexivity.
  - rewrite Hempty. reflexivity.
Qed.

(** C6 at a value whose parse fails: [parseFloat] and [parseInt] answer
    [NaN] without throwing, so the [catch] that returns the raw value does
    not run; the [number] format shows the text of [NaN], the [int] format
    shows [NaN] itself. *)
Theorem parse_failure_shows_NaN opt value record :
  isEmpty P value = false ->
  parseFloat P value = NaN ->
  toFixed P NaN (prop "digits"
                   (with_defaults (DEFAULT_FORMAT_OPTIONS number) opt))
  = Ret "NaN" ->
  parseInt P value (prop "radix"
                      (with_defaults (DEFAULT_FORMAT_OPTIONS number) opt))
  = NaN ->
  number_factory P opt value record = Ret (JStr "NaN")
  /\ int_factory P opt value record = Ret (JNum NaN).
Proof.
  intros He Hf Hfix Hi. unfold number_factory, int_factory.
  rewrite He, Hf, Hfix, Hi. split; reflexivity.
Qed.

(** The [catch] of the numeric formats runs when something throws: the raw
    value is then what the column shows. *)
Lemma numeric_catch_returns_raw opt value record e :
  isEmpty P value = false ->
  toFixed P (parseFloat P value)
    (prop "digits" (with_defaults (DEFAULT_FORMAT_OPTIONS number) opt))
  = Throw e ->
  number_factory P opt value record = Ret value.
Proof.
  intros He Hfix. unfold number_factory. rewrite He, Hfix. reflexivity.
Qed.

Lemma money_catch_returns_raw opt value record e :
  isEmpty P value = false ->
  renderPrice P value = Throw e ->
  money_factory P opt value record = Ret value.
Proof.
  intros He Hr. unfold money_factory. rewrite He, Hr. reflexivity.
Qed.

(** X17. A format given by its bare name reaches its factory with [null]
    for options: the default of the column is not among them, and an empty
    value shows [undefined]. *)
Lemma bare_name_loses_default options t value record :
  wf_obj options ->
  In t [date; datetime; number; int; money] ->
  prop "format" options = JStr (format_name t) ->
  empty_input P t value = true ->
  render_value P options value record = Ret JUndefined.
Proof.
  intros Hwf Ht Hfmt Hempty.
  unfold render_value, column_render, formatGenerate.
  rewrite column_options_format, Hfmt by done.
  rewrite (formatGenerate_declared _ _ _ t JNull)
    by (reflexivity || by destruct t).
  cbn [truthy mbind outcome_bind held_truthy negb andb as_render].
  simpl in Ht.
  destruct Ht as [<-|[<-|[<-|[<-|[<-|[]]]]]];
    cbn [DEFAULT_FORMAT_RENDER_FACTORY];
    unfold date_factory, datetime_factory, number_factory, int_factory,
      money_factory, empty_input in *.
  - apply negb_true_iff in Hempty. rewrite Hempty. reflexivity.
  - apply negb_true_iff in Hempty. rewrite Hempty. reflexivity.
  - rewrite Hempty. reflexivity.
  - rewrite Hempty. reflexivity.
  - rewrite Hempty. reflexivity.
Qed.

End Formats.

(** C9, as stated, fails.  The [constant] format has no substitute for an
    empty value: with params and no enum it shows the empty string itself.
    And the bare name [money] shows [undefined] for the empty string, not
    the placeholder of the column. *)
Lemma format_default_not_used :
  render_value ecma [("format", JArr [JStr "constant"; JObj []])]
    (JStr "") (JObj []) = Ret (JStr "")
  /\ render_value ecma [("format", JStr "money")] (JStr "") (JObj [])
     = Ret JUndefined
  /\ render_value ecma [("format", JArr [JStr "money"; JObj []])]
       (JStr "") (JObj []) = Ret (JStr "-").
Proof. repeat split; vm_compute; reflexivity. Qed.

(** ** The theorems at concrete inputs *)

Ltac wf_concrete :=
  unfold wf_obj; apply (bool_decide_unpack _); vm_compute; exact I.

(** C1 on the example page: the link wins on [c], the cache on [b], the
    declared payload stays on [a]. *)
Lemma initial_payload_precedence_witness :
  exists st,
    useSearch_init ecma demo_options demo_browser JNull = ([], Ret st)
    /\ wf_obj (searchDataRef st)
    /\ forall k,
         obj_get k (searchDataRef st)
         = match obj_get k demo_linked with
           | Some v => Some v
           | None =>
               match obj_get k demo_cached with
               | Some v => Some v
               | None => obj_get k demo_declared
               end
           end.
Proof.
  apply (initial_payload_precedence ecma demo_options demo_browser JNull
           (JObj demo_cached) (JObj demo_linked) [] []).
  - reflexivity.
  - reflexivity.
  - vm_compute. reflexivity.
  - vm_compute. reflexivity.
  - wf_concrete.
  - wf_concrete.
  - wf_concrete.
Defined.

(** C6 on the text ["abc"], with the options of a bare format name. *)
Lemma parse_failure_shows_NaN_witness :
  number_factory ecma JNull (JStr "abc") (JObj []) = Ret (JStr "NaN")
  /\ int_factory ecma JNull (JStr "abc") (JObj []) = Ret (JNum NaN).
Proof.
  apply (parse_failure_shows_NaN ecma JNull (JStr "abc") (JObj []));
    vm_compute; reflexivity.
Defined.

(** C9 on a [money] column with params and no default: the empty string
    shows the placeholder. *)
Lemma format_default_falls_back_witness :
  render_value ecma [("format", JArr [JStr "money"; JObj [("symbol", JStr "$")]])]
    (JStr "") (JObj [])
  = Ret (JStr "-").
Proof.
  apply (format_default_falls_back ecma
           [("format", JArr [JStr "money"; JObj [("symbol", JStr "$")]])]
           money [("symbol", JStr "$")] (JStr "") (JObj [])).
  - wf_concrete.
  - simpl. tauto.
  - reflexivity.
  - reflexivity.
  - reflexivity.
Defined.

(** C8 on a text that [encodeQueryData] itself writes: in the [query]
    format the query of the example is stored as it is, the text does not
    decode, and the first render that reads it from the cache throws. *)
Lemma decode_query_unguarded_witness :
  encodeQueryData ecma (Some demo_percent) query = "kw=100%"
  /\ useSearch_init ecma demo_cached_query_options
       (snd (fst (searchRef ecma demo_cached_query_options demo_fetch
                    (Some demo_percent) None
                    (demo_engine,
                     {| pathname := "/list"; search_q := None;
                        sessionStorage := ∅ |}))))
       JNull
     = ([], Throw URIError)
  /\ decodeQueryData ecma (Some "kw=100%") query = ([], Throw URIError)
  /\ decodeQueryData ecma (Some "kw=100%") base64
     = ([IncompleteQuery], Ret (JObj [])).
Proof.
  split; [vm_compute; reflexivity|]. split; [vm_compute; reflexivity|].
  apply (decode_query_unguarded ecma "kw=100%" URIError);
    [discriminate | vm_compute; reflexivity].
Defined.

(** The registries are plain objects: a format named after a member of
    [Object.prototype] is no [TypeError] when the column is built.  What
    [toString] answers is a text, which the table cannot call; what
    [hasOwnProperty] answers is [false], so that [amend] applies; and a
    name that is nowhere is a [TypeError]. *)
Lemma inherited_format_names :
  render_value ecma [("format", JStr "toString")] (JStr "x") (JObj [])
  = Throw TypeError
  /\ (exists h, column_render ecma [("format", JStr "toString")] = Ret h
                /\ held_truthy h = true)
  /\ render_value ecma [("format", JStr "hasOwnProperty")] (JStr "") (JObj [])
     = Ret (JStr "")
  /\ render_value ecma
       [("format", JStr "hasOwnProperty"); ("amend", JBool true)]
       (JStr "") (JObj [])
     = Ret (JStr "-")
  /\ column_render ecma [("format", JStr "nothing")] = Throw TypeError.
Proof.
  split_and!; try (vm_compute; reflexivity).
  eexists. split; vm_compute; reflexivity.
Qed.

(** * The reference platform keeps the laws *)

Module EcmaFacts.
Import Ecma.

#[local] Arguments String.append : simpl nomatch.

(** ** Strings and characters *)

Lemma string_app_assoc (a b c : string) : (a +:+ b) +:+ c = a +:+ (b +:+ c).
Proof. induction a as [|x a IH]; simpl; [done | by rewrite IH]. Qed.

Lemma string_app_nil_r (a : string) : a +:+ "" = a.
Proof. induction a as [|x a IH]; simpl; [done | by rewrite IH]. Qed.

Lemma list_ascii_of_string_app (a b : string) :
  list_ascii_of_string (a +:+ b)
  = (list_ascii_of_string a ++ list_ascii_of_string b)%list.
Proof. induction a as [|x a IH]; simpl; [done | by rewrite IH]. Qed.

Lemma char_code c : char (code c) = c.
Proof. apply ascii_N_embedding. Qed.

Lemma code_char n : (n < 256)%N -> code (char n) = n.
Proof. apply N_ascii_embedding. Qed.

Lemma code_bound c : (code c < 256)%N.
Proof. apply N_ascii_bounded. Qed.

(** A property of the numbers below a bound, by enumeration. *)
Lemma forall_below (f : N -> bool) (n : nat) :
  forallb f (map N.of_nat (seq 0 n)) = true ->
  forall m, (m < N.of_nat n)%N -> f m = true.
Proof.
  intros H m Hm. rewrite forallb_forall in H. apply H.
  apply in_map_iff. exists (N.to_nat m). split; [lia|].
  apply in_seq. lia.
Qed.

(** A property of all characters, by enumeration. *)
Lemma forall_ascii (f : ascii -> bool) :
  forallb (fun n => f (char n)) (map N.of_nat (seq 0 256)) = true ->
  forall c, f c = true.
Proof.
  intros H c. rewrite <- (char_code c).
  apply (forall_below (fun n => f (char n)) 256 H). apply code_bound.
Qed.

Lemma string_ind3 (Q : string -> Prop) :
  Q "" ->
  (forall a, Q (String a "")) ->
  (forall a b, Q (String a (String b ""))) ->
  (forall a b c r, Q r -> Q (String a (String b (String c r)))) ->
  forall s, Q s.
Proof.
  intros H0 H1 H2 H3. fix IH 1.
  intros [|a [|b [|c r]]]; [apply H0 | apply H1 | apply H2 | apply H3, IH].
Qed.

(** ** URI coding *)

Lemma decode_encode_char c rest :
  decodeURIComponent (encodeURIComponent (String c rest))
  = (tl ← decodeURIComponent (encodeURIComponent rest); Ret (String c tl)).
Proof. destruct c as [[] [] [] [] [] [] [] []]; reflexivity. Qed.

Lemma decodeURIComponent_encodeURIComponent s :
  decodeURIComponent (encodeURIComponent s) = Ret s.
Proof.
  induction s as [|c s IH]; [reflexivity|].
  rewrite decode_encode_char, IH. reflexivity.
Qed.

Lemma encodeURIComponent_not_empty s : s <> "" -> encodeURIComponent s <> "".
Proof.
  destruct s as [|c s]; [done|]. intros _. simpl.
  destruct (uri_unreserved c); [discriminate|].
  destruct (code c <? 128)%N; discriminate.
Qed.

(** A text without a percent sign decodes to itself. *)
Lemma decodeURIComponent_plain s :
  forallb (fun c => negb (Ascii.eqb c "%")) (list_ascii_of_string s) = true ->
  decodeURIComponent s = Ret s.
Proof.
  induction s as [|c s IH]; simpl; [done|].
  intros [Hc Hs]%andb_true_iff. apply negb_true_iff in Hc.
  rewrite Hc, (IH Hs). reflexivity.
Qed.

(** ** Base64 *)

Lemma b64_val_char n : (n < 64)%N -> b64_val (b64_char n) = Some n.
Proof.
  intros Hn.
  pose proof (forall_below
                (fun n => match b64_val (b64_char n) with
                          | Some m => N.eqb m n
                          | None => false
                          end) 64
                ltac:(vm_compute; reflexivity) n Hn) as H.
  simpl in H. destruct (b64_val (b64_char n)) as [m|]; [|done].
  apply N.eqb_eq in H. by subst.
Qed.

Lemma b64_char_alphabet n : b64_alphabet (b64_char n) = true.
Proof.
  destruct (N.ltb_spec n 64) as [Hn|Hn].
  - exact (forall_below (fun n => b64_alphabet (b64_char n)) 64
             ltac:(vm_compute; reflexivity) n Hn).
  - unfold b64_char.
    destruct (N.ltb_spec n 26); [lia|]. destruct (N.ltb_spec n 52); [lia|].
    destruct (N.ltb_spec n 62); [lia|]. destruct (N.eqb_spec n 62); [lia|].
    reflexivity.
Qed.

Lemma b64_alphabet_plain c :
  b64_alphabet c = true ->
  is_ascii_whitespace c = false /\ Ascii.eqb c "=" = false
  /\ Ascii.eqb c "%" = false.
Proof.
  intros Hc.
  pose proof (forall_ascii
    (fun c => implb (b64_alphabet c)
                (negb (is_ascii_whitespace c) && negb (Ascii.eqb c "=")
                 && negb (Ascii.eqb c "%")))
    ltac:(vm_compute; reflexivity) c) as H.
  cbv beta in H. rewrite Hc in H. simpl in H.
  apply andb_true_iff in H as [[H1 H2]%andb_true_iff H3].
  rewrite !negb_true_iff in *. done.
Qed.

Lemma b64_sextets_3 a b c rest :
  b64_sextets (String a (String b (String c rest)))
  = (let n := code a * 65536 + code b * 256 + code c in
     n / 262144 :: (n / 4096) mod 64 :: (n / 64) mod 64 :: n mod 64
       :: b64_sextets rest)%N.
Proof. reflexivity. Qed.

Lemma b64_sextets_bound s : Forall (fun n => n < 64)%N (b64_sextets s).
Proof.
  induction s as [|a|a b|a b c r IH] using string_ind3.
  - constructor.
  - pose proof (code_bound a). simpl. repeat constructor.
    + apply N.Div0.div_lt_upper_bound. lia.
    + apply N.mod_lt. done.
  - pose proof (code_bound a). pose proof (code_bound b).
    simpl. repeat constructor.
    + apply N.Div0.div_lt_upper_bound. lia.
    + apply N.mod_lt. done.
    + apply N.mod_lt. done.
  - pose proof (code_bound a). pose proof (code_bound b).
    pose proof (code_bound c).
    rewrite b64_sextets_3. cbv zeta. repeat constructor; [| | | |exact IH].
    + apply N.Div0.div_lt_upper_bound. lia.
    + apply N.mod_lt. done.
    + apply N.mod_lt. done.
    + apply N.mod_lt. done.
Qed.

Ltac euclid := zify; Z.to_euclidean_division_equations; lia.

(** Three bytes, cut in four sextets and put together again. *)
Lemma b64_group (a b c : N) :
  (a < 256 -> b < 256 -> c < 256 ->
   let n := a * 65536 + b * 256 + c in
   let m := n / 262144 * 262144 + (n / 4096) mod 64 * 4096
            + (n / 64) mod 64 * 64 + n mod 64 in
   m / 65536 = a /\ (m / 256) mod 256 = b /\ m mod 256 = c)%N.
Proof. intros Ha Hb Hc n m. subst n m. repeat split; euclid. Qed.

Lemma b64_group2 (a b : N) :
  (a < 256 -> b < 256 ->
   let n := a * 65536 + b * 256 in
   let m := n / 262144 * 262144 + (n / 4096) mod 64 * 4096
            + (n / 64) mod 64 * 64 in
   m / 65536 = a /\ (m / 256) mod 256 = b)%N.
Proof. intros Ha Hb n m. subst n m. repeat split; euclid. Qed.

Lemma b64_group1 (a : N) :
  (a < 256 ->
   let n := a * 65536 in
   let m := n / 262144 * 262144 + (n / 4096) mod 64 * 4096 in
   m / 65536 = a)%N.
Proof. intros Ha n m. subst n m. euclid. Qed.

Lemma b64_bytes_sextets s :
  b64_bytes (b64_sextets s) = Some (list_ascii_of_string s).
Proof.
  induction s as [|a|a b|a b c r IH] using string_ind3.
  - reflexivity.
  - pose proof (b64_group1 (code a) (code_bound a)) as H. cbv zeta in H.
    cbn [b64_sextets b64_bytes list_ascii_of_string].
    rewrite H, char_code. reflexivity.
  - pose proof (b64_group2 (code a) (code b) (code_bound a) (code_bound b))
      as [H1 H2]. cbn [b64_sextets b64_bytes list_ascii_of_string].
    rewrite H1, H2, !char_code. reflexivity.
  - pose proof (b64_group (code a) (code b) (code c) (code_bound a)
                  (code_bound b) (code_bound c)) as (H1 & H2 & H3).
    rewrite b64_sextets_3. cbv zeta. cbn [b64_bytes list_ascii_of_string].
    rewrite IH. cbn [mbind option_bind]. rewrite H1, H2, H3, !char_code.
    reflexivity.
Qed.


Lemma mapM_b64_val l :
  Forall (fun n => n < 64)%N l -> mapM b64_val (map b64_char l) = Some l.
Proof.
  induction 1 as [|n l Hn _ IH]; [reflexivity|].
  simpl. rewrite (b64_val_char n Hn). simpl. rewrite IH. reflexivity.
Qed.

Lemma b64_padding_cases s :
  b64_padding s = "" \/ b64_padding s = "=" \/ b64_padding s = "==".
Proof.
  unfold b64_padding. destruct (String.length s mod 3)%nat as [|[|[|n]]]; auto.
Qed.

Lemma b64_padding_3 a b c r :
  b64_padding (String a (String b (String c r))) = b64_padding r.
Proof.
  unfold b64_padding. cbn [String.length].
  replace (S (S (S (String.length r)))) with (String.length r + 1 * 3)%nat
    by lia.
  rewrite Nat.Div0.mod_add. reflexivity.
Qed.

Lemma btoa_length s :
  ((length (b64_sextets s) + String.length (b64_padding s)) mod 4 = 0)%nat.
Proof.
  induction s as [|a|a b|a b c r IH] using string_ind3;
    [reflexivity | reflexivity | reflexivity |].
  rewrite b64_padding_3, b64_sextets_3. cbv zeta. cbn [length].
  replace (S (S (S (S (length (b64_sextets r)))))
             + String.length (b64_padding r))%nat
    with (length (b64_sextets r) + String.length (b64_padding r) + 1 * 4)%nat
    by lia.
  rewrite Nat.Div0.mod_add. exact IH.
Qed.

Lemma string_length_list s : String.length s = length (list_ascii_of_string s).
Proof. induction s as [|c s IH]; simpl; [done | by rewrite IH]. Qed.

(** The characters of [btoa s]: the sextets, then the padding. *)
Lemma btoa_chars s :
  list_ascii_of_string (btoa s)
  = (map b64_char (b64_sextets s)
       ++ list_ascii_of_string (b64_padding s))%list.
Proof.
  unfold btoa.
  rewrite list_ascii_of_string_app, list_ascii_of_string_of_list_ascii.
  reflexivity.
Qed.

Lemma strip_padding_spec body pad :
  Forall (fun c => Ascii.eqb c "=" = false) body ->
  pad = [] \/ pad = ["="%char] \/ pad = ["="%char; "="%char] ->
  (length (body ++ pad) mod 4 = 0)%nat ->
  strip_padding (body ++ pad) = body.
Proof.
  intros Hbody Hpad Hlen. unfold strip_padding. rewrite Hlen. simpl.
  rewrite rev_app_distr.
  assert (Hrev : forall c l, rev body = c :: l -> Ascii.eqb c "=" = false).
  { intros c l Hr. rewrite Forall_forall in Hbody. apply Hbody.
    apply list_elem_of_In, in_rev. rewrite Hr. left. reflexivity. }
  destruct Hpad as [-> | [-> | ->]]; simpl.
  - rewrite app_nil_r. destruct (rev body) as [|c1 l1] eqn:Hr; [done|].
    by rewrite (Hrev c1 l1).
  - destruct (rev body) as [|c2 l2] eqn:Hr.
    + simpl. apply (f_equal (@rev ascii)) in Hr.
      rewrite rev_involutive in Hr. by rewrite Hr.
    + rewrite (Hrev c2 l2) by done. rewrite <- Hr. apply rev_involutive.
  - apply rev_involutive.
Qed.

Lemma atob_btoa s : atob (btoa s) = Ret s.
Proof.
  unfold atob. rewrite btoa_chars.
  set (body := map b64_char (b64_sextets s)).
  set (pad := list_ascii_of_string (b64_padding s)).
  assert (Hbody : Forall (fun c => b64_alphabet c = true) body).
  { apply Forall_forall. intros c [n [-> _]]%list_elem_of_fmap.
    apply b64_char_alphabet. }
  assert (Hpad : pad = [] \/ pad = ["="%char] \/ pad = ["="%char; "="%char]).
  { subst pad. destruct (b64_padding_cases s) as [-> | [-> | ->]]; auto. }
  assert (Hfilter :
            List.filter (fun c => negb (is_ascii_whitespace c))
                        (body ++ pad)%list = (body ++ pad)%list).
  { apply forallb_filter_id. rewrite forallb_app. apply andb_true_iff. split.
    - apply forallb_forall. intros c Hc%list_elem_of_In.
      rewrite Forall_forall in Hbody.
      destruct (b64_alphabet_plain c (Hbody c Hc)) as (-> & _). done.
    - destruct Hpad as [-> | [-> | ->]]; reflexivity. }
  rewrite Hfilter, strip_padding_spec.
  - subst body. rewrite (mapM_b64_val _ (b64_sextets_bound s)).
    cbn [mbind option_bind]. rewrite b64_bytes_sextets.
    by rewrite string_of_list_ascii_of_string.
  - eapply Forall_impl; [exact Hbody|]. intros c Hc.
    by destruct (b64_alphabet_plain c Hc) as (_ & -> & _).
  - exact Hpad.
  - rewrite length_app. subst body pad.
    rewrite length_map, <- string_length_list. apply btoa_length.
Qed.

Lemma decodeURIComponent_btoa s : decodeURIComponent (btoa s) = Ret (btoa s).
Proof.
  apply decodeURIComponent_plain. rewrite btoa_chars, forallb_app.
  apply andb_true_iff. split.
  - apply forallb_forall. intros c Hc. apply in_map_iff in Hc as (n & <- & _).
    destruct (b64_alphabet_plain _ (b64_char_alphabet n)) as (_ & _ & ->).
    done.
  - destruct (b64_padding_cases s) as [-> | [-> | ->]]; reflexivity.
Qed.

Lemma btoa_not_empty s : s <> "" -> btoa s <> "".
Proof.
  destruct s as [|a [|b [|c r]]]; [done| | |]; intros _ H;
    apply (f_equal list_ascii_of_string) in H; rewrite btoa_chars in H;
    discriminate H.
Qed.

End EcmaFacts.

(** ** JSON: tokens *)

Module JsonTokens.
Import Ecma EcmaFacts.

#[local] Arguments String.append : simpl nomatch.

Lemma string_length_app (a b : string) :
  String.length (a +:+ b) = (String.length a + String.length b)%nat.
Proof. induction a as [|x a IH]; simpl; [done | by rewrite IH]. Qed.

(** Decide the comparisons of known characters. *)
Ltac eqb_chars :=
  repeat match goal with
         | |- context [Ascii.eqb ?a ?b] =>
             let r := eval vm_compute in (Ascii.eqb a b) in
             lazymatch r with
             | true => change (Ascii.eqb a b) with true
             | false => change (Ascii.eqb a b) with false
             end
         end.

(** *** Numbers *)

Lemma pretty_N_char_digit k :
  (k < 10)%N ->
  is_digit (pretty_N_char k) = true /\ (code (pretty_N_char k) - 48)%N = k.
Proof.
  intros Hk.
  pose proof (forall_below
    (fun k => is_digit (pretty_N_char k)
              && N.eqb (code (pretty_N_char k) - 48) k) 10
    ltac:(vm_compute; reflexivity) k Hk) as H.
  cbv beta in H. apply andb_true_iff in H as [H1 H2].
  apply N.eqb_eq in H2. done.
Qed.

Lemma pretty_N_go_app x a s : pretty_N_go x a +:+ s = pretty_N_go x (a +:+ s).
Proof.
  revert a. induction (N.lt_wf_0 x) as [x _ IH]. intros a.
  destruct (N.eq_dec x 0%N) as [->|Hx].
  - by rewrite !pretty_N_go_0.
  - rewrite !(pretty_N_go_step x) by lia.
    rewrite IH by (apply N.div_lt; lia). reflexivity.
Qed.

(** Reading the digits of [x] continues the number read so far. *)
Lemma parse_digits_go x :
  exists m, forall acc s,
    parse_digits acc (pretty_N_go x s) = parse_digits (acc * m + x)%N s.
Proof.
  induction (N.lt_wf_0 x) as [x _ IH].
  destruct (N.eq_dec x 0%N) as [->|Hx].
  - exists 1%N. intros acc s. rewrite pretty_N_go_0. f_equal. lia.
  - destruct (IH (x / 10)%N) as [m Hm]; [apply N.div_lt; lia|].
    exists (m * 10)%N. intros acc s.
    rewrite pretty_N_go_step by lia. rewrite Hm. simpl.
    destruct (pretty_N_char_digit (x mod 10)) as [-> ->].
    { apply N.mod_lt. done. }
    f_equal. pose proof (N.div_mod x 10 ltac:(done)). lia.
Qed.

Lemma parse_digits_end acc rest :
  number_end rest = true -> parse_digits acc rest = (acc, rest).
Proof.
  destruct rest as [|c rest]; [reflexivity|]. unfold number_end. simpl.
  intros H. apply negb_true_iff in H.
  destruct (is_digit c); [discriminate | reflexivity].
Qed.

(** The numeral of a positive number starts with a digit that is not 0. *)
Lemma pretty_N_go_start x s :
  (0 < x)%N ->
  exists c t, pretty_N_go x s = String c t
              /\ is_digit c = true /\ Ascii.eqb c "0" = false.
Proof.
  revert s. induction (N.lt_wf_0 x) as [x _ IH]. intros s Hx.
  rewrite pretty_N_go_step by done.
  destruct (N.eq_dec (x / 10)%N 0%N) as [Hq|Hq].
  - rewrite Hq, pretty_N_go_0. eexists _, _. split; [reflexivity|].
    assert (Hlt : (x < 10)%N).
    { apply N.div_small_iff in Hq; [done | done]. }
    rewrite N.mod_small by done.
    pose proof (forall_below
      (fun k => N.eqb k 0
                || (is_digit (pretty_N_char k)
                    && negb (Ascii.eqb (pretty_N_char k) "0"))) 10
      ltac:(vm_compute; reflexivity) x Hlt) as H.
    cbv beta in H. apply orb_true_iff in H as [H|H].
    + apply N.eqb_eq in H. lia.
    + apply andb_true_iff in H as [H1 H2]. apply negb_true_iff in H2. done.
  - apply IH; [apply N.div_lt; lia | by apply N.neq_0_lt_0].
Qed.

Lemma parse_unsigned_pretty p neg rest :
  number_end rest = true ->
  parse_unsigned neg (pretty (Npos p) +:+ rest)
  = Some (Fin (signed neg (Npos p)), rest).
Proof.
  intros Hend. unfold pretty, pretty_N. rewrite decide_False by done.
  rewrite pretty_N_go_app. simpl (_ +:+ _).
  destruct (pretty_N_go_start (Npos p) rest) as (c & t & Ht & Hd & H0);
    [done|].
  unfold parse_unsigned. rewrite Ht, Hd, H0, <- Ht.
  destruct (parse_digits_go (Npos p)) as [m Hm]. rewrite Hm.
  rewrite parse_digits_end by done.
  unfold number_end in Hend. apply negb_true_iff in Hend.
  rewrite Hend. reflexivity.
Qed.

Lemma digit_not_minus c : is_digit c = true -> Ascii.eqb c "-" = false.
Proof.
  intros Hd.
  pose proof (forall_ascii
    (fun c => implb (is_digit c) (negb (Ascii.eqb c "-")))
    ltac:(vm_compute; reflexivity) c) as H.
  cbv beta in H. rewrite Hd in H. simpl in H. by apply negb_true_iff in H.
Qed.

Lemma parse_number_pretty z rest :
  number_end rest = true ->
  parse_number (pretty z +:+ rest) = Some (Fin z, rest).
Proof.
  intros Hend. destruct z as [|p|p].
  - change (pretty 0%Z) with "0". simpl.
    unfold number_end in Hend. apply negb_true_iff in Hend. rewrite Hend.
    reflexivity.
  - change (pretty (Z.pos p)) with (pretty (Npos p)).
    pose proof (parse_unsigned_pretty p false rest Hend) as H.
    unfold parse_number. revert H. unfold pretty, pretty_N.
    rewrite decide_False by done. rewrite pretty_N_go_app. simpl (_ +:+ _).
    destruct (pretty_N_go_start (Npos p) rest) as (c & t & Ht & Hd & H0);
      [done|].
    rewrite Ht, (digit_not_minus c Hd). done.
  - change (pretty (Z.neg p)) with ("-" +:+ pretty (Npos p)).
    simpl. apply (parse_unsigned_pretty p true rest Hend).
Qed.

End JsonTokens.

(** ** JSON: texts *)

Module JsonText.
Import Ecma EcmaFacts JsonTokens.

#[local] Arguments String.append : simpl nomatch.

(** *** Strings *)

Lemma json_escape_app c t s : json_escape c t +:+ s = json_escape c (t +:+ s).
Proof. destruct c as [[] [] [] [] [] [] [] []]; reflexivity. Qed.

Lemma parse_string_escape c t :
  parse_string_body (json_escape c t)
  = ('(u, r) ← parse_string_body t; Some (String c u, r)).
Proof. destruct c as [[] [] [] [] [] [] [] []]; reflexivity. Qed.

Lemma parse_string_quote s rest :
  parse_string_body (json_quote_body s +:+ String dquote rest) = Some (s, rest).
Proof.
  induction s as [|c s IH]; [reflexivity|].
  cbn [json_quote_body]. rewrite json_escape_app, parse_string_escape, IH.
  reflexivity.
Qed.

Lemma json_quote_app s rest :
  json_quote s +:+ rest
  = String dquote (json_quote_body s +:+ String dquote rest).
Proof.
  unfold json_quote. simpl. by rewrite string_app_assoc.
Qed.

(** *** The printer, by its parts *)

Lemma json_value_arr l : json_value (JArr l) = "[" +:+ json_elements l +:+ "]".
Proof. reflexivity. Qed.

Lemma json_value_obj o :
  json_value (JObj o) = "{" +:+ json_members true o +:+ "}".
Proof. reflexivity. Qed.

(** Induction on values, through arrays and objects. *)
Section NestedInduction.

Variable Q : JsValue -> Prop.
Hypothesis Hundefined : Q JUndefined.
Hypothesis Hnull : Q JNull.
Hypothesis Hbool : forall b, Q (JBool b).
Hypothesis Hnum : forall n, Q (JNum n).
Hypothesis Hstr : forall s, Q (JStr s).
Hypothesis Harr : forall l, Forall Q l -> Q (JArr l).
Hypothesis Hobj : forall o, Forall (fun kv => Q (snd kv)) o -> Q (JObj o).
Hypothesis Henum : forall tag, Q (JEnum tag).

Fixpoint JsValue_nested_ind (v : JsValue) : Q v :=
  match v with
  | JUndefined => Hundefined
  | JNull => Hnull
  | JBool b => Hbool b
  | JNum n => Hnum n
  | JStr s => Hstr s
  | JArr l =>
      Harr l
        ((fix all (l : list JsValue) : Forall Q l :=
            match l with
            | [] => Forall_nil_2 Q
            | x :: l' => Forall_cons_2 Q x l' (JsValue_nested_ind x) (all l')
            end) l)
  | JObj o =>
      Hobj o
        ((fix all (o : payload) : Forall (fun kv => Q (snd kv)) o :=
            match o with
            | [] => Forall_nil_2 _
            | (k, x) :: o' =>
                Forall_cons_2 _ (k, x) o' (JsValue_nested_ind x) (all o')
            end) o)
  | JEnum tag => Henum tag
  end.

End NestedInduction.

(** *** The first character of a text *)

Lemma json_value_start v :
  exists c t, json_value v = String c t /\ value_start c = true.
Proof.
  destruct v as [| |[]|[|neg|z]|s|l|o|tag];
    try (eexists _, _; split; [reflexivity | reflexivity]).
  destruct z as [|p|p].
  - eexists _, _. split; reflexivity.
  - change (json_value (JNum (Fin (Z.pos p)))) with (pretty (Npos p)).
    unfold pretty, pretty_N. rewrite decide_False by done.
    destruct (pretty_N_go_start (Npos p) "") as (c & t & -> & Hd & _);
      [done|].
    exists c, t. split; [reflexivity|]. unfold value_start. rewrite Hd.
    by rewrite !orb_true_r.
  - eexists _, _. split; reflexivity.
Qed.

Lemma value_start_plain c :
  value_start c = true ->
  is_json_ws c = false /\ Ascii.eqb c "]" = false /\ Ascii.eqb c "}" = false
  /\ Ascii.eqb c "," = false.
Proof.
  intros Hc.
  pose proof (forall_ascii
    (fun c => implb (value_start c)
                (negb (is_json_ws c) && negb (Ascii.eqb c "]")
                 && negb (Ascii.eqb c "}") && negb (Ascii.eqb c ",")))
    ltac:(vm_compute; reflexivity) c) as H.
  cbv beta in H. rewrite Hc in H. simpl in H.
  apply andb_true_iff in H as [[[H1 H2]%andb_true_iff H3]%andb_true_iff H4].
  rewrite !negb_true_iff in *. done.
Qed.

(** A number does not start like another kind of value. *)
Lemma number_start_plain c :
  Ascii.eqb c "-" || is_digit c = true ->
  Ascii.eqb c "{" = false /\ Ascii.eqb c "[" = false
  /\ Ascii.eqb c dquote = false /\ Ascii.eqb c "t" = false
  /\ Ascii.eqb c "f" = false /\ Ascii.eqb c "n" = false.
Proof.
  intros Hc.
  pose proof (forall_ascii
    (fun c => implb (Ascii.eqb c "-" || is_digit c)
                (negb (Ascii.eqb c "{") && negb (Ascii.eqb c "[")
                 && negb (Ascii.eqb c dquote) && negb (Ascii.eqb c "t")
                 && negb (Ascii.eqb c "f") && negb (Ascii.eqb c "n")))
    ltac:(vm_compute; reflexivity) c) as H.
  cbv beta in H. rewrite Hc in H. simpl in H.
  repeat (apply andb_true_iff in H as [H ?]).
  rewrite !negb_true_iff in *. done.
Qed.

Lemma skip_ws_start c t : is_json_ws c = false -> skip_ws (String c t) = String c t.
Proof. intros H. simpl. by rewrite H. Qed.

Lemma expect_here c t : is_json_ws c = false -> expect c (String c t) = Some t.
Proof.
  intros H. unfold expect. rewrite skip_ws_start by done.
  by rewrite Ascii.eqb_refl.
Qed.

Lemma expect_other c c' t :
  is_json_ws c' = false -> Ascii.eqb c' c = false ->
  expect c (String c' t) = None.
Proof.
  intros H Hne. unfold expect. rewrite skip_ws_start by done. by rewrite Hne.
Qed.


(** *** The parser, step by step *)

Lemma parse_value_S f s :
  parse_value (S f) s
  = match skip_ws s with
    | EmptyString => None
    | String c r =>
        if Ascii.eqb c "{" then
          match expect "}" r with
          | Some rest => Some (JObj [], rest)
          | None => '(o, rest) ← parse_members f [] r; Some (JObj o, rest)
          end
        else if Ascii.eqb c "[" then
          match expect "]" r with
          | Some rest => Some (JArr [], rest)
          | None => '(l, rest) ← parse_elements f r; Some (JArr l, rest)
          end
        else if Ascii.eqb c dquote then
          '(t, rest) ← parse_string_body r; Some (JStr t, rest)
        else if Ascii.eqb c "t" then
          rest ← strip_prefix "rue" r; Some (JBool true, rest)
        else if Ascii.eqb c "f" then
          rest ← strip_prefix "alse" r; Some (JBool false, rest)
        else if Ascii.eqb c "n" then
          rest ← strip_prefix "ull" r; Some (JNull, rest)
        else '(n, rest) ← parse_number (String c r); Some (JNum n, rest)
    end.
Proof. reflexivity. Qed.

Lemma parse_elements_S f s :
  parse_elements (S f) s
  = ('(v, rest) ← parse_value f s;
     match expect "," rest with
     | Some rest' =>
         '(l, rest'') ← parse_elements f rest'; Some (v :: l, rest'')
     | None => rest' ← expect "]" rest; Some ([v], rest')
     end).
Proof. reflexivity. Qed.

Lemma parse_members_S f acc s :
  parse_members (S f) acc s
  = (r ← expect dquote s;
     '(k, rest) ← parse_string_body r;
     rest1 ← expect ":" rest;
     '(v, rest2) ← parse_value f rest1;
     let acc' := obj_set k v acc in
     match expect "," rest2 with
     | Some rest3 => parse_members f acc' rest3
     | None => rest3 ← expect "}" rest2; Some (acc', rest3)
     end).
Proof. reflexivity. Qed.

(** *** Parsing what was printed *)

Lemma json_safe_kept v : json_safe v = true -> json_omitted v = false.
Proof. destruct v; simpl; congruence. Qed.

Lemma json_value_length v : (1 <= String.length (json_value v))%nat.
Proof.
  destruct (json_value_start v) as (c & t & -> & _). simpl. lia.
Qed.

Lemma parse_elements_ok l :
  l <> [] ->
  Forall parse_ok l ->
  forallb json_safe l = true ->
  forall fuel rest,
    (String.length (json_elements l) + 1 <= fuel)%nat ->
    parse_elements fuel (json_elements l +:+ String "]" rest) = Some (l, rest).
Proof.
  induction l as [|x l IH]; [done|]. intros _ Hall Hsafe fuel rest Hfuel.
  apply Forall_cons in Hall as [Hx Hall].
  apply andb_true_iff in Hsafe as [Hsx Hsafe].
  destruct fuel as [|f]; [lia|]. rewrite parse_elements_S.
  destruct l as [|y l'].
  - cbn [json_elements] in *. rewrite string_app_nil_r in *.
    rewrite (Hx Hsx f (String "]" rest)) by (done || lia).
    cbn [mbind option_bind].
    rewrite expect_other, expect_here by reflexivity. reflexivity.
  - assert (Hrest :
              json_elements (x :: y :: l') +:+ String "]" rest
              = json_value x
                +:+ String "," (json_elements (y :: l') +:+ String "]" rest)).
    { cbn [json_elements]. by rewrite string_app_assoc. }
    assert (Hlen : String.length (json_elements (x :: y :: l'))
                   = (String.length (json_value x) + 1
                      + String.length (json_elements (y :: l')))%nat).
    { cbn [json_elements]. rewrite string_length_app. simpl. lia. }
    rewrite Hrest, (Hx Hsx f) by (done || lia).
    cbn [mbind option_bind]. rewrite expect_here by reflexivity.
    rewrite IH by (done || lia). reflexivity.
Qed.

Lemma json_members_cons first k x o :
  json_safe x = true ->
  json_members first ((k, x) :: o)
  = (if first then "" else ",") +:+ json_quote k +:+ ":" +:+ json_value x
    +:+ json_members false o.
Proof. intros Hx. cbn [json_members]. by rewrite (json_safe_kept x Hx). Qed.

Lemma json_members_end o rest :
  forallb (fun kv => match kv with (_, x) => json_safe x end) o = true ->
  number_end (json_members false o +:+ String "}" rest) = true.
Proof.
  destruct o as [|[k x] o]; [reflexivity|].
  intros [Hx _]%andb_true_iff. rewrite json_members_cons by done.
  reflexivity.
Qed.

Lemma app_char (c : ascii) (t : string) : String c "" +:+ t = String c t.
Proof. reflexivity. Qed.

Lemma app_empty (t : string) : "" +:+ t = t.
Proof. reflexivity. Qed.

(** One member: the name, the colon, the value. *)
Lemma parse_member k x acc f tail :
  parse_ok x -> json_safe x = true ->
  (String.length (json_value x) <= f)%nat ->
  number_end tail = true ->
  parse_members (S f) acc (json_quote k +:+ ":" +:+ json_value x +:+ tail)
  = match expect "," tail with
    | Some rest3 => parse_members f (obj_set k x acc) rest3
    | None => rest3 ← expect "}" tail; Some (obj_set k x acc, rest3)
    end.
Proof.
  intros Hx Hsx Hf Hend. rewrite parse_members_S.
  rewrite json_quote_app. rewrite expect_here by reflexivity.
  cbn [mbind option_bind]. rewrite parse_string_quote.
  cbn [mbind option_bind]. rewrite app_char.
  rewrite expect_here by reflexivity. cbn [mbind option_bind].
  rewrite (Hx Hsx f tail) by done. reflexivity.
Qed.

Lemma parse_members_ok o :
  forall k x acc fuel rest,
    Forall (fun kv => parse_ok (snd kv)) ((k, x) :: o) ->
    forallb (fun kv => match kv with (_, x) => json_safe x end)
            ((k, x) :: o) = true ->
    NoDup (map fst (acc ++ (k, x) :: o)) ->
    (String.length (json_members false ((k, x) :: o)) <= fuel)%nat ->
    parse_members fuel acc
      (json_quote k +:+ ":" +:+ json_value x +:+ json_members false o
         +:+ String "}" rest)
    = Some ((acc ++ (k, x) :: o)%list, rest).
Proof.
  induction o as [|[k' x'] o IH]; intros k x acc fuel rest Hall Hsafe Hnd Hfuel;
    apply Forall_cons in Hall as [Hx Hall]; cbn [snd] in Hx;
    pose proof Hsafe as [Hsx Hsafe']%andb_true_iff;
    rewrite json_members_cons in Hfuel by done;
    rewrite !string_length_app in Hfuel; cbn [String.length] in Hfuel;
    (destruct fuel as [|f]; [lia|]);
    (assert (Hfresh : obj_set k x acc = (acc ++ [(k, x)])%list);
     [ apply obj_set_fresh; rewrite map_app in Hnd;
       apply NoDup_app in Hnd as (_ & Hdis & _);
       intros Hin; apply (Hdis k Hin); simpl; apply list_elem_of_here |]).
  - cbn [json_members]. rewrite app_empty.
    rewrite parse_member by (done || lia).
    rewrite expect_other, expect_here by reflexivity.
    cbn [mbind option_bind]. by rewrite Hfresh.
  - pose proof Hsafe' as [Hsx' _]%andb_true_iff.
    rewrite parse_member; [ | done | done | lia | by apply json_members_end].
    rewrite (json_members_cons false k' x') by done.
    rewrite !string_app_assoc, app_char.
    rewrite expect_here by reflexivity. rewrite Hfresh.
    rewrite (IH k' x' (acc ++ [(k, x)])%list f rest); try done.
    + by rewrite <- app_assoc.
    + by rewrite <- app_assoc.
    + rewrite (json_members_cons false k' x') in Hfuel by done.
      rewrite json_members_cons by done. lia.
Qed.

Lemma pretty_Z_start (z : Z) rest :
  exists c t, pretty z +:+ rest = String c t
              /\ (Ascii.eqb c "-" || is_digit c = true)
              /\ is_json_ws c = false.
Proof.
  assert (Hws : forall c, Ascii.eqb c "-" || is_digit c = true ->
                          is_json_ws c = false).
  { intros c Hc.
    pose proof (forall_ascii
      (fun c => implb (Ascii.eqb c "-" || is_digit c) (negb (is_json_ws c)))
      ltac:(vm_compute; reflexivity) c) as H.
    cbv beta in H. rewrite Hc in H. simpl in H. by apply negb_true_iff in H. }
  destruct z as [|p|p].
  - eexists _, _. split; [reflexivity|]. split; reflexivity.
  - change (pretty (Z.pos p)) with (pretty (Npos p)).
    unfold pretty, pretty_N. rewrite decide_False by done.
    rewrite pretty_N_go_app.
    destruct (pretty_N_go_start (Npos p) ("" +:+ rest))
      as (c & t & -> & Hd & _); [done|].
    exists c, t. split; [reflexivity|].
    assert (Hc : Ascii.eqb c "-" || is_digit c = true)
      by (rewrite Hd; apply orb_true_r).
    split; [exact Hc | apply Hws, Hc].
  - eexists _, _. split; [reflexivity|]. split; reflexivity.
Qed.

Lemma parse_value_ok v : parse_ok v.
Proof.
  induction v as [| |b|n|s|l IH|o IH|tag] using JsValue_nested_ind;
    unfold parse_ok; intros Hsafe fuel rest Hfuel Hend;
    try discriminate Hsafe;
    match goal with
    | H : (String.length (json_value ?v) <= _)%nat |- _ =>
        pose proof (json_value_length v) as Hlen
    end;
    (destruct fuel as [|f]; [lia|]); clear Hlen.
  - reflexivity.
  - destruct b; reflexivity.
  - destruct n as [| |z]; try discriminate Hsafe.
    change (json_value (JNum (Fin z))) with (pretty z).
    destruct (pretty_Z_start z rest) as (c & t & Ht & Hc & Hws).
    rewrite parse_value_S, Ht, skip_ws_start by done.
    destruct (number_start_plain c Hc) as (-> & -> & -> & -> & -> & ->).
    rewrite <- Ht, parse_number_pretty by done. reflexivity.
  - change (json_value (JStr s)) with (json_quote s).
    rewrite parse_value_S, json_quote_app, skip_ws_start by reflexivity.
    eqb_chars. cbv iota. rewrite parse_string_quote. reflexivity.
  - rewrite json_value_arr in *. rewrite !string_app_assoc, app_char.
    rewrite !string_length_app in Hfuel. cbn [String.length] in Hfuel.
    rewrite parse_value_S, skip_ws_start by reflexivity.
    eqb_chars. cbv iota. cbn [json_safe] in Hsafe.
    destruct l as [|x l].
    + cbn [json_elements]. rewrite app_empty, app_char.
      rewrite expect_here by reflexivity. reflexivity.
    + destruct (json_value_start x) as (c & t & Hx & Hc).
      destruct (value_start_plain c Hc) as (Hws & Hb & _ & _).
      assert (Hel : exists t', json_elements (x :: l) +:+ "]" +:+ rest
                               = String c t') .
      { cbn [json_elements]. rewrite Hx. eexists. reflexivity. }
      destruct Hel as [t' Hel]. rewrite Hel.
      rewrite expect_other by done. rewrite <- Hel, (app_char "]" rest).
      rewrite parse_elements_ok by (done || lia). reflexivity.
  - rewrite json_value_obj in *. rewrite !string_app_assoc, app_char.
    rewrite !string_length_app in Hfuel. cbn [String.length] in Hfuel.
    rewrite parse_value_S, skip_ws_start by reflexivity.
    eqb_chars. cbv iota. cbn [json_safe] in Hsafe.
    apply andb_true_iff in Hsafe as [Hnd Hsafe].
    apply bool_decide_eq_true in Hnd.
    destruct o as [|[k x] o].
    + cbn [json_members]. rewrite app_empty, app_char.
      rewrite expect_here by reflexivity. reflexivity.
    + pose proof Hsafe as [Hsx _]%andb_true_iff.
      rewrite json_members_cons in * by done.
      rewrite app_empty, !string_app_assoc in *.
      rewrite (app_char "}" rest).
      assert (Hel : exists t',
                json_quote k +:+ ":" +:+ json_value x
                  +:+ json_members false o +:+ String "}" rest
                = String dquote t').
      { rewrite json_quote_app. eexists. reflexivity. }
      destruct Hel as [t' Hel]. rewrite Hel.
      rewrite expect_other by reflexivity. rewrite <- Hel.
      rewrite (parse_members_ok o k x [] f rest); try done.
      rewrite json_members_cons by done.
      rewrite !string_length_app in *. cbn [String.length] in *. lia.
Qed.

Lemma JSON_parse_stringify o :
  json_safe (JObj o) = true ->
  JSON_parse (JSON_stringify (JObj o)) = Ret (JObj o).
Proof.
  intros Hsafe. unfold JSON_stringify, JSON_parse. cbn [json_omitted].
  pose proof (parse_value_ok (JObj o) Hsafe
                (S (String.length (json_value (JObj o)))) ""
                ltac:(lia) eq_refl) as H.
  rewrite string_app_nil_r in H. rewrite H. reflexivity.
Qed.

Lemma JSON_stringify_not_empty o : JSON_stringify (JObj o) <> "".
Proof.
  unfold JSON_stringify. cbn [json_omitted]. rewrite json_value_obj.
  discriminate.
Qed.

End JsonText.

(** The reference platform keeps the laws of the codec. *)
Lemma ecma_laws : CodecLaws ecma.
Proof.
  split; simpl.
  - apply JsonText.JSON_parse_stringify.
  - apply JsonText.JSON_stringify_not_empty.
  - apply EcmaFacts.decodeURIComponent_encodeURIComponent.
  - apply EcmaFacts.encodeURIComponent_not_empty.
  - apply EcmaFacts.atob_btoa.
  - apply EcmaFacts.btoa_not_empty.
  - apply EcmaFacts.decodeURIComponent_btoa.
Qed.

(** ** The round trip of the codec *)

(** The entries that the [base64] format writes, when none is named
    [__proto__]: the useful ones. *)
Lemma filter_stored_all (qd : payload) :
  obj_get "__proto__" qd = None ->
  List.filter (fun kv => isUsefulValue (snd kv)
                         && negb (String.eqb (fst kv) "__proto__")) qd
  = List.filter (fun kv => isUsefulValue (snd kv)) qd.
Proof.
  induction qd as [|[k v] qd IH]; [done|].
  cbn [obj_get List.filter fst snd]. rewrite (String.eqb_sym k "__proto__").
  destruct (String.eqb "__proto__" k); [intros Hnone; discriminate Hnone|].
  intros Hnone. rewrite (IH Hnone), andb_true_r. reflexivity.
Qed.

(** C5, as the code has it.  On a platform that keeps the laws of the codec,
    a payload whose entries are all useful, whose values are all held
    exactly by a JSON text and none of whose entries is named [__proto__] is
    encoded in the [base64] format to a text that decodes to the same
    payload, without a warning. *)
Theorem decode_encode_base64 P qd :
  CodecLaws P ->
  json_safe (JObj qd) = true ->
  forallb (fun kv => isUsefulValue (snd kv)) qd = true ->
  obj_get "__proto__" qd = None ->
  decodeQueryData P (Some (encodeQueryData P (Some qd) base64)) base64
  = ([], Ret (JObj qd)).
Proof.
  intros [Hjson Hjne Huri Hune Hb64 Hbne Hplain] Hsafe Huseful Hproto.
  assert (Hwf : wf_obj qd).
  { cbn [json_safe] in Hsafe. apply andb_true_iff in Hsafe as [Hnd _].
    by apply bool_decide_eq_true in Hnd. }
  assert (Hall : List.filter (fun kv => isUsefulValue (snd kv)) qd = qd).
  { by apply forallb_filter_id. }
  unfold encodeQueryData.
  rewrite filtered_query_spec, useful_keys_spec, filter_stored_all, Hall
    by done.
  destruct qd as [|kv qd]; [reflexivity|].
  cbn [Object_keys map length Nat.eqb negb].
  set (j := JSON_stringify P (JObj (kv :: qd))).
  set (u := encodeURIComponent P j).
  assert (Hne : btoa P u <> "").
  { apply Hbne, Hune, Hjne. }
  unfold decodeQueryData. apply String.eqb_neq in Hne. rewrite Hne.
  cbn [negb]. unfold parse_base64.
  rewrite Hplain. cbn [mbind outcome_bind]. rewrite Hb64.
  cbn [mbind outcome_bind]. subst u. rewrite Huri.
  cbn [mbind outcome_bind]. subst j. rewrite Hjson by done. reflexivity.
Qed.

(** C5 on the example query, on the reference platform. *)
Lemma decode_encode_base64_witness :
  decodeQueryData ecma (Some (encodeQueryData ecma (Some demo_query) base64))
    base64
  = ([], Ret (JObj demo_query)).
Proof.
  apply (decode_encode_base64 ecma demo_query ecma_laws);
    vm_compute; reflexivity.
Defined.

(** C5, as stated, fails: [NaN] is a useful value and so is an array that
    holds [undefined], and JSON writes both as [null]; and an entry named
    [__proto__], as the JSON text of a link can hold one, is not written at
    all. *)
Lemma base64_round_trip_loses_values :
  forallb (fun kv => isUsefulValue (snd kv))
    [("n", JNum NaN); ("a", JArr [JUndefined])] = true
  /\ decodeQueryData ecma
       (Some (encodeQueryData ecma
                (Some [("n", JNum NaN); ("a", JArr [JUndefined])]) base64))
       base64
     = ([], Ret (JObj [("n", JNull); ("a", JArr [JNull])]))
  /\ forallb (fun kv => isUsefulValue (snd kv))
       [("__proto__", JStr "x"); ("a", JStr "y")] = true
  /\ json_safe (JObj [("__proto__", JStr "x"); ("a", JStr "y")]) = true
  /\ decodeQueryData ecma
       (Some (encodeQueryData ecma
                (Some [("__proto__", JStr "x"); ("a", JStr "y")]) base64))
       base64
     = ([], Ret (JObj [("a", JStr "y")])).
Proof. repeat split; vm_compute; reflexivity. Qed.
(** * More of the search engine *)

(** ** Persisting and reading back *)

Section Persistence.

Variable P : Platform.
Hypothesis laws : CodecLaws P.

Abbreviation useful := (List.filter (fun kv => isUsefulValue (snd kv))).

(** The entries that the [base64] format writes: the useful ones, but for
    an entry named [__proto__]. *)
Abbreviation stored :=
  (List.filter (fun kv => isUsefulValue (snd kv)
                          && negb (String.eqb (fst kv) "__proto__"))).

(** The three decoding steps after the first, on an encoded text. *)
Lemma decode_steps_encoded o :
  json_safe (JObj o) = true ->
  (s ← atob P (btoa P (encodeURIComponent P (JSON_stringify P (JObj o))));
   u ← decodeURIComponent P s;
   JSON_parse P u) = Ret (JObj o).
Proof.
  intros Hsafe. destruct laws as [Hjson _ Huri _ Hb64 _ _].
  rewrite Hb64. cbn [mbind outcome_bind]. rewrite Huri.
  cbn [mbind outcome_bind]. by apply Hjson.
Qed.

(** The text of a payload with a useful entry, which is not empty. *)
Lemma encode_base64_text qd :
  wf_obj qd ->
  useful qd <> [] ->
  encodeQueryData P (Some qd) base64
  = btoa P (encodeURIComponent P (JSON_stringify P (JObj (stored qd))))
  /\ encodeQueryData P (Some qd) base64 <> "".
Proof.
  intros Hwf Hsome. unfold encodeQueryData.
  rewrite filtered_query_spec, useful_keys_spec by done.
  destruct (useful qd) as [|kv l] eqn:Hu; [done|].
  cbn [Object_keys map length Nat.eqb negb]. split; [reflexivity|].
  destruct laws as [_ Hjne _ Hune _ Hbne _]. apply Hbne, Hune, Hjne.
Qed.

Lemma encode_base64_empty qd :
  wf_obj qd -> useful qd = [] ->
  encodeQueryData P (Some qd) base64 = "" /\ stored qd = [].
Proof.
  intros Hwf Hnone. split.
  - unfold encodeQueryData. rewrite useful_keys_spec, Hnone by done.
    reflexivity.
  - rewrite <- (filter_stored_useful
                  (fun kv => negb (String.eqb (fst kv) "__proto__"))).
    by rewrite Hnone.
Qed.

(** Decoding an encoded payload gives the entries that were written. *)
Lemma decode_encode_filtered qd :
  wf_obj qd ->
  json_safe (JObj (stored qd)) = true ->
  decodeQueryData P (Some (encodeQueryData P (Some qd) base64)) base64
  = ([], Ret (JObj (stored qd))).
Proof.
  intros Hwf Hsafe. destruct (useful qd) as [|kv l] eqn:Hu.
  - destruct (encode_base64_empty qd Hwf Hu) as [-> ->]. reflexivity.
  - destruct (encode_base64_text qd Hwf) as [Htext Hne]; [congruence|].
    unfold decodeQueryData. apply String.eqb_neq in Hne. rewrite Hne.
    cbn [negb]. rewrite Htext. unfold parse_base64.
    destruct laws as [_ _ _ _ _ _ Hplain]. rewrite Hplain.
    cbn [mbind outcome_bind]. rewrite decode_steps_encoded by done.
    reflexivity.
Qed.

(** What the link parameter decodes to once [setToUrl] has written an
    encoded payload. *)
Lemma decode_link_encoded qd br :
  wf_obj qd ->
  json_safe (JObj (stored qd)) = true ->
  decodeQueryData P
    (generateNewUrl P (encodeQueryData P (Some qd) base64) br) base64
  = ([], Ret (JObj (stored qd))).
Proof.
  intros Hwf Hsafe. unfold generateNewUrl.
  destruct (useful qd) as [|kv l] eqn:Hu.
  - destruct (encode_base64_empty qd Hwf Hu) as [-> ->].
    cbn [String.eqb negb].
    destruct (search_q br) as [v|]; [|reflexivity].
    destruct (String.eqb_spec v "") as [->|Hne]; reflexivity.
  - destruct (encode_base64_text qd Hwf) as [Htext Hne]; [congruence|].
    apply String.eqb_neq in Hne as Hb. rewrite Hb. cbn [negb].
    destruct laws as [_ _ Huri Hune _ _ _].
    pose proof (Hune _ Hne) as Hne'. apply String.eqb_neq in Hne'.
    unfold decodeQueryData. rewrite Hne'. cbn [negb]. unfold parse_base64.
    rewrite Huri. cbn [mbind outcome_bind]. rewrite Htext.
    rewrite decode_steps_encoded by done. reflexivity.
Qed.

(** X4. A payload written to the session store with [setCache] and read
    back with [getFromCache] under the same prefix is the payload without
    its non-useful entries and without an entry named [__proto__], which
    the assignment to [_query] does not keep; no warning is logged. *)
Theorem cache_round_trip prefix qd br :
  wf_obj qd ->
  json_safe (JObj (stored qd)) = true ->
  getFromCache P prefix base64
    (setCache prefix (encodeQueryData P (Some qd) base64) br)
  = ([], Ret (JObj (stored qd))).
Proof.
  intros Hwf Hsafe. unfold getFromCache, setCache, cache_key.
  cbn [pathname sessionStorage]. rewrite lookup_insert_eq.
  by apply decode_encode_filtered.
Qed.

(** X5. A payload written to the link with [setToUrl] and read back with
    [getFromUrl] is the payload without its non-useful entries and without
    an entry named [__proto__], whatever the link held before; a payload
    with no useful entry reads back as the empty payload. *)
Theorem link_round_trip qd br :
  wf_obj qd ->
  json_safe (JObj (stored qd)) = true ->
  getFromUrl P base64 (setToUrl P (encodeQueryData P (Some qd) base64) br)
  = ([], Ret (JObj (stored qd))).
Proof.
  intros Hwf Hsafe. unfold getFromUrl, setToUrl. cbn [search_q].
  by apply decode_link_encoded.
Qed.

(** X6. Reloading the page.  With the [base64] format and a sync mode that
    is not [copy], the first render on the browser that a settled request
    left behind starts from the query payload of that request: its useful
    entries, but for an entry named [__proto__], over the declared initial
    payload.  With neither sync nor cache it starts from the declared
    payload. *)
Theorem reload_restores_query opts s w initialPageData :
  storageFormat opts = base64 ->
  sync opts <> SyncCopy ->
  wf_obj (searchDataRef (fst w)) ->
  json_safe (JObj (stored (searchDataRef (fst w)))) = true ->
  wf_obj (default [] (initialSearchData opts)) ->
  let br' := snd (fst (searchRef_settle P opts s w)) in
  exists st,
    useSearch_init P opts br' initialPageData = ([], Ret st)
    /\ forall k,
         obj_get k (searchDataRef st)
         = match (if sync_on (sync opts) || cache_on (cache opts)
                  then obj_get k (stored (searchDataRef (fst w)))
                  else None) with
           | Some v => Some v
           | None => obj_get k (default [] (initialSearchData opts))
           end.
Proof.
  intros Hfmt Hsync Hwf Hsafe Hinit br'. subst br'.
  pose proof (wf_obj_filter
                (fun kv => isUsefulValue (snd kv)
                           && negb (String.eqb (fst kv) "__proto__"))
                _ Hwf) as Hwu.
  destruct w as [st br].
  assert (Hcur : forall res, searchDataRef (setPageData res st)
                             = searchDataRef st) by done.
  unfold useSearch_init, initial_search_data.
  destruct s as [result|reason];
    unfold searchRef_settle, storageFunc; cbn [fst snd] in *;
    rewrite ?Hcur, Hfmt;
    destruct (sync opts) eqn:Hs; try done;
    destruct (cache_on (cache opts)) eqn:Hc;
    cbn [sync_on orb fst snd];
    unfold getFromCache, getFromUrl, setCache, setToUrl, cache_key;
    cbn [pathname sessionStorage search_q];
    rewrite ?lookup_insert_eq, ?decode_encode_filtered,
      ?decode_link_encoded by done;
    unfold lbind, silent; cbn [app];
    (eexists; split; [reflexivity|]); cbn [searchDataRef own_props];
    intros k; rewrite !obj_get_spread_wf by auto using wf_obj_nil;
    cbn [obj_get];
    repeat match goal with
           | |- context [match ?x with Some _ => _ | None => _ end] =>
               destruct x
           end; reflexivity.
Qed.

End Persistence.

(** ** Calls and storage *)

Section Calls.

Variable P : Platform.
Variable opts : SearchOptions.

Implicit Types (st : Engine) (br : Browser) (w : Engine * Browser).

(** The browser and the stored text after the reactions to a settlement. *)
Lemma searchRef_settle_storage s w :
  snd (fst (searchRef_settle P opts s w))
  = snd (storageFunc P opts (searchDataRef (fst w)) w)
  /\ storageRef (fst (fst (searchRef_settle P opts s w)))
     = storageRef (fst (storageFunc P opts (searchDataRef (fst w)) w)).
Proof.
  destruct w as [st br], s as [result|reason];
    unfold searchRef_settle, storageFunc; cbn [fst snd setPageData];
    split; reflexivity.
Qed.

(** X7. What a call persists does not depend on the pagination argument, on
    the stored pagination, on the static payload, on the rows shown, nor on
    how the fetch settles: two calls with the same query payload on the same
    browser, under options with the same sync, cache and format, leave the
    same link, the same session store and the same stored text. *)
Theorem persisted_text_ignores_pagination opts' fetch fetch' searchData
    pagination pagination' st st' br :
  sync opts' = sync opts ->
  cache opts' = cache opts ->
  storageFormat opts' = storageFormat opts ->
  searchDataRef st' = searchDataRef st ->
  storageRef st' = storageRef st ->
  let r := searchRef P opts fetch searchData pagination (st, br) in
  let r' := searchRef P opts' fetch' searchData pagination' (st', br) in
  snd (fst r') = snd (fst r)
  /\ storageRef (fst (fst r')) = storageRef (fst (fst r)).
Proof.
  intros Hs Hc Hf Hq Ht r r'. subst r r'. unfold searchRef. cbn [fst snd].
  destruct (searchRef_begin opts st searchData pagination) as [st1 arg] eqn:H1.
  destruct (searchRef_begin opts' st' searchData pagination')
    as [st1' arg'] eqn:H1'.
  destruct (searchRef_settle_storage (fetch arg) (st1, br)) as [-> ->].
  assert (Hq1 : searchDataRef st1' = searchDataRef st1
                /\ storageRef st1' = storageRef st1).
  { unfold searchRef_begin in H1, H1'.
    destruct searchData; injection H1 as <- _; injection H1' as <- _;
      cbn [searchDataRef storageRef]; auto. }
  destruct Hq1 as [Hq1 Ht1].
  destruct st1 as [l1 d1 q1 p1 t1], st1' as [l1' d1' q1' p1' t1'].
  cbn [searchDataRef storageRef] in Hq1, Ht1. subst q1' t1'.
  destruct (fetch' arg') as [result|reason];
    unfold searchRef_settle, storageFunc; cbn [fst snd setPageData];
    cbn [searchDataRef storageRef]; rewrite Hs, Hc, Hf; split; reflexivity.
Qed.

(** The browser after a second persisting of the same payload. *)
Lemma storageFunc_browser_again formData st st' br :
  snd (storageFunc P opts formData
         (st', snd (storageFunc P opts formData (st, br))))
  = snd (storageFunc P opts formData (st, br)).
Proof.
  unfold storageFunc.
  set (text := encodeQueryData P (Some formData) (storageFormat opts)).
  destruct (sync opts), (cache_on (cache opts)); cbn [sync_on orb snd];
    unfold setCache, setToUrl, cache_key, generateNewUrl;
    cbn [pathname search_q sessionStorage];
    rewrite ?insert_insert_eq; try reflexivity.
  all: destruct (String.eqb text ""); cbn [negb]; [|reflexivity].
  all: destruct (search_q br) as [v|]; [|reflexivity].
  all: destruct (String.eqb v "") eqn:Hv; cbn [negb]; rewrite ?Hv;
         reflexivity.
Qed.

(** X8. Persisting again what was just persisted changes nothing: neither the
    link, nor the session store, nor the stored text. *)
Theorem storageFunc_idempotent formData w :
  storageFunc P opts formData (storageFunc P opts formData w)
  = storageFunc P opts formData w.
Proof.
  destruct w as [st br].
  pose proof (storageFunc_browser_again formData st
                (fst (storageFunc P opts formData (st, br))) br) as Hbr.
  rewrite <- surjective_pairing in Hbr.
  destruct (storageFunc P opts formData (storageFunc P opts formData (st, br)))
    as [st2 br2] eqn:H2.
  destruct (storageFunc P opts formData (st, br)) as [st1 br1] eqn:H1.
  cbn [snd] in Hbr. subst br2. f_equal.
  unfold storageFunc in H1, H2.
  injection H1 as <- _. injection H2 as <- _.
  cbn [loading pageData searchDataRef paginationRef storageRef].
  destruct (sync_on (sync opts) || cache_on (cache opts)); reflexivity.
Qed.

(** X9. Two calls in flight.  When a second call starts before the fetch of
    the first has settled and the second fetch settles first, then the late
    result of the first call is what the page shows, while the stored query
    payload is the one of the second call, and the late settlement persists
    that payload again: it leaves the browser as the first settlement left it.
    The loading flag is down after the first of the two settlements, with the
    first fetch still pending. *)
Theorem late_result_overwrites a b pa pb ra rb st br :
  let '(st1, arg1) := searchRef_begin opts st (Some a) pa in
  let '(st2, arg2) := searchRef_begin opts st1 (Some b) pb in
  let w3 := fst (searchRef_settle P opts (Fulfilled rb) (st2, br)) in
  let w4 := fst (searchRef_settle P opts (Fulfilled ra) w3) in
  loading st2 = true
  /\ loading (fst w3) = false
  /\ pageData (fst w3) = rb
  /\ pageData (fst w4) = ra
  /\ searchDataRef (fst w4) = b
  /\ snd w3 = snd (storageFunc P opts b (st2, br))
  /\ snd w4 = snd w3.
Proof.
  destruct (searchRef_begin opts st (Some a) pa) as [st1 arg1] eqn:H1.
  destruct (searchRef_begin opts st1 (Some b) pb) as [st2 arg2] eqn:H2.
  assert (Hb : searchDataRef st2 = b /\ loading st2 = true).
  { unfold searchRef_begin in H2. injection H2 as <- _. split; reflexivity. }
  destruct Hb as [Hb Hl]. intros w3 w4.
  destruct (searchRef_settle_refs P opts (Fulfilled ra) w3) as [Hq4 _].
  destruct (searchRef_settle_refs P opts (Fulfilled rb) (st2, br)) as [Hq3 _].
  destruct (searchRef_settle_storage (Fulfilled ra) w3) as [Hbr4 _].
  destruct (searchRef_settle_storage (Fulfilled rb) (st2, br)) as [Hbr3 _].
  fold w3 in Hq3, Hbr3. fold w4 in Hq4, Hbr4. cbn [fst] in Hq3, Hbr3.
  rewrite Hb in Hq3, Hbr3. rewrite Hq3 in Hq4, Hbr4.
  split_and!; try done.
  rewrite Hbr4, (surjective_pairing w3), Hbr3. cbn [fst snd].
  apply storageFunc_browser_again.
Qed.

End Calls.

(** ** The first render and the mount effect *)

Section FirstRender.

Variable P : Platform.
Variable opts : SearchOptions.

(** In the [base64] format a text always decodes to some value. *)
Lemma decode_base64_returns data :
  exists log v, decodeQueryData P data base64 = (log, Ret v).
Proof.
  destruct data as [d|]; [|by exists [], (JObj [])].
  unfold decodeQueryData. destruct (negb (String.eqb d ""));
    [|by exists [], (JObj [])].
  destruct (parse_base64 P d) as [v|e]; [by exists [], v|].
  by exists [IncompleteQuery], (JObj []).
Qed.

(** X10. In the [base64] format the first render never throws, whatever the
    link and the session store hold: the hook starts with the loading flag at
    [initRequest], the given rows, an empty stored text, and the declared
    pagination or a new [PageQuery]. *)
Theorem first_render_base64_returns br initialPageData :
  storageFormat opts = base64 ->
  exists log st,
    useSearch_init P opts br initialPageData = (log, Ret st)
    /\ loading st = initRequest opts
    /\ pageData st = initialPageData
    /\ storageRef st = ""
    /\ paginationRef st = default (newPageQuery P) (initialPagination opts).
Proof.
  intros Hfmt. unfold useSearch_init, initial_search_data, getFromCache,
    getFromUrl. rewrite Hfmt.
  destruct (decode_base64_returns
              (sessionStorage br !! cache_key (cache opts) br))
    as (log1 & v1 & ->).
  destruct (decode_base64_returns (search_q br)) as (log2 & v2 & ->).
  destruct (cache_on (cache opts)), (sync_on (sync opts));
    unfold lbind, silent; eexists _, _; (split; [reflexivity|]);
    repeat split; reflexivity.
Qed.

(** X11. In the [query] format, with sync on, a link parameter that
    [decodeURIComponent] rejects makes the first render throw, once the cache
    entry, if any is read, has decoded. *)
Theorem first_render_query_throws br initialPageData d e log cached :
  storageFormat opts = query ->
  sync_on (sync opts) = true ->
  search_q br = Some d ->
  d <> "" ->
  decodeURIComponent P d = Throw e ->
  (if cache_on (cache opts)
   then getFromCache P (cache opts) query br
   else silent (Ret (JObj []))) = (log, Ret cached) ->
  useSearch_init P opts br initialPageData = (log, Throw e).
Proof.
  intros Hfmt Hs Hq Hne He Hc.
  unfold useSearch_init, initial_search_data. rewrite Hfmt, Hs, Hc.
  unfold getFromUrl. rewrite Hq, (decode_query_throws P d e Hne He).
  unfold lbind. by rewrite app_nil_r.
Qed.

(** X12. After the first render and the mount effect, once the fetch of the
    mount request, if there is one, has settled: the loading flag is down, the
    query payload and the pagination are those of the first render, and the
    rows are the result of the fetch if there was one and it was fulfilled,
    the given rows otherwise. *)
Theorem mount_settles fetch br initialPageData log st :
  useSearch_init P opts br initialPageData = (log, Ret st) ->
  let st' := fst (useSearch_mount P opts fetch (st, br)) in
  loading st' = false
  /\ searchDataRef st' = searchDataRef st
  /\ paginationRef st' = paginationRef st
  /\ pageData st'
     = match (if initRequest opts
              then Some (fetch (snd (searchRef_begin opts st None None)))
              else None) with
       | Some (Fulfilled result) => result
       | _ => initialPageData
       end.
Proof.
  intros Hinit st'. subst st'.
  assert (Hst : loading st = initRequest opts /\ pageData st = initialPageData).
  { unfold useSearch_init in Hinit.
    destruct (initial_search_data P opts br) as [log0 [q|e0]];
      unfold lbind, silent in Hinit; [|discriminate].
    injection Hinit as _ <-. split; reflexivity. }
  destruct Hst as [Hl Hd]. unfold useSearch_mount.
  destruct (initRequest opts); [|cbn [fst]; by rewrite Hl, Hd].
  unfold searchRef. cbn [fst snd].
  destruct (searchRef_begin opts st None None) as [st1 arg] eqn:Hb.
  assert (H1 : searchDataRef st1 = searchDataRef st
               /\ paginationRef st1 = paginationRef st
               /\ pageData st1 = initialPageData).
  { unfold searchRef_begin in Hb. injection Hb as <- _. by rewrite <- Hd. }
  destruct H1 as (Hq1 & Hp1 & Hd1).
  destruct (searchRef_settle_refs P opts (fetch arg) (st1, br)) as [-> ->].
  cbn [fst snd]. split_and!; try done.
  - destruct (fetch arg); reflexivity.
  - destruct (fetch arg); [reflexivity | exact Hd1].
Qed.

End FirstRender.

(** ** The keys of the session store *)

Section CacheKeys.

Variable P : Platform.

Lemma string_app_inv_tail (a b t : string) : a +:+ t = b +:+ t -> a = b.
Proof.
  intros H. apply (f_equal list_ascii_of_string) in H.
  rewrite !EcmaFacts.list_ascii_of_string_app in H.
  apply app_inv_tail in H.
  rewrite <- (string_of_list_ascii_of_string a),
          <- (string_of_list_ascii_of_string b).
  by f_equal.
Qed.

Lemma string_app_inv_head (h a b : string) : h +:+ a = h +:+ b -> a = b.
Proof. induction h as [|c h IH]; simpl; [done|]. intros [= H]. auto. Qed.

(** Two prefixes with different texts give different keys on a page. *)
Lemma cache_key_inj c1 c2 br :
  cache_key c1 br = cache_key c2 br -> prefix_string c1 = prefix_string c2.
Proof.
  unfold cache_key. intros H.
  apply string_app_inv_head, string_app_inv_head in H.
  by apply string_app_inv_tail in H.
Qed.

(** X13. On one page, what is cached under a prefix is not seen under a
    prefix of another text: writing under the first leaves what is read under
    the second as it was. *)
Theorem cache_prefixes_apart c1 c2 data format br :
  prefix_string c1 <> prefix_string c2 ->
  getFromCache P c2 format (setCache c1 data br) = getFromCache P c2 format br.
Proof.
  intros Hne. unfold getFromCache, setCache.
  assert (Hk : cache_key c2
                 {| pathname := pathname br; search_q := search_q br;
                    sessionStorage :=
                      <[cache_key c1 br := data]> (sessionStorage br) |}
               = cache_key c2 br) by reflexivity.
  rewrite Hk. cbn [sessionStorage].
  rewrite lookup_insert_ne; [reflexivity|].
  intros Heq. by apply Hne, (cache_key_inj c1 c2 br).
Qed.

End CacheKeys.

(** * More of the table *)

(** ** The value render *)

Section Values.

Variable P : Platform.

(** [useColumns] changes the [default] option only. *)
Lemma column_options_other k options :
  wf_obj options ->
  k <> "default" ->
  obj_get k (column_options options) = obj_get k options.
Proof.
  intros Hwf Hk. unfold column_options. rewrite spread_copy by done.
  rewrite obj_get_set. apply String.eqb_neq in Hk. by rewrite Hk.
Qed.

Lemma wf_column_options options :
  wf_obj options -> wf_obj (column_options options).
Proof.
  intros Hwf. unfold column_options. apply wf_obj_set.
  by rewrite spread_copy.
Qed.


(** X15. A column without a format shows the raw value, except that with
    [amend] set an empty value is replaced by the default of the column, which
    is the placeholder when the column declares none. *)
Theorem column_without_format options value record :
  wf_obj options ->
  truthy (prop "format" options) = false ->
  render_value P options value record
  = Ret (if truthy (prop "amend" options) && isEmpty P value
         then nullish_or (prop "default" options) (JStr DEFAULT_EMPTY_VALUE)
         else value).
Proof.
  intros Hwf Hfmt.
  unfold render_value, column_render, formatGenerate, formatGenerate_with.
  rewrite column_options_format, Hfmt by done.
  cbn [negb mbind outcome_bind].
  unfold prop at 1. rewrite column_options_other by done.
  fold (prop "amend" options).
  destruct (truthy (prop "amend" options)); cbn [andb]; [|reflexivity].
  rewrite column_options_default by done. reflexivity.
Qed.

(** X16. With a format of the registry declared, by its bare name or in a
    pair with params, [amend] plays no role: the column renders as it does
    with any other value of [amend]. *)
Theorem format_disables_amend options a value record t params :
  wf_obj options ->
  truthy (prop "format" options) = true ->
  format_pair (prop "format" options) = (JStr (format_name t), params) ->
  render_value P (obj_set "amend" a options) value record
  = render_value P options value record.
Proof.
  intros Hwf Hfmt Hpair.
  pose proof (wf_obj_set "amend" a options Hwf) as Hwf'.
  assert (Hsame : forall k, k <> "amend" ->
            prop k (column_options (obj_set "amend" a options))
            = prop k (column_options options)).
  { intros k Hk. destruct (String.eqb_spec k "default") as [->|Hd].
    - rewrite !column_options_default by done. unfold prop.
      by rewrite obj_get_set.
    - unfold prop. rewrite !column_options_other, obj_get_set by done.
      apply String.eqb_neq in Hk. by rewrite Hk. }
  unfold render_value, column_render, formatGenerate.
  rewrite (Hsame "format") by done.
  rewrite column_options_format by done.
  rewrite !(formatGenerate_declared _ _ _ _ t params) by done.
  cbn [own_props mbind outcome_bind held_truthy negb andb].
  rewrite (Hsame "default") by done. reflexivity.
Qed.

End Values.

(** ** Text splitting *)

Module SplitFacts.

#[local] Arguments String.append : simpl nomatch.

Lemma split_go_not_nil sep skip s : split_go sep skip s <> [].
Proof.
  revert skip. induction s as [|c r IH]; intros skip; [by intros [=]|].
  cbn [split_go]. destruct skip as [|k]; [|apply IH].
  destruct (String.prefix sep (String c r)); [by intros [=]|].
  destruct (split_go sep 0 r); by intros [=].
Qed.

(** Passing over the rest of a separator. *)
Lemma split_go_skip sep pre s :
  split_go sep (String.length pre) (pre +:+ s) = split_go sep 0 s.
Proof.
  induction pre as [|c pre IH]; simpl; [|exact IH].
  destruct s; reflexivity.
Qed.

Lemma prefix_app sep s :
  String.prefix sep s = true -> exists rest, s = sep +:+ rest.
Proof.
  revert s. induction sep as [|c sep IH]; intros s; simpl.
  - intros _. by exists s.
  - destruct s as [|c' s]; simpl; [done|].
    destruct (Ascii.ascii_dec c c') as [->|Hne]; [|done].
    intros [rest ->]%IH. by exists rest.
Qed.

Lemma concat_cons sep x l :
  l <> [] -> String.concat sep (x :: l) = x +:+ sep +:+ String.concat sep l.
Proof. destruct l; [done | reflexivity]. Qed.

(** Joining the segments with the separator gives the text back. *)
Lemma split_go_join sep s :
  sep <> "" -> String.concat sep (split_go sep 0 s) = s.
Proof.
  intros Hsep. remember (String.length s) as n eqn:Hn.
  revert s Hn. induction n as [n IH] using lt_wf_ind. intros s Hn.
  destruct s as [|c r]; [reflexivity|].
  cbn [split_go]. destruct (String.prefix sep (String c r)) eqn:Hp.
  - apply prefix_app in Hp as [rest Hrest].
    destruct sep as [|c0 sep']; [done|].
    simpl in Hrest. injection Hrest as <- ->.
    cbn [String.length]. rewrite Nat.sub_1_r. cbn [Nat.pred].
    rewrite split_go_skip, concat_cons by apply split_go_not_nil.
    rewrite (IH (String.length rest)); [reflexivity | | reflexivity].
    subst n. cbn [String.length]. rewrite JsonTokens.string_length_app. lia.
  - pose proof (IH (String.length r)) as IHr.
    specialize (IHr ltac:(subst n; simpl; lia) r eq_refl).
    destruct (split_go sep 0 r) as [|w ws] eqn:Hr;
      [by apply split_go_not_nil in Hr|].
    destruct ws as [|w' ws]; simpl in *; by rewrite IHr.
Qed.

Lemma chars_join s : String.concat "" (chars s) = s.
Proof.
  induction s as [|c s IH]; [reflexivity|]. cbn [chars].
  destruct (chars s) as [|x l] eqn:Hc.
  - destruct s; [reflexivity | discriminate].
  - rewrite concat_cons by done. rewrite IH. reflexivity.
Qed.

Lemma split_by_join sep s : String.concat sep (split_by sep s) = s.
Proof.
  unfold split_by. destruct (String.eqb_spec sep "") as [->|Hne].
  - apply chars_join.
  - by apply split_go_join.
Qed.

(** The only empty list of segments is the one of the empty text cut with
    the empty separator. *)
Lemma split_by_nil sep s : split_by sep s = [] -> sep = "" /\ s = "".
Proof.
  unfold split_by. destruct (String.eqb_spec sep "") as [->|Hne].
  - destruct s; [done | discriminate].
  - intros H. by apply split_go_not_nil in H.
Qed.

Lemma concat_head sep x l :
  exists rest, String.concat sep (x :: l) = x +:+ rest.
Proof.
  destruct l as [|y l].
  - exists "". simpl. by rewrite EcmaFacts.string_app_nil_r.
  - eexists. reflexivity.
Qed.

Lemma concat_last sep l d :
  l <> [] -> exists pre, String.concat sep l = pre +:+ List.last l d.
Proof.
  induction l as [|x l IH]; [done|]. intros _.
  destruct l as [|y l]; [by exists ""|].
  destruct IH as [pre Hpre]; [done|].
  exists (x +:+ sep +:+ pre). rewrite concat_cons, Hpre by done.
  by rewrite !EcmaFacts.string_app_assoc.
Qed.

(** The last of the segments, read as [values[values.length - 1]]. *)
Lemma nth_last_segment (l : list string) d :
  l <> [] ->
  nth (length (map JStr l) - 1) (map JStr l) JUndefined = JStr (List.last l d).
Proof.
  induction l as [|x l IH]; [done|]. intros _.
  destruct l as [|y l]; [reflexivity|].
  specialize (IH ltac:(done)). cbn [map length] in *.
  rewrite Nat.sub_1_r in *. cbn [Nat.pred] in *. exact IH.
Qed.

End SplitFacts.

(** ** The truncation registry *)

Section Truncation.

(** X18. The [split] entry cuts the raw value, whatever text the previous
    render has made of it: when that render answers a text, the cell is the
    one of the column without a previous render if the raw value is a text,
    and the call of [split] is a [TypeError] if it is not. *)
Theorem split_cuts_raw_value opt (f : render) value record index x :
  f value record = Ret (JStr x) ->
  ellipsis_split_factory opt (Some f) value record index
  = match value with
    | JStr _ => ellipsis_split_factory opt None value record index
    | _ => Throw TypeError
    end.
Proof.
  intros Hf. unfold ellipsis_split_factory, previous_output. rewrite Hf.
  cbn [mbind outcome_bind]. destruct value; reflexivity.
Qed.

(** X19. When the output of the previous render (the raw value, without one)
    is not a text, the [split] entry shows nothing: no tooltip, no value. *)
Theorem split_shows_nothing_for_other_output opt prevRender value record
    index v :
  previous_output prevRender value record = Ret v ->
  (forall x, v <> JStr x) ->
  ellipsis_split_factory opt prevRender value record index
  = Ret (NValue JUndefined).
Proof.
  intros Hv Hnot. unfold ellipsis_split_factory. rewrite Hv.
  cbn [mbind outcome_bind]. destruct v; try reflexivity.
  by destruct (Hnot s).
Qed.

(** X20. With [showIndex] at ["start"] or at ["end"], a text cut by a text
    separator shows a beginning, respectively an ending, of the raw text, and
    the tooltip holds the whole raw text.  The one exception is the empty text
    cut with the empty separator, which has no segment. *)
Theorem split_shows_part_of_text opt s sep record index :
  prop "by" (with_defaults DEFAULT_ELLIPSIS_OPTIONS_split opt) = JStr sep ->
  sep <> "" \/ s <> "" ->
  (prop "showIndex" (with_defaults DEFAULT_ELLIPSIS_OPTIONS_split opt)
   = JStr "start" ->
     exists d rest,
       ellipsis_split_factory opt None (JStr s) record index
       = Ret (NTooltip (JStr s) (JStr d))
       /\ s = d +:+ rest)
  /\ (prop "showIndex" (with_defaults DEFAULT_ELLIPSIS_OPTIONS_split opt)
      = JStr "end" ->
        exists d pre,
          ellipsis_split_factory opt None (JStr s) record index
          = Ret (NTooltip (JStr s) (JStr d))
          /\ s = pre +:+ d).
Proof.
  intros Hby Hne.
  unfold ellipsis_split_factory, previous_output, String_split.
  cbn [mbind outcome_bind]. rewrite Hby. cbn [ToString has_no_text].
  pose proof (SplitFacts.split_by_join sep s) as Hjoin.
  destruct (split_by sep s) as [|x l] eqn:Hsplit.
  { apply SplitFacts.split_by_nil in Hsplit as [-> ->]. by destruct Hne. }
  split; intros ->; unfold split_shown;
    cbn [String.eqb Ascii.eqb Bool.eqb mbind outcome_bind map].
  - destruct (SplitFacts.concat_head sep x l) as [rest Hrest].
    exists x, rest. split; [reflexivity|]. by rewrite <- Hjoin.
  - destruct (SplitFacts.concat_last sep (x :: l) "") as [pre Hpre]; [done|].
    exists (List.last (x :: l) ""), pre. split; [|by rewrite <- Hjoin].
    change (JStr x :: map JStr l) with (map JStr (x :: l)).
    by rewrite (SplitFacts.nth_last_segment (x :: l) "").
Qed.

End Truncation.

(** ** The registries *)

Section RegistryFacts.

Context {F : Type}.
Variable declared : string -> option (JsValue -> Held render -> F).
Variable of_render : render -> F.

Lemma ToPropertyKey_throws v e : ToPropertyKey v = Throw e -> e = TypeError.
Proof. unfold ToPropertyKey. destruct (has_no_text v); by intros [=]. Qed.

(** On a registry that no column has redefined, a call of a member of
    [Object.prototype] throws a [TypeError] or nothing. *)
Lemma inherited_call_throws m arg second e :
  fst (inherited_call declared of_render ∅ m arg second) = Throw e ->
  e = TypeError.
Proof.
  destruct m; cbn [inherited_call fst]; rewrite ?lookup_empty; try done;
    try (by intros [=]);
    try (destruct (ToPropertyKey arg) as [key|e0] eqn:Hkey;
         cbn [mbind outcome_bind];
         [done | intros [= <-]; by apply ToPropertyKey_throws in Hkey]).
  - destruct second as [g|b]; [|by intros [=]].
    destruct (ToPropertyKey arg) as [key|e0] eqn:Hkey; cbn [fst]; [done|].
    intros [= <-]. by apply ToPropertyKey_throws in Hkey.
  - destruct second as [g|b]; [|by intros [=]].
    destruct (ToPropertyKey arg) as [key|e0] eqn:Hkey; cbn [fst]; [done|].
    intros [= <-]. by apply ToPropertyKey_throws in Hkey.
Qed.

Lemma registry_call_throws name arg second e :
  fst (registry_call declared of_render ∅ name arg second) = Throw e ->
  e = TypeError.
Proof.
  unfold registry_call.
  destruct (ToPropertyKey name) as [key|e0] eqn:Hkey; cbn [fst];
    [|intros [= <-]; by apply ToPropertyKey_throws in Hkey].
  rewrite lookup_empty. destruct (declared key); [done|].
  destruct (Object_prototype_member key) as [m|];
    [apply inherited_call_throws | by intros [=]].
Qed.

(** Redefined entries turn no exception into an answer. *)
Lemma inherited_call_still_throws acc m arg second e :
  fst (inherited_call declared of_render ∅ m arg second) = Throw e ->
  exists e', fst (inherited_call declared of_render acc m arg second)
             = Throw e'.
Proof.
  destruct m; cbn [inherited_call fst]; rewrite ?lookup_empty; try done;
    try (by eexists);
    try (destruct (ToPropertyKey arg) as [key|e0];
         cbn [mbind outcome_bind]; [done | by eexists]).
  - destruct second as [g|b]; [|by eexists].
    destruct (ToPropertyKey arg) as [key|e0]; cbn [fst]; [done | by eexists].
  - destruct second as [g|b]; [|by eexists].
    destruct (ToPropertyKey arg) as [key|e0]; cbn [fst]; [done | by eexists].
Qed.

Lemma read_then_throw a :
  exists e, (_ ← read_accessor a; Throw TypeError) = @Throw (Held F) e.
Proof.
  destruct (read_accessor a) as [v|e]; cbn [mbind outcome_bind]; by eexists.
Qed.

Lemma registry_call_still_throws acc name arg second e :
  fst (registry_call declared of_render ∅ name arg second) = Throw e ->
  exists e', fst (registry_call declared of_render acc name arg second)
             = Throw e'.
Proof.
  unfold registry_call.
  destruct (ToPropertyKey name) as [key|e0]; cbn [fst]; [|by eexists].
  rewrite lookup_empty. destruct (acc !! key) as [a|]; cbn [fst].
  { intros _. apply read_then_throw. }
  destruct (declared key); [done|].
  destruct (Object_prototype_member key) as [m|];
    [apply inherited_call_still_throws | by eexists].
Qed.

End RegistryFacts.

(** ** The columns *)

Section ColumnFacts.

Variable P : Platform.
Variable INDEX_TITLE : JsValue.

Abbreviation useColumns' := (useColumns P INDEX_TITLE).

Implicit Types (options : payload) (extend mount : gmap string ColumnDesc).
Implicit Types (acc : Redefined).

(** *** What can go wrong *)

Lemma column_render_throws options e :
  column_render P options = Throw e -> e = TypeError.
Proof.
  unfold column_render, formatGenerate, formatGenerate_with.
  destruct (negb (truthy (prop "format" (column_options options)))).
  - cbn [mbind outcome_bind held_truthy negb andb].
    by destruct (truthy (prop "amend" (column_options options))).
  - destruct (format_pair (prop "format" (column_options options)))
      as [name params].
    match goal with
    | |- context [fst ?call] =>
        destruct (fst call) as [h|e0] eqn:Hcall
    end; cbn [mbind outcome_bind].
    + by destruct (negb _ && _)%bool.
    + intros [= <-]. by apply registry_call_throws in Hcall.
Qed.

(** [ellipsisRender] and the body of the loop, by their parts. *)
Lemma ellipsisRender_in_eq acc options prevRender :
  ellipsisRender_in acc options prevRender
  = (r ← fst (registry_call DEFAULT_ELLIPSIS_RENDER_FACTORY plain_cell acc
                (fst (fst (ellipsis_type options)))
                (snd (fst (ellipsis_type options))) prevRender);
     Ret (snd (ellipsis_type options), r),
     snd (registry_call DEFAULT_ELLIPSIS_RENDER_FACTORY plain_cell acc
            (fst (fst (ellipsis_type options)))
            (snd (fst (ellipsis_type options))) prevRender)).
Proof.
  unfold ellipsisRender_in.
  destruct (ellipsis_type options) as [[name params] options'].
  cbn [fst snd].
  by destruct (registry_call DEFAULT_ELLIPSIS_RENDER_FACTORY plain_cell acc
                 name params prevRender).
Qed.

(** The column that the loop pushes, and the mounted column after it. *)
Lemma resolve_field_in_eq acc options extend_k mount_k :
  fst (resolve_field_in P acc options extend_k mount_k)
  = (_render ← column_render P options;
     '(_options', render') ←
       (if truthy (prop "ellipsis" (column_options options))
        then '(o, r) ← fst (ellipsisRender_in acc (column_options options)
                              _render);
             Ret (o, held_cell r)
        else Ret (column_options options,
                  option_map plain_cell (as_render _render)));
     Ret ({| col_props :=
               match extend_k with
               | Some e =>
                   spread (spread (spread [] _options') RESET_LOCAL_OPTIONS)
                          (col_props e)
               | None => spread (spread [] _options') RESET_LOCAL_OPTIONS
               end;
             col_render :=
               match extend_k with
               | Some e => match col_render e with
                           | Some f => Some f
                           | None => render'
                           end
               | None => render'
               end |}
          :: match mount_k with
             | Some m => [m]
             | None => []
             end)).
Proof.
  unfold resolve_field_in.
  destruct (column_render P options) as [_render|e]; [|reflexivity].
  cbn [mbind outcome_bind].
  destruct (truthy (prop "ellipsis" (column_options options))).
  - destruct (ellipsisRender_in acc (column_options options) _render)
      as [[[o r]|e] acc']; cbn [fst snd mbind outcome_bind]; [|reflexivity].
    by destruct extend_k.
  - cbn [fst snd mbind outcome_bind]. by destruct extend_k.
Qed.

Lemma ellipsisRender_throws options prevRender e :
  ellipsisRender options prevRender = Throw e -> e = TypeError.
Proof.
  unfold ellipsisRender. rewrite ellipsisRender_in_eq. cbn [fst].
  match goal with
  | |- context [fst ?call] => destruct (fst call) as [h|e0] eqn:Hcall
  end; cbn [mbind outcome_bind]; [done|].
  intros [= <-]. by apply registry_call_throws in Hcall.
Qed.

Lemma resolve_field_throws options extend_k mount_k e :
  resolve_field P options extend_k mount_k = Throw e -> e = TypeError.
Proof.
  unfold resolve_field. rewrite resolve_field_in_eq.
  destruct (column_render P options) as [_render|e0] eqn:Hr;
    cbn [mbind outcome_bind];
    [|intros [= <-]; by apply column_render_throws in Hr].
  destruct (truthy (prop "ellipsis" (column_options options)));
    cbn [mbind outcome_bind]; [|done].
  fold (ellipsisRender (column_options options) _render).
  destruct (ellipsisRender (column_options options) _render) as [[o r]|e0]
    eqn:He; cbn [mbind outcome_bind]; [done|].
  intros [= <-]. by apply ellipsisRender_throws in He.
Qed.

(** A field that cannot be resolved on the registry as the module declares
    it cannot be resolved on a registry with redefined entries. *)
Lemma resolve_field_still_throws acc options extend_k mount_k e :
  resolve_field P options extend_k mount_k = Throw e ->
  exists e', fst (resolve_field_in P acc options extend_k mount_k) = Throw e'.
Proof.
  unfold resolve_field. rewrite !resolve_field_in_eq.
  destruct (column_render P options) as [_render|e0];
    cbn [mbind outcome_bind]; [|by eexists].
  destruct (truthy (prop "ellipsis" (column_options options)));
    cbn [mbind outcome_bind]; [|done].
  rewrite !ellipsisRender_in_eq. cbn [fst].
  match goal with
  | |- context [fst (registry_call ?d ?o ∅ ?n ?a ?s)] =>
      destruct (fst (registry_call d o ∅ n a s)) as [h|e0] eqn:Hcall;
      cbn [mbind outcome_bind]; [done|];
      destruct (registry_call_still_throws d o acc n a s e0 Hcall)
        as [e' ->]
  end.
  intros _. by eexists.
Qed.

Lemma resolve_fields_bad_field acc metadata extend mount group keys result k
    options e :
  k ∈ keys ->
  metadata !! k = Some options ->
  groupCheck (prop "group" options) group = true ->
  resolve_field P options (extend !! k) (mount !! k) = Throw e ->
  exists e',
    fst (resolve_fields P acc metadata extend mount group keys result)
    = Throw e'.
Proof.
  intros Hin Hmeta Hgroup Hbad. revert acc result.
  induction keys as [|k0 keys IH]; intros acc result;
    [by apply elem_of_nil in Hin|].
  destruct (decide (k0 = k)) as [->|Hne].
  - cbn [resolve_fields]. rewrite Hmeta, Hgroup.
    destruct (resolve_field_still_throws acc _ _ _ _ Hbad) as [e' He'].
    destruct (resolve_field_in P acc options (extend !! k) (mount !! k))
      as [[pushed|e0] acc']; cbn [fst] in *; [done | by eexists].
  - apply elem_of_cons in Hin as [->|Hin]; [done|]. specialize (IH Hin).
    cbn [resolve_fields].
    destruct (metadata !! k0) as [options0|]; [|apply IH].
    destruct (groupCheck (prop "group" options0) group); [|apply IH].
    destruct (resolve_field_in P acc options0 (extend !! k0) (mount !! k0))
      as [[pushed|e0] acc']; [apply IH | by eexists].
Qed.

(** X21. One field that cannot be resolved fails the whole list: when a
    field of the class that passes the group check has options from which,
    on the registries as the module declares them, no column can be built,
    [useColumns] throws, wherever the field stands and whatever the other
    arguments. *)
Theorem useColumns_fails_on_bad_field Clz additional extend group mount
    withIndex k options e :
  k ∈ class_keys Clz ->
  class_metadata Clz !! k = Some options ->
  groupCheck (prop "group" options) group = true ->
  resolve_field P options (extend !! k) (mount !! k) = Throw e ->
  exists e',
    useColumns' (Some Clz) additional extend group mount withIndex
    = Throw e'.
Proof.
  intros Hin Hmeta Hgroup Hbad. unfold useColumns, useColumns_from.
  destruct (resolve_fields_bad_field ∅ _ extend mount group _ [] k options e
              Hin Hmeta Hgroup Hbad) as [e' He'].
  destruct (resolve_fields P ∅ (class_metadata Clz) extend mount group
              (class_keys Clz) []) as [r acc'].
  cbn [fst] in *. subst r. by eexists.
Qed.

(** X22. An [ellipsis] option given as an object, as the table component
    itself takes it, is a [TypeError] when the column is built: the object
    is read as a pair of a name and its params, and it has no name. *)
Theorem ellipsis_object_throws options o extend_k mount_k :
  wf_obj options ->
  prop "ellipsis" options = JObj o ->
  obj_get "0" o = None ->
  resolve_field P options extend_k mount_k = Throw TypeError.
Proof.
  intros Hwf He Hname. unfold resolve_field. rewrite resolve_field_in_eq.
  destruct (column_render P options) as [_render|e0] eqn:Hr;
    cbn [mbind outcome_bind];
    [|by rewrite (column_render_throws _ _ Hr)].
  assert (He' : prop "ellipsis" (column_options options) = JObj o).
  { unfold prop. rewrite column_options_other by done. exact He. }
  rewrite He'. cbn [truthy]. rewrite ellipsisRender_in_eq.
  unfold ellipsis_type. rewrite He'. cbn [own_props fst snd].
  unfold prop. rewrite Hname. reflexivity.
Qed.

(** *** Fields outside the active group *)

(** X23. A field that does not pass the group check counts for nothing: the
    columns are those of the class without the metadata of the field, and
    the entries of [extend] and [mount] for the field are not read. *)
Theorem hidden_field_is_skipped keys metadata additional extend group mount
    withIndex k options :
  metadata !! k = Some options ->
  groupCheck (prop "group" options) group = false ->
  useColumns'
    (Some {| class_keys := keys; class_metadata := metadata |})
    additional extend group mount withIndex
  = useColumns'
      (Some {| class_keys := keys; class_metadata := delete k metadata |})
      additional (delete k extend) group (delete k mount) withIndex.
Proof.
  intros Hmeta Hgroup. unfold useColumns, useColumns_from.
  cbn [class_keys class_metadata].
  enough (H : forall acc result,
            resolve_fields P acc metadata extend mount group keys result
            = resolve_fields P acc (delete k metadata) (delete k extend)
                (delete k mount) group keys result) by (by rewrite H).
  induction keys as [|k0 keys IH]; intros acc result; [reflexivity|].
  cbn [resolve_fields]. destruct (decide (k0 = k)) as [->|Hne].
  - rewrite Hmeta, Hgroup, lookup_delete_eq. apply IH.
  - rewrite !lookup_delete_ne by done.
    destruct (metadata !! k0) as [options0|]; [|apply IH].
    destruct (groupCheck (prop "group" options0) group); [|apply IH].
    destruct (resolve_field_in P acc options0 (extend !! k0) (mount !! k0))
      as [[pushed|e0] acc']; [apply IH | reflexivity].
Qed.

End ColumnFacts.
Section ColumnShape.

Variable P : Platform.
Variable INDEX_TITLE : JsValue.
Variable showTotal_label : JsValue -> JsValue.

Abbreviation useColumns' := (useColumns P INDEX_TITLE).

Implicit Types (options : payload) (extend mount : gmap string ColumnDesc).

(** *** The shape of the list *)

Lemma resolve_field_length acc options extend_k mount_k cols :
  fst (resolve_field_in P acc options extend_k mount_k) = Ret cols ->
  length cols = match mount_k with Some _ => 2%nat | None => 1%nat end.
Proof.
  rewrite resolve_field_in_eq.
  destruct (column_render P options) as [_render|]; cbn [mbind outcome_bind];
    [|done].
  destruct (truthy (prop "ellipsis" (column_options options)));
    cbn [mbind outcome_bind].
  - destruct (fst (ellipsisRender_in acc (column_options options) _render))
      as [[o r]|]; cbn [mbind outcome_bind]; [|done].
    intros [= <-]. by destruct mount_k.
  - intros [= <-]. by destruct mount_k.
Qed.

(** The loop pushes to the end of [result], and what it pushes does not
    depend on what [result] holds. *)
Lemma resolve_fields_result acc metadata extend mount group keys result :
  resolve_fields P acc metadata extend mount group keys result
  = (fields ← fst (resolve_fields P acc metadata extend mount group keys []);
     Ret (result ++ fields)%list,
     snd (resolve_fields P acc metadata extend mount group keys [])).
Proof.
  revert acc result.
  induction keys as [|k keys IH]; intros acc result; cbn [resolve_fields].
  - cbn [fst snd mbind outcome_bind]. by rewrite app_nil_r.
  - destruct (metadata !! k) as [options|]; [|apply IH].
    destruct (groupCheck (prop "group" options) group); [|apply IH].
    destruct (resolve_field_in P acc options (extend !! k) (mount !! k))
      as [[pushed|e] acc']; [|reflexivity].
    rewrite (IH acc' (result ++ pushed)%list), (IH acc' ([] ++ pushed)%list).
    cbn [fst snd app].
    destruct (fst (resolve_fields P acc' metadata extend mount group keys []));
      cbn [mbind outcome_bind]; [|reflexivity].
    by rewrite app_assoc.
Qed.

Lemma resolve_fields_length acc metadata extend mount group keys fields :
  fst (resolve_fields P acc metadata extend mount group keys []) = Ret fields ->
  let visible k := match metadata !! k with
                   | Some o => groupCheck (prop "group" o) group
                   | None => false
                   end in
  let mounted k := match mount !! k with Some _ => true | None => false end in
  length fields
  = (length (List.filter visible keys)
     + length (List.filter (fun k => visible k && mounted k) keys))%nat.
Proof.
  intros Hres visible mounted. revert acc fields Hres.
  induction keys as [|k keys IH]; intros acc fields; cbn [resolve_fields].
  - by intros [= <-].
  - subst visible mounted. cbv beta in *. cbn [List.filter].
    destruct (metadata !! k) as [options|]; [|apply IH].
    destruct (groupCheck (prop "group" options) group); [|apply IH].
    destruct (resolve_field_in P acc options (extend !! k) (mount !! k))
      as [[pushed|e] acc'] eqn:Hf; [|done].
    rewrite resolve_fields_result. cbn [fst app].
    destruct (fst (resolve_fields P acc' metadata extend mount group keys []))
      as [rest|] eqn:Hrest; cbn [mbind outcome_bind]; [|done].
    intros [= <-]. rewrite length_app, (IH acc' rest Hrest).
    pose proof (resolve_field_length acc options (extend !! k) (mount !! k)
                  pushed) as Hlen.
    rewrite Hf in Hlen. rewrite (Hlen eq_refl).
    destruct (mount !! k); cbn [andb length]; lia.
Qed.

(** X24. The list that [useColumns] returns: the index column first when it
    is asked for, then the columns of the class, then the additional columns.
    The columns of the class are those of the same call without index and
    without additional columns; there is one for each field of the class that
    passes the group check, in the order of the keys, and one more for each of
    these that has an entry in [mount]. *)
Theorem useColumns_layout Clz additional extend group mount withIndex cols :
  useColumns' Clz additional extend group mount withIndex = Ret cols ->
  let keys := from_option class_keys [] Clz in
  let visible k := match from_option class_metadata ∅ Clz !! k with
                   | Some o => groupCheck (prop "group" o) group
                   | None => false
                   end in
  let mounted k := match mount !! k with Some _ => true | None => false end in
  exists fields,
    useColumns' Clz None extend group mount false = Ret fields
    /\ cols = ((if withIndex then [index_column INDEX_TITLE] else [])
               ++ fields ++ default [] additional)%list
    /\ length fields
       = (length (List.filter visible keys)
          + length (List.filter (fun k => visible k && mounted k) keys))%nat.
Proof.
  intros Hcols keys visible mounted. unfold useColumns, useColumns_from in *.
  destruct Clz as [c|]; cbn [from_option] in *.
  - destruct (resolve_fields P ∅ (class_metadata c) extend mount group
                (class_keys c) []) as [[fields|] acc'] eqn:Hf;
      cbn [fst mbind outcome_bind] in *; [|done].
    injection Hcols as <-. exists fields. cbn [default].
    rewrite app_nil_r. split; [reflexivity|]. split.
    + by destruct withIndex.
    + apply (resolve_fields_length ∅ (class_metadata c) extend mount group).
      subst keys. by rewrite Hf.
  - cbn [fst mbind outcome_bind] in *. injection Hcols as <-. exists [].
    split; [reflexivity|]. split; [by destruct withIndex | reflexivity].
Qed.

(** *** The properties of a column *)

Lemma wf_RESET_LOCAL_OPTIONS : wf_obj RESET_LOCAL_OPTIONS.
Proof. unfold wf_obj. apply (bool_decide_unpack _). vm_compute. exact I. Qed.

(** What [resolve_field] returns for a field without an [extend] entry. *)
Lemma resolve_field_plain options mount_k cols :
  wf_obj options ->
  resolve_field P options None mount_k = Ret cols ->
  exists _render _options' render',
    column_render P options = Ret _render
    /\ (if truthy (prop "ellipsis" options)
        then exists r, ellipsisRender (column_options options) _render
                       = Ret (_options', r) /\ render' = held_cell r
        else _options' = column_options options
             /\ render' = option_map plain_cell (as_render _render))
    /\ cols = {| col_props := spread (spread [] _options') RESET_LOCAL_OPTIONS;
                 col_render := render' |}
              :: match mount_k with Some m => [m] | None => [] end.
Proof.
  intros Hwf. unfold resolve_field. rewrite resolve_field_in_eq.
  assert (He : prop "ellipsis" (column_options options)
               = prop "ellipsis" options).
  { unfold prop. by rewrite column_options_other. }
  rewrite He.
  destruct (column_render P options) as [_render|]; cbn [mbind outcome_bind];
    [|done].
  destruct (truthy (prop "ellipsis" options)); cbn [mbind outcome_bind].
  - fold (ellipsisRender (column_options options) _render).
    destruct (ellipsisRender (column_options options) _render) as [[o r]|]
      eqn:Her; cbn [mbind outcome_bind]; [|done].
    intros [= <-]. exists _render, o, (held_cell r). split; [done|].
    split; [|reflexivity]. by exists r.
  - intros [= <-]. exists _render, (column_options options),
                     (option_map plain_cell (as_render _render)).
    split; [done|]. split; [done | reflexivity].
Qed.

(** The options of the column after [ellipsisRender]. *)
Lemma ellipsisRender_options options prevRender options' r k :
  ellipsisRender options prevRender = Ret (options', r) ->
  wf_obj options ->
  wf_obj options'
  /\ obj_get k options'
     = if String.eqb k "ellipsis"
       then match prop "ellipsis" options with
            | JBool true => Some (JObj [("showTitle", JBool false)])
            | _ => obj_get "ellipsis" options
            end
       else obj_get k options.
Proof.
  unfold ellipsisRender. rewrite ellipsisRender_in_eq. cbn [fst].
  intros Hr Hwf.
  assert (Ho : options' = snd (ellipsis_type options)).
  { match type of Hr with
    | context [fst ?call] => destruct (fst call)
    end; cbn [mbind outcome_bind] in Hr; [|done].
    by injection Hr as <- _. }
  subst options'. clear Hr. unfold ellipsis_type.
  destruct (prop "ellipsis" options) as [| |[|]| | | | |] eqn:He;
    cbn [snd]; (split; [done || by apply wf_obj_set|]);
    rewrite ?obj_get_set;
    destruct (String.eqb_spec k "ellipsis") as [->|]; try done;
    unfold prop in He; destruct (obj_get "ellipsis" options);
    cbn [default] in He; by subst.
Qed.

(** X25. The column of a field without an [extend] entry.  Its four local
    options [format], [amend], [default] and [group] are present and
    [undefined]; its [ellipsis] is the declared one, except that [true] has
    become [{showTitle: false}]; every other property is as declared. *)
Theorem resolved_column_props options mount_k cols k :
  wf_obj options ->
  resolve_field P options None mount_k = Ret cols ->
  exists col,
    cols = col :: match mount_k with Some m => [m] | None => [] end
    /\ obj_get k (col_props col)
       = if existsb (String.eqb k) ["format"; "amend"; "default"; "group"]
         then Some JUndefined
         else if String.eqb k "ellipsis"
         then match prop "ellipsis" options with
              | JBool true => Some (JObj [("showTitle", JBool false)])
              | _ => obj_get "ellipsis" options
              end
         else obj_get k options.
Proof.
  intros Hwf Hcols.
  destruct (resolve_field_plain _ _ _ Hwf Hcols)
    as (_render & o' & render' & Hr & He & ->).
  eexists. split; [reflexivity|]. cbn [col_props].
  pose proof (wf_column_options options Hwf) as Hwc.
  assert (Ho' : wf_obj o'
                /\ obj_get k o'
                   = if String.eqb k "ellipsis"
                     then match prop "ellipsis" options with
                          | JBool true =>
                              Some (JObj [("showTitle", JBool false)])
                          | _ => obj_get "ellipsis" (column_options options)
                          end
                     else obj_get k (column_options options)).
  { destruct (truthy (prop "ellipsis" options)) eqn:Ht.
    - destruct He as (r & He & _).
      destruct (ellipsisRender_options _ _ _ _ k He Hwc) as [Hw Hk].
      split; [done|]. rewrite Hk. unfold prop at 1.
      by rewrite column_options_other.
    - destruct He as [-> _]. split; [done|].
      destruct (String.eqb_spec k "ellipsis") as [->|]; [|done].
      destruct (prop "ellipsis" options) as [| |[|]| | | | |]; done. }
  destruct Ho' as [Hwo Hk].
  rewrite obj_get_spread_wf by apply wf_RESET_LOCAL_OPTIONS.
  rewrite spread_copy, Hk by done.
  unfold RESET_LOCAL_OPTIONS. cbn [obj_get existsb orb].
  destruct (String.eqb_spec k "format") as [->|]; [done|].
  destruct (String.eqb_spec k "amend") as [->|]; [done|].
  destruct (String.eqb_spec k "default") as [->|]; [done|].
  destruct (String.eqb_spec k "group") as [->|]; [done|]. cbn [orb].
  rewrite !column_options_other by done. reflexivity.
Qed.


(** X27. The default truncation wraps what the format chain shows: for a
    column whose [ellipsis] is [true] or ["default"], the cell is a tooltip
    whose title and content are both the value that the column would show
    without truncation. *)
Theorem ellipsis_default_shows_rendered_value options mount_k value record
    index d :
  wf_obj options ->
  prop "ellipsis" options = JBool true
  \/ prop "ellipsis" options = JStr "default" ->
  render_value P options value record = Ret d ->
  exists col f,
    resolve_field P options None mount_k
    = Ret (col :: match mount_k with Some m => [m] | None => [] end)
    /\ col_render col = Some f
    /\ f value record index = Ret (NTooltip d d).
Proof.
  intros Hwf He Hd. unfold render_value in Hd.
  unfold resolve_field. rewrite resolve_field_in_eq.
  destruct (column_render P options) as [_render|];
    cbn [mbind outcome_bind] in *; [|done].
  assert (He' : prop "ellipsis" (column_options options)
                = prop "ellipsis" options).
  { unfold prop. by rewrite column_options_other. }
  rewrite ellipsisRender_in_eq. unfold ellipsis_type. rewrite !He'.
  assert (Hcall : forall opt,
            registry_call DEFAULT_ELLIPSIS_RENDER_FACTORY plain_cell ∅
              (JStr "default") opt _render
            = (Ret (Callable (ellipsis_default_factory opt
                                (as_render _render))), ∅)).
  { intros opt.
    by apply (registry_call_declared DEFAULT_ELLIPSIS_RENDER_FACTORY
                plain_cell (JStr "default") "default" opt _render
                (fun opt prevRender =>
                   ellipsis_default_factory opt (as_render prevRender))). }
  destruct He as [-> | ->]; cbn [truthy String.eqb negb fst snd];
    rewrite Hcall; cbn [fst snd mbind outcome_bind held_cell];
    eexists _, _; (split; [reflexivity|]); cbn [col_render];
    (split; [reflexivity|]);
    unfold ellipsis_default_factory, previous_output;
    destruct (as_render _render); rewrite ?Hd; cbn [mbind outcome_bind];
    try reflexivity; by injection Hd as ->.
Qed.

(** *** The decorator *)

(** X28. A field declared with [Column(title, options)] and resolved by
    [useColumns]: when it passes the group check and its column can be built,
    the column has the title and the data index of the options when they hold
    one, the title of the decorator and the key of the field otherwise.  The
    decorator leaves the metadata of the other fields alone. *)
Theorem declared_field_column title (options : option payload) key metadata
    group cols :
  wf_obj (default [] options) ->
  groupCheck (prop "group" (default [] options)) group = true ->
  useColumns'
    (Some {| class_keys := [key];
             class_metadata := Column title options key metadata |})
    None ∅ group ∅ false = Ret cols ->
  (exists col,
     cols = [col]
     /\ prop "title" (col_props col)
        = default (JStr title) (obj_get "title" (default [] options))
     /\ prop "dataIndex" (col_props col)
        = default (JStr key) (obj_get "dataIndex" (default [] options)))
  /\ forall key', key' <> key ->
       Column title options key metadata !! key' = metadata !! key'.
Proof.
  intros Hwo Hgroup Hcols. split;
    [|intros key' Hne; unfold Column; by rewrite lookup_insert_ne].
  unfold useColumns, useColumns_from, Column in Hcols.
  cbn [class_keys class_metadata] in Hcols.
  cbn [resolve_fields] in Hcols. rewrite lookup_insert_eq in Hcols.
  set (declared := spread [("title", JStr title); ("dataIndex", JStr key)]
                          (default [] options)) in *.
  assert (Hwd : wf_obj declared).
  { apply wf_obj_spread. unfold wf_obj. apply (bool_decide_unpack _).
    vm_compute. exact I. }
  assert (Hget : forall k, obj_get k declared
                 = match obj_get k (default [] options) with
                   | Some v => Some v
                   | None => obj_get k [("title", JStr title);
                                        ("dataIndex", JStr key)]
                   end).
  { intros k. subst declared. by rewrite obj_get_spread_wf. }
  assert (Hg : prop "group" declared = prop "group" (default [] options)).
  { unfold prop. rewrite Hget.
    by destruct (obj_get "group" (default [] options)). }
  rewrite Hg, Hgroup, !lookup_empty in Hcols.
  pose proof (eq_refl (resolve_field P declared None None)) as Hf.
  unfold resolve_field at 1 in Hf.
  destruct (resolve_field_in P ∅ declared None None) as [[pushed|] acc'];
    cbn [fst mbind outcome_bind] in *; [|done].
  injection Hcols as <-. symmetry in Hf. cbn [default]. rewrite app_nil_r.
  destruct (resolve_field_plain _ _ _ Hwd Hf)
    as (_render & o' & render' & Hr & He & ->).
  eexists. split; [reflexivity|]. cbn [col_props].
  pose proof (wf_column_options declared Hwd) as Hwc.
  assert (Ho' : wf_obj o' /\ forall k, k <> "ellipsis" ->
                  obj_get k o' = obj_get k (column_options declared)).
  { destruct (truthy (prop "ellipsis" declared)).
    - destruct He as (r & He & _). split.
      + by destruct (ellipsisRender_options _ _ _ _ "" He Hwc).
      + intros k Hk.
        destruct (ellipsisRender_options _ _ _ _ k He Hwc) as [_ ->].
        apply String.eqb_neq in Hk. by rewrite Hk.
    - by destruct He as [-> _]. }
  destruct Ho' as [Hwo' Hk]. unfold prop.
  split; rewrite obj_get_spread_wf by apply wf_RESET_LOCAL_OPTIONS;
    rewrite spread_copy, Hk, column_options_other, Hget by done;
    cbn [obj_get RESET_LOCAL_OPTIONS String.eqb Ascii.eqb Bool.eqb].
  - destruct (obj_get "title" (default [] options)); reflexivity.
  - destruct (obj_get "dataIndex" (default [] options)); reflexivity.
Qed.

(** *** The table *)

(** X29. The table of a search.  When the columns can be built, [useTable]
    returns them with the rows of the page, and a change of page or of size in
    the table calls the trigger of the search with no query payload: the
    stored query payload stays, the size is adopted, and the page is adopted
    when the size is the stored one and is 1 when it is not. *)
Theorem table_page_change_keeps_query opts fetch pageData additional Clz
    extend rowKey loading group mount withIndex cols :
  useColumns' Clz additional extend group mount withIndex = Ret cols ->
  exists t pg,
    useTable P INDEX_TITLE showTotal_label pageData additional Clz extend rowKey
      loading (Some (searchRef P opts fetch)) group mount withIndex = Ret t
    /\ columns t = cols
    /\ dataSource t = prop "list" pageData
    /\ pagination t = Some pg
    /\ forall page size w,
         searchDataRef (fst (fst (onChange pg page size w)))
         = searchDataRef (fst w)
         /\ paginationRef (fst (fst (onChange pg page size w)))
            = mkPageQuery
                (if pageSize (paginationRef (fst w)) =? size then page else 1)
                size.
Proof.
  intros Hcols. unfold useTable. rewrite Hcols. cbn [mbind outcome_bind].
  eexists _, _. split; [reflexivity|]. cbn [columns dataSource pagination].
  split_and!; try reflexivity.
  intros page size w. cbn [onChange].
  destruct (searchRef_refs P opts fetch None (Some (mkPageQuery page size)) w)
    as [-> ->].
  split; reflexivity.
Qed.

End ColumnShape.

(** * The further theorems at concrete inputs *)

(** X1: the fetch of the example engine, called with a new form; the static
    [page] wins over the stored one. *)
Lemma fetch_argument_lookup_witness :
  obj_get "page"
    (snd (searchRef_begin demo_static_options demo_engine (Some demo_form)
            None))
  = Some (JInt 7).
Proof.
  pose proof (fetch_argument_lookup demo_static_options demo_engine
                (Some demo_form) None "page"
                ltac:(wf_concrete) ltac:(wf_concrete)) as H.
  exact H.
Defined.

(** X2 on the example form, whose code and owner are blank. *)
Lemma encode_base64_drops_useless_witness :
  encodeQueryData ecma (Some demo_form) base64
  = encodeQueryData ecma
      (Some (List.filter (fun kv => isUsefulValue (snd kv)) demo_form)) base64.
Proof. apply (encode_base64_drops_useless ecma demo_form). wf_concrete. Defined.

(** X3 on a form of an empty text and an empty list. *)
Lemma encode_nothing_useful_witness :
  encodeQueryData ecma (Some [("code", JStr ""); ("ids", JArr [])]) query = "".
Proof.
  apply (encode_nothing_useful ecma [("code", JStr ""); ("ids", JArr [])]
           query);
    [wf_concrete | reflexivity].
Defined.

(** X4 on the form of a link: the blank code and the entry named
    [__proto__] are not read back. *)
Lemma cache_round_trip_witness :
  getFromCache ecma (CacheKey "orders") base64
    (setCache (CacheKey "orders")
       (encodeQueryData ecma (Some demo_proto_form) base64) demo_browser)
  = ([], Ret (JObj [("name", JStr "a b/c")])).
Proof.
  apply (cache_round_trip ecma ecma_laws (CacheKey "orders") demo_proto_form
           demo_browser); [wf_concrete | vm_compute; reflexivity].
Defined.

(** X5 on the same form. *)
Lemma link_round_trip_witness :
  getFromUrl ecma base64
    (setToUrl ecma (encodeQueryData ecma (Some demo_proto_form) base64)
       demo_browser)
  = ([], Ret (JObj [("name", JStr "a b/c")])).
Proof.
  apply (link_round_trip ecma ecma_laws demo_proto_form demo_browser);
    [wf_concrete | vm_compute; reflexivity].
Defined.

(** X6 on the example page, after a request for the example form. *)
Lemma reload_restores_query_witness :
  exists st,
    useSearch_init ecma demo_options
      (snd (fst (searchRef_settle ecma demo_options (Fulfilled JNull)
                   (demo_engine, demo_browser)))) JNull
    = ([], Ret st)
    /\ forall k,
         obj_get k (searchDataRef st)
         = match (if sync_on (sync demo_options)
                     || cache_on (cache demo_options)
                  then obj_get k
                         (List.filter
                            (fun kv =>
                               isUsefulValue (snd kv)
                               && negb (String.eqb (fst kv) "__proto__"))
                            demo_form)
                  else None) with
           | Some v => Some v
           | None => obj_get k (default [] (initialSearchData demo_options))
           end.
Proof.
  apply (reload_restores_query ecma ecma_laws demo_options (Fulfilled JNull)
           (demo_engine, demo_browser) JNull).
  - reflexivity.
  - discriminate.
  - wf_concrete.
  - vm_compute. reflexivity.
  - wf_concrete.
Defined.

(** X7: a rejected request for another page and another static payload
    leaves the browser as a fulfilled one does. *)
Lemma persisted_text_ignores_pagination_witness :
  snd (fst (searchRef ecma demo_other_options (fun _ => Rejected JNull)
              (Some demo_form) (Some {| page := 4; pageSize := 50 |})
              (setPageData (JStr "rows") demo_engine, demo_browser)))
  = snd (fst (searchRef ecma demo_options demo_fetch (Some demo_form) None
                (demo_engine, demo_browser)))
  /\ storageRef
       (fst (fst (searchRef ecma demo_other_options (fun _ => Rejected JNull)
                    (Some demo_form) (Some {| page := 4; pageSize := 50 |})
                    (setPageData (JStr "rows") demo_engine, demo_browser))))
     = storageRef
         (fst (fst (searchRef ecma demo_options demo_fetch (Some demo_form)
                      None (demo_engine, demo_browser)))).
Proof.
  apply (persisted_text_ignores_pagination ecma demo_options
           demo_other_options demo_fetch (fun _ => Rejected JNull)
           (Some demo_form) None (Some {| page := 4; pageSize := 50 |})
           demo_engine (setPageData (JStr "rows") demo_engine) demo_browser);
    reflexivity.
Defined.

(** X10 on a page whose link parameter is not an escape. *)
Lemma first_render_base64_returns_witness :
  exists log st,
    useSearch_init ecma demo_options demo_broken_link JNull = (log, Ret st)
    /\ loading st = initRequest demo_options
    /\ pageData st = JNull
    /\ storageRef st = ""
    /\ paginationRef st
       = default (newPageQuery ecma) (initialPagination demo_options).
Proof.
  apply (first_render_base64_returns ecma demo_options demo_broken_link JNull).
  reflexivity.
Defined.

(** X11 on the same page, in the [query] format. *)
Lemma first_render_query_throws_witness :
  useSearch_init ecma demo_query_options demo_broken_link JNull
  = ([], Throw URIError).
Proof.
  apply (first_render_query_throws ecma demo_query_options demo_broken_link
           JNull "%" URIError [] (JObj [])).
  - reflexivity.
  - reflexivity.
  - reflexivity.
  - discriminate.
  - vm_compute. reflexivity.
  - reflexivity.
Defined.

(** X12 on the example page: the rows are the argument of the fetch. *)
Lemma mount_settles_witness :
  loading (fst (useSearch_mount ecma demo_options demo_fetch
                  (demo_first_engine, demo_browser))) = false
  /\ searchDataRef (fst (useSearch_mount ecma demo_options demo_fetch
                           (demo_first_engine, demo_browser)))
     = searchDataRef demo_first_engine
  /\ paginationRef (fst (useSearch_mount ecma demo_options demo_fetch
                           (demo_first_engine, demo_browser)))
     = paginationRef demo_first_engine
  /\ pageData (fst (useSearch_mount ecma demo_options demo_fetch
                      (demo_first_engine, demo_browser)))
     = JObj [("a", JStr "declared"); ("b", JStr "cached");
             ("c", JStr "linked"); ("page", JInt 1); ("pageSize", JInt 30)].
Proof.
  apply (mount_settles ecma demo_options demo_fetch demo_browser JNull []
           demo_first_engine).
  vm_compute. reflexivity.
Defined.

(** X13 for the prefixes [true] and ["orders"]. *)
Lemma cache_prefixes_apart_witness :
  getFromCache ecma (CacheKey "orders") base64
    (setCache (CacheBool true) "e30=" demo_browser)
  = getFromCache ecma (CacheKey "orders") base64 demo_browser.
Proof.
  apply (cache_prefixes_apart ecma (CacheBool true) (CacheKey "orders") "e30="
           base64 demo_browser).
  discriminate.
Defined.


(** X15 on an empty text, with [amend] set. *)
Lemma column_without_format_witness :
  render_value ecma [("amend", JBool true); ("default", JStr "n/a")]
    (JStr "") (JObj [])
  = Ret (JStr "n/a").
Proof.
  apply (column_without_format ecma
           [("amend", JBool true); ("default", JStr "n/a")] (JStr "")
           (JObj [])); [wf_concrete | reflexivity].
Defined.

(** X16 on a [money] column. *)
Lemma format_disables_amend_witness :
  render_value ecma (obj_set "amend" (JBool true) [("format", JStr "money")])
    (JStr "") (JObj [])
  = render_value ecma [("format", JStr "money")] (JStr "") (JObj []).
Proof.
  apply (format_disables_amend ecma [("format", JStr "money")] (JBool true)
           (JStr "") (JObj []) money JNull);
    [wf_concrete | reflexivity | reflexivity].
Defined.

(** X17 on a [date] column that declares a default. *)
Lemma bare_name_loses_default_witness :
  render_value ecma [("format", JStr "date"); ("default", JStr "n/a")]
    JNull (JObj [])
  = Ret JUndefined.
Proof.
  apply (bare_name_loses_default ecma
           [("format", JStr "date"); ("default", JStr "n/a")] date JNull
           (JObj [])).
  - wf_concrete.
  - simpl. tauto.
  - reflexivity.
  - reflexivity.
Defined.

(** X18: the [split] entry after the [number] format, on a number. *)
Lemma split_cuts_raw_value_witness :
  ellipsis_split_factory JNull (Some (number_factory ecma JNull)) (JInt 5)
    (JObj []) 0
  = Throw TypeError.
Proof.
  apply (split_cuts_raw_value JNull (number_factory ecma JNull) (JInt 5)
           (JObj []) 0 "5").
  vm_compute. reflexivity.
Defined.

(** X19 on a number, without a format. *)
Lemma split_shows_nothing_for_other_output_witness :
  ellipsis_split_factory JNull None (JInt 5) (JObj []) 0
  = Ret (NValue JUndefined).
Proof.
  apply (split_shows_nothing_for_other_output JNull None (JInt 5) (JObj []) 0
           (JInt 5)); [reflexivity | discriminate].
Defined.

(** X20 on a path, with the declared options. *)
Lemma split_shows_part_of_text_witness :
  (prop "showIndex" (with_defaults DEFAULT_ELLIPSIS_OPTIONS_split JNull)
   = JStr "start" ->
     exists d rest,
       ellipsis_split_factory JNull None (JStr "a/b/c") (JObj []) 0
       = Ret (NTooltip (JStr "a/b/c") (JStr d))
       /\ "a/b/c" = d +:+ rest)
  /\ (prop "showIndex" (with_defaults DEFAULT_ELLIPSIS_OPTIONS_split JNull)
      = JStr "end" ->
        exists d pre,
          ellipsis_split_factory JNull None (JStr "a/b/c") (JObj []) 0
          = Ret (NTooltip (JStr "a/b/c") (JStr d))
          /\ "a/b/c" = pre +:+ d).
Proof.
  apply (split_shows_part_of_text JNull "a/b/c" "/" (JObj []) 0);
    [reflexivity | left; discriminate].
Defined.

(** X21: in the group [admin] the field [secret] is resolved, and its
    format is not in the registry. *)
Lemma useColumns_fails_on_bad_field_witness :
  exists e',
    useColumns ecma (JStr "No.") (Some demo_class) None ∅ (Some "admin") ∅
      false
    = Throw e'.
Proof.
  apply (useColumns_fails_on_bad_field ecma (JStr "No.") demo_class None ∅
           (Some "admin") ∅ false "secret" demo_secret_options TypeError).
  - apply (bool_decide_unpack _). vm_compute. exact I.
  - vm_compute. reflexivity.
  - reflexivity.
  - vm_compute. reflexivity.
Defined.

(** X22 on the object that the table component takes. *)
Lemma ellipsis_object_throws_witness :
  resolve_field ecma
    [("title", JStr "Path"); ("ellipsis", JObj [("showTitle", JBool false)])]
    None None
  = Throw TypeError.
Proof.
  apply (ellipsis_object_throws ecma
           [("title", JStr "Path");
            ("ellipsis", JObj [("showTitle", JBool false)])]
           [("showTitle", JBool false)] None None);
    [wf_concrete | reflexivity | reflexivity].
Defined.

(** X23: without a group the field [secret] is not resolved. *)
Lemma hidden_field_is_skipped_witness :
  useColumns ecma (JStr "No.")
    (Some {| class_keys := class_keys demo_class;
             class_metadata := class_metadata demo_class |})
    None ∅ None ∅ false
  = useColumns ecma (JStr "No.")
      (Some {| class_keys := class_keys demo_class;
               class_metadata := delete "secret" (class_metadata demo_class) |})
      None (delete "secret" ∅) None (delete "secret" ∅) false.
Proof.
  apply (hidden_field_is_skipped ecma (JStr "No.") (class_keys demo_class)
           (class_metadata demo_class) None ∅ None ∅ false "secret"
           demo_secret_options).
  - vm_compute. reflexivity.
  - reflexivity.
Defined.

(** X24 on the class without formats: the index, the name and its action,
    the code, the action at the end. *)
Lemma useColumns_layout_witness :
  exists fields,
    useColumns ecma (JStr "No.") (Some demo_plain_class) None ∅ None
      (<["name" := demo_action]> ∅) false = Ret fields
    /\ demo_columns
       = ([index_column (JStr "No.")] ++ fields ++ [demo_action])%list
    /\ length fields = 3%nat.
Proof.
  assert (H : useColumns ecma (JStr "No.") (Some demo_plain_class)
                 (Some [demo_action]) ∅ None (<["name" := demo_action]> ∅) true
               = Ret demo_columns) by (vm_compute; reflexivity).
  destruct (useColumns_layout ecma (JStr "No.") (Some demo_plain_class)
              (Some [demo_action]) ∅ None (<["name" := demo_action]> ∅) true
              demo_columns H)
    as (fields & Hfields & Hcols & Hlen).
  exists fields. split; [exact Hfields|]. split; [exact Hcols|].
  rewrite Hlen. vm_compute. reflexivity.
Defined.

(** X25 on the field [code], for the key [ellipsis]. *)
Lemma resolved_column_props_witness :
  exists col,
    [demo_code_column] = [col]
    /\ obj_get "ellipsis" (col_props col)
       = Some (JObj [("showTitle", JBool false)]).
Proof.
  apply (resolved_column_props ecma demo_code_options None [demo_code_column]
           "ellipsis"); [wf_concrete | vm_compute; reflexivity].
Defined.


(** X27 on the field [price]. *)
Lemma ellipsis_default_shows_rendered_value_witness :
  exists col f,
    resolve_field ecma demo_price_options None None = Ret [col]
    /\ col_render col = Some f
    /\ f (JInt 1234) (JObj []) 0
       = Ret (NTooltip (JStr "1,234.00") (JStr "1,234.00")).
Proof.
  apply (ellipsis_default_shows_rendered_value ecma demo_price_options None
           (JInt 1234) (JObj []) 0 (JStr "1,234.00")).
  - wf_concrete.
  - left. reflexivity.
  - vm_compute. reflexivity.
Defined.

(** X28 on the field [code]. *)
Lemma declared_field_column_witness :
  (exists col,
     [demo_code_column] = [col]
     /\ prop "title" (col_props col)
        = default (JStr "Code")
            (obj_get "title" (default [] (Some [("ellipsis", JBool true)])))
     /\ prop "dataIndex" (col_props col)
        = default (JStr "code")
            (obj_get "dataIndex"
               (default [] (Some [("ellipsis", JBool true)]))))
  /\ forall key', key' <> "code" ->
       Column "Code" (Some [("ellipsis", JBool true)]) "code" ∅ !! key'
       = (∅ : gmap string payload) !! key'.
Proof.
  apply (declared_field_column ecma (JStr "No.") "Code"
           (Some [("ellipsis", JBool true)]) "code" ∅ None
           [demo_code_column]).
  - wf_concrete.
  - reflexivity.
  - vm_compute. reflexivity.
Defined.

(** X29 on the class without formats and the trigger of the example page. *)
Lemma table_page_change_keeps_query_witness :
  exists t pg,
    useTable ecma (JStr "No.") (fun total => total)
      [("list", JArr []); ("page", JInt 1); ("total", JInt 0)]
      (Some [demo_action]) (Some demo_plain_class) ∅ (JStr "id") (JBool false)
      (Some (searchRef ecma demo_options demo_fetch)) None
      (<["name" := demo_action]> ∅) true = Ret t
    /\ columns t = demo_columns
    /\ dataSource t
       = prop "list" [("list", JArr []); ("page", JInt 1); ("total", JInt 0)]
    /\ pagination t = Some pg
    /\ forall page size w,
         searchDataRef (fst (fst (onChange pg page size w)))
         = searchDataRef (fst w)
         /\ paginationRef (fst (fst (onChange pg page size w)))
            = mkPageQuery
                (if pageSize (paginationRef (fst w)) =? size then page else 1)
                size.
Proof.
  apply (table_page_change_keeps_query ecma (JStr "No.") (fun total => total)
           demo_options demo_fetch
           [("list", JArr []); ("page", JInt 1); ("total", JInt 0)]
           (Some [demo_action]) (Some demo_plain_class) ∅ (JStr "id")
           (JBool false) None (<["name" := demo_action]> ∅) true demo_columns).
  vm_compute. reflexivity.
Defined.
